(** * sshtool: the virtual filesystem layer (package sftp) and the WebDAV
    adapter (package webdav_fs), embedded in Rocq.

    Go strings are byte strings: [string] of the Standard Library.  A Go call
    can return a value, return an error, panic, or never return; the four
    outcomes are the constructors of [res].  Loops of the source are
    recursive functions over a fuel argument; running out of fuel stands for
    a loop that has not finished yet and is the outcome [Diverge]. *)

From Stdlib Require Import ZArith List Bool Arith Lia ZifyBool String Ascii Sorted Permutation.
Import ListNotations.
Local Open Scope string_scope.
Local Open Scope nat_scope.
Local Open Scope list_scope.

Set Implicit Arguments.

(** ** Errors and outcomes *)

(** The error values the packages return.  [ErrForbidden] is the package's
    own [sftp.ErrForbidden]; [ErrPermission], [ErrInvalid] and [ErrNotExist]
    are the values of package os; [EOF] and [ErrUnexpectedEOF] those of
    package io; [ErrMsg] is an error built by [fmt.Errorf]. *)
Inductive error : Type :=
| ErrForbidden
| ErrPermission
| ErrInvalid
| ErrNotExist
| EOF
| ErrUnexpectedEOF
| ErrMsg (msg : string).

Inductive res (A : Type) : Type :=
| Ok (a : A)
| Err (e : error)
| Panic
| Diverge.

Arguments Ok {A} a.
Arguments Err {A} e.
Arguments Panic {A}.
Arguments Diverge {A}.

Definition bind {A B : Type} (m : res A) (k : A -> res B) : res B :=
  match m with
  | Ok a => k a
  | Err e => Err e
  | Panic => Panic
  | Diverge => Diverge
  end.

Declare Scope res_scope.
Delimit Scope res_scope with res.
Notation "x <- m ;; k" := (bind m (fun x => k))
  (at level 61, m at next level, right associativity) : res_scope.
Local Open Scope res_scope.

(** Go's short-circuit [a && b] and [a || b] over operands that may panic. *)
Definition and_then (a b : res bool) : res bool :=
  x <- a ;; if x then b else Ok false.

Definition or_else (a b : res bool) : res bool :=
  x <- a ;; if x then Ok true else b.

(** The spec's error kind Forbidden covers the package's [ErrForbidden] and
    the operating system's [ErrPermission]. *)
Definition is_forbidden (e : error) : bool :=
  match e with
  | ErrForbidden | ErrPermission => true
  | _ => false
  end.

Definition is_invalid (e : error) : bool :=
  match e with
  | ErrInvalid => true
  | _ => false
  end.

(** ** Byte strings *)

Definition slash : ascii := "/"%char.
Definition dot : ascii := "."%char.

(** [path[i]]: indexing past the end panics. *)
Definition index (path : string) (i : nat) : res ascii :=
  match String.get i path with
  | Some c => Ok c
  | None => Panic
  end.

Definition is_byte (c : ascii) (r : res ascii) : res bool :=
  x <- r ;; Ok (Ascii.eqb x c).

(** [s[:n]]: slicing past the end panics. *)
Definition slice_to (s : string) (n : nat) : res string :=
  if n <=? String.length s then Ok (String.substring 0 n s) else Panic.

(** ** 64-bit integers

    [int64] (and [int] on the 64-bit targets) as [Z] with wrap-around. *)

Definition wrap64 (x : Z) : Z := ((x + 2 ^ 63) mod 2 ^ 64 - 2 ^ 63)%Z.

Definition add64 (a b : Z) : Z := wrap64 (a + b).

Definition sub64 (a b : Z) : Z := wrap64 (a - b).

(** [int64(len(x))] *)
Definition len64 {A : Type} (l : list A) : Z := Z.of_nat (List.length l).

(** ** File information and listers *)

(** [os.FileInfo], by the values of its methods. *)
Record FileInfo : Type := mkFileInfo {
  Name : string;
  Size : Z;
  Mode : Z;
  ModTime : Z;
  IsDir : bool
}.

(** [renamedFileInfo{original, newName}] *)
Definition renamedFileInfo (original : FileInfo) (newName : string) : FileInfo :=
  mkFileInfo newName (Size original) (Mode original) (ModTime original) (IsDir original).

(** What a call [n, err := lister(ls, offset)] leaves behind: the count [n],
    the entries written to the front of [ls], and the error ([None] is
    [nil]). *)
Definition ListAtResult : Type := (Z * list FileInfo * option error)%type.

(** A lister over a stable directory: a function of [len(ls)] and the
    offset. *)
Definition ListerAt : Type := nat -> Z -> res ListAtResult.

(** ** Stateful operations

    An operation of a filesystem acts on a world [W] (the host's files): it
    maps the world before the call to an outcome and the world after. *)
Definition M (W A : Type) : Type := W -> res A * W.

Definition ret {W A : Type} (r : res A) : M W A := fun w => (r, w).

Definition mbind {W A B : Type} (m : M W A) (k : A -> M W B) : M W B :=
  fun w =>
    match m w with
    | (Ok a, w') => k a w'
    | (Err e, w') => (Err e, w')
    | (Panic, w') => (Panic, w')
    | (Diverge, w') => (Diverge, w')
    end.

Notation "x <~ m ;; k" := (mbind m (fun x => k))
  (at level 61, m at next level, right associativity) : res_scope.

(** ** PathGuard *)

Module PathGuard.

(** The inner loop of [ContainsValidDir]: fast-forward to the byte after the
    next [/], or to [n]. *)
Fixpoint fastForward (fuel : nat) (path : string) (n i : nat) : res nat :=
  match fuel with
  | O => Diverge
  | S fuel' =>
      if i <? n then
        c <- index path i ;;
        if Ascii.eqb c slash then Ok (i + 1)
        else fastForward fuel' path n (i + 1)
      else Ok i
  end.

(** The outer loop of [ContainsValidDir]. *)
Fixpoint validFrom (fuel : nat) (path : string) (n i : nat) : res bool :=
  match fuel with
  | O => Diverge
  | S fuel' =>
      if i <? n then
        c1 <- and_then (is_byte slash (index path i)) (Ok (0 <? i)) ;;
        if c1 then Ok false else
        c2 <- and_then (is_byte dot (index path i))
                (or_else (Ok (i + 1 =? n)) (is_byte slash (index path (i + 1)))) ;;
        if c2 then Ok false else
        c3 <- and_then (is_byte dot (index path i))
                (and_then (is_byte dot (index path (i + 1)))
                   (or_else (Ok (i + 2 =? n)) (is_byte slash (index path (i + 2))))) ;;
        if c3 then Ok false else
        i' <- fastForward fuel' path n (i + 1) ;;
        validFrom fuel' path n i'
      else Ok true
  end.

Definition ContainsValidDirF (fuel : nat) (path : string) : res bool :=
  let n := String.length path in
  c <- index path 0 ;;
  let i := if Ascii.eqb c slash then 1 else 0 in
  validFrom fuel path n i.

(** Every iteration of either loop advances [i], so [len(path) + 1] rounds
    are enough (lemma [ContainsValidDirF_fuel] below). *)
Definition ContainsValidDir (path : string) : res bool :=
  ContainsValidDirF (S (String.length path)) path.

(** *** Package path/filepath (Unix)

    [filepath.Clean] and [filepath.Join] belong to Go's library, not to this
    repository.  They are modelled by the rules their documentation gives:
    Clean splits the path at [/], drops empty and [.] elements, lets an
    inner [..] remove the element before it, drops a [..] that would climb
    above the root of a rooted path, keeps the leading [..] elements of a
    relative path, and returns [.] for an empty result.  On Unix
    [filepath.ToSlash] is the identity. *)

Fixpoint splitAcc (cur : string) (s : string) : list string :=
  match s with
  | EmptyString => [cur]
  | String c s' =>
      if Ascii.eqb c slash then cur :: splitAcc "" s'
      else splitAcc (cur ++ String c "")%string s'
  end.

(** [strings.Split(s, "/")] *)
Definition split (s : string) : list string := splitAcc "" s.

(** One element of the path against the elements kept so far (last kept
    element first). *)
Definition cleanStep (rooted : bool) (kept : list string) (elem : string) : list string :=
  if String.eqb elem "" || String.eqb elem "." then kept
  else if String.eqb elem ".." then
    match kept with
    | top :: rest => if String.eqb top ".." then ".." :: kept else rest
    | [] => if rooted then [] else [".."]
    end
  else elem :: kept.

Definition Clean (path : string) : string :=
  match path with
  | EmptyString => "."
  | String c _ =>
      let rooted := Ascii.eqb c slash in
      let kept := rev (fold_left (cleanStep rooted) (split path) []) in
      let out := ((if rooted then "/" else "") ++ String.concat "/" kept)%string in
      if String.eqb out "" then "." else out
  end.

(** [filepath.Join(a, b)]: empty elements before the first non-empty one are
    ignored, the rest is joined with [/] and cleaned; all empty gives the
    empty string. *)
Definition Join (a b : string) : string :=
  if negb (String.eqb a "") then Clean (a ++ "/" ++ b)%string
  else if negb (String.eqb b "") then Clean b
  else "".

Definition ToSlash (path : string) : string := path.

(** *** normalizePath *)

Definition normalizePath (path : string) : res string :=
  let path := Clean path in
  let path := ToSlash path in
  let path := if String.eqb path "" then "/" else path in
  ok <- ContainsValidDir path ;;
  if negb ok then Err (ErrMsg "wrong path") else Ok path.

End PathGuard.

(** ** DirMount: the native-directory filesystem *)

Module DirMount.
Import PathGuard.

Record DirFs : Type := mkDirFs { Root : string; Readonly : bool }.

Definition CanRead (d : DirFs) (absolutePath : string) : bool := true.

Definition CanWrite (d : DirFs) (absolutePath : string) : bool := negb (Readonly d).

Definition IntoAbsPath (d : DirFs) (path : string) : res string :=
  let realPath := Join (Root d) path in
  let realPath := ToSlash realPath in
  let realPath :=
    if (Z.of_nat (String.length realPath) =? Z.of_nat (String.length (Root d)) - 1)%Z
    then (realPath ++ "/")%string else realPath in
  bad <- or_else (v <- ContainsValidDir realPath ;; Ok (negb v))
                 (pre <- slice_to realPath (String.length (Root d)) ;;
                  Ok (negb (String.eqb pre (Root d)))) ;;
  if bad then Err (ErrMsg "invalid path") else Ok realPath.

(** The closure [DirFs.List] returns, over the cached [fileinfos]. *)
Definition dirLister (fileinfos : list FileInfo) : ListerAt :=
  fun lenLs offset =>
    if (offset >=? len64 fileinfos)%Z then Ok (0%Z, [], Some EOF)
    else if (offset <? 0)%Z then Panic
    else
      let copied := firstn lenLs (skipn (Z.to_nat offset) fileinfos) in
      let n := List.length copied in
      if n <? lenLs then Ok (Z.of_nat n, copied, Some EOF)
      else Ok (Z.of_nat n, copied, None).

Section HostDirectory.

Variable W : Type.
(** [os.ReadDir] followed by [Info] on every entry. *)
Variable os_ReadDirInfos : string -> M W (list FileInfo).

Definition List (d : DirFs) (path : string) : M W ListerAt :=
  abspath <~ ret (IntoAbsPath d path) ;;
  if negb (CanRead d abspath) then ret (Err ErrForbidden) else
  fileinfos <~ os_ReadDirInfos abspath ;;
  ret (Ok (dirLister fileinfos)).

End HostDirectory.

End DirMount.

(** ** The filesystem contract *)

Section Contract.

Variable W : Type.
Variables ReaderAt WriterAt FileAttrFlags FileStat : Type.

(** [SimplifiedFS]: the operations every filesystem implements. *)
Record SimplifiedFS : Type := mkSimplifiedFS {
  fsList : string -> M W ListerAt;
  fsLstat : string -> M W FileInfo;
  fsStat : string -> M W FileInfo;
  fsReadLink : string -> M W FileInfo;
  fsRead : string -> M W ReaderAt;
  fsWrite : string -> M W WriterAt;
  fsSetStat : string -> FileAttrFlags -> FileStat -> M W unit;
  fsRename : string -> string -> M W unit;
  fsRmdir : string -> M W unit;
  fsRm : string -> M W unit;
  fsMkdir : string -> M W unit;
  fsLink : string -> string -> M W unit;
  fsSymlink : string -> string -> M W unit
}.

End Contract.

(** ** PermissionWrapper *)

Module PermWrapper.
Import PathGuard.

(** [*regexp.Regexp], by its [MatchString]. *)
Record Regexp : Type := mkRegexp { MatchString : string -> bool }.

Definition anyMatch (rs : list Regexp) (path : string) : bool :=
  existsb (fun r => MatchString r path) rs.

(** Whether the given array contains the given element. *)
Definition contains (array : list Z) (element : Z) : bool :=
  existsb (fun item => (item =? element)%Z) array.

Definition max (a b : Z) : Z := if (a <? b)%Z then b else a.

(** The variables the filtering closure of [List] captures and updates. *)
Record FilterState : Type := mkFilterState {
  idxToHide : list Z;
  maxOffsetYet : Z
}.

Section Filter.

(** [p.ShouldHide], the listed [path] and the inner lister [iter]. *)
Variable ShouldHide : string -> bool.
Variable path : string.
Variable iter : ListerAt.

Definition hides (info : FileInfo) : bool := ShouldHide (Join path (Name info)).

(** How the first loop of the closure ends: it falls through with the inner
    offset, or the closure returns from inside it. *)
Inductive skipped : Type :=
| Positioned (realOffset : Z)
| Returned (r : res ListAtResult).

(** [for i < offset { ... }] *)
Fixpoint skipLoop (fuel : nat) (offset i realOffset : Z) (st : FilterState)
  : skipped * FilterState :=
  match fuel with
  | O => (Returned Diverge, st)
  | S fuel' =>
      if (i <? offset)%Z then
        if (i <? maxOffsetYet st)%Z && negb (contains (idxToHide st) realOffset) then
          skipLoop fuel' offset (add64 i 1) (add64 realOffset 1) st
        else if (i >=? maxOffsetYet st)%Z then
          let st1 := mkFilterState (idxToHide st) (add64 (maxOffsetYet st) 1) in
          match iter 1 realOffset with
          | Ok (n, tmp, err) =>
              match err with
              | Some e => (Returned (Ok (0%Z, [], Some e)), st1)
              | None =>
                  if (n =? 0)%Z then (Returned (Ok (0%Z, [], Some ErrUnexpectedEOF)), st1)
                  else
                    match tmp with
                    | [] => (Returned Panic, st1)
                    | tmp0 :: _ =>
                        if hides tmp0 then
                          skipLoop fuel' offset i (add64 realOffset 1)
                            (mkFilterState (idxToHide st1 ++ [realOffset]) (maxOffsetYet st1))
                        else
                          skipLoop fuel' offset (add64 i 1) (add64 realOffset 1) st1
                    end
              end
          | Err e => (Returned (Err e), st1)
          | Panic => (Returned Panic, st1)
          | Diverge => (Returned Diverge, st1)
          end
        else
          skipLoop fuel' offset i (add64 realOffset 1) st
      else (Positioned realOffset, st)
  end.

(** [for i := 0; i < read; i++ { ... }] over the entries of [raw]; [ls] is
    the list of entries copied so far, [None] a nil entry met before [read]
    entries were seen. *)
Fixpoint keepLoop (raw : list FileInfo) (read i realOffset : Z)
    (ls : list FileInfo) (st : FilterState) : option (list FileInfo * FilterState) :=
  if (i <? read)%Z then
    match raw with
    | [] => None
    | info :: raw' =>
        if negb (hides info) then
          keepLoop raw' read (add64 i 1) realOffset (ls ++ [info]) st
        else
          let idx := add64 realOffset i in
          let hidden := if negb (contains (idxToHide st) idx)
                        then idxToHide st ++ [idx] else idxToHide st in
          keepLoop raw' read (add64 i 1) realOffset ls
            (mkFilterState hidden (max idx (maxOffsetYet st)))
    end
  else Some (ls, st).

(** [for j == 0 && !eof { ... }] and the two returns after it. *)
Fixpoint fillLoop (fuel : nat) (lenLs : nat) (realOffset : Z) (st : FilterState)
  : res ListAtResult * FilterState :=
  match fuel with
  | O => (Diverge, st)
  | S fuel' =>
      match iter lenLs realOffset with
      | Ok (read, raw, err) =>
          let body (eof : bool) :=
            match keepLoop raw read 0 realOffset [] st with
            | None => (Panic, st)
            | Some (ls, st') =>
                let realOffset' := add64 realOffset read in
                if eof then (Ok (len64 ls, ls, Some EOF), st')
                else match ls with
                     | [] => fillLoop fuel' lenLs realOffset' st'
                     | _ => (Ok (len64 ls, ls, None), st')
                     end
            end in
          match err with
          | Some EOF => body true
          | Some e => (Ok (0%Z, [], Some e), st)
          | None => body false
          end
      | Err e => (Err e, st)
      | Panic => (Panic, st)
      | Diverge => (Diverge, st)
      end
  end.

(** The closure [func(ls []os.FileInfo, offset int64) (int, error)]. *)
Definition filteredListAt (fuel : nat) (lenLs : nat) (offset : Z) (st : FilterState)
  : res ListAtResult * FilterState :=
  match skipLoop fuel offset 0 0 st with
  | (Returned r, st') => (r, st')
  | (Positioned realOffset, st') => fillLoop fuel lenLs realOffset st'
  end.

End Filter.

(** What [PermWrapperFS.List] returns: the inner lister itself, or the
    filtering closure with its captured variables. *)
Inductive PermLister : Type :=
| PassThrough (iter : ListerAt)
| Filtering (ShouldHide : string -> bool) (path : string) (iter : ListerAt)
    (st : FilterState).

(** One call of the returned lister. *)
Definition listAt (fuel : nat) (l : PermLister) (lenLs : nat) (offset : Z)
  : res ListAtResult * PermLister :=
  match l with
  | PassThrough iter => (iter lenLs offset, l)
  | Filtering hide path iter st =>
      let '(r, st') := filteredListAt hide path iter fuel lenLs offset st in
      (r, Filtering hide path iter st')
  end.

Section Operations.

Variable W : Type.
Variables ReaderAt WriterAt FileAttrFlags FileStat : Type.

Let FS := SimplifiedFS W ReaderAt WriterAt FileAttrFlags FileStat.

Record PermWrapperFS : Type := mkPermWrapperFS {
  Inner : FS;
  CanReadRegexp : list Regexp;
  CanWriteRegexp : list Regexp;
  ShouldHideRegexp : list Regexp
}.

Variable p : PermWrapperFS.

Definition CanRead (path : string) : bool := anyMatch (CanReadRegexp p) path.

Definition CanWrite (path : string) : bool := anyMatch (CanWriteRegexp p) path.

Definition ShouldHide (path : string) : bool := anyMatch (ShouldHideRegexp p) path.

Definition List (path : string) : M W PermLister :=
  if negb (CanRead path) || ShouldHide path then ret (Err ErrForbidden) else
  iter <~ fsList (Inner p) path ;;
  if List.length (ShouldHideRegexp p) =? 0 then ret (Ok (PassThrough iter))
  else ret (Ok (Filtering ShouldHide path iter (mkFilterState [] 0))).

Definition Lstat (path : string) : M W FileInfo :=
  if CanRead path && negb (ShouldHide path) then fsLstat (Inner p) path
  else ret (Err ErrForbidden).

Definition Stat (path : string) : M W FileInfo :=
  if CanRead path && negb (ShouldHide path) then fsStat (Inner p) path
  else ret (Err ErrForbidden).

Definition ReadLink (path : string) : M W FileInfo :=
  if CanRead path && negb (ShouldHide path) then fsReadLink (Inner p) path
  else ret (Err ErrForbidden).

Definition Read (path : string) : M W ReaderAt :=
  if CanRead path && negb (ShouldHide path) then fsRead (Inner p) path
  else ret (Err ErrForbidden).

Definition Write (path : string) : M W WriterAt :=
  if CanWrite path && negb (ShouldHide path) then fsWrite (Inner p) path
  else ret (Err ErrForbidden).

Definition SetStat (path : string) (flags : FileAttrFlags) (attributes : FileStat)
  : M W unit :=
  if CanWrite path && negb (ShouldHide path) then fsSetStat (Inner p) path flags attributes
  else ret (Err ErrForbidden).

Definition Rename (src dst : string) : M W unit :=
  if CanWrite src && CanWrite dst && negb (ShouldHide src) && negb (ShouldHide dst)
  then fsRename (Inner p) src dst
  else ret (Err ErrForbidden).

Definition Rmdir (path : string) : M W unit :=
  if CanWrite path && negb (ShouldHide path) then fsRmdir (Inner p) path
  else ret (Err ErrForbidden).

Definition Rm (path : string) : M W unit :=
  if CanWrite path && negb (ShouldHide path) then fsRm (Inner p) path
  else ret (Err ErrForbidden).

Definition Mkdir (path : string) : M W unit :=
  if CanWrite path && negb (ShouldHide path) then fsMkdir (Inner p) path
  else ret (Err ErrForbidden).

Definition Link (src dst : string) : M W unit :=
  if CanRead src && CanWrite dst && negb (ShouldHide src) && negb (ShouldHide dst)
  then fsLink (Inner p) src dst
  else ret (Err ErrForbidden).

Definition Symlink (src dst : string) : M W unit :=
  if CanRead src && CanWrite dst && negb (ShouldHide src) && negb (ShouldHide dst)
  then fsSymlink (Inner p) src dst
  else ret (Err ErrForbidden).

End Operations.

End PermWrapper.

(** ** UnionMount: [CombinedFS] *)

Module UnionMount.
Import PathGuard.

Definition min (a b : Z) : Z := if (a <? b)%Z then a else b.

(** [sort.Strings], as an insertion sort on the byte order of strings. *)
Fixpoint insertSorted (s : string) (l : list string) : list string :=
  match l with
  | [] => [s]
  | x :: l' => if String.leb s x then s :: l else x :: insertSorted s l'
  end.

Definition sortStrings (l : list string) : list string := fold_right insertSorted [] l.

(** [s[n:]] for [n <= len(s)] *)
Definition sliceFrom (n : nat) (s : string) : string :=
  String.substring n (String.length s - n) s.

(** [io.Copy] is Go's library: a loop over a buffer of 32 KiB. *)
Definition copyBufferSize : nat := Z.to_nat 32768.
Definition ErrShortWrite : error := ErrMsg "short write".
Definition errInvalidWrite : error := ErrMsg "invalid write result".

Section Union.

Variable W : Type.
Variables ReaderAt WriterAt FileAttrFlags FileStat : Type.

Let FS := SimplifiedFS W ReaderAt WriterAt FileAttrFlags FileStat.

(** [ReadAt(p, off)] gives the bytes read into [p] (their number is [n]) and
    the error; [WriteAt(p, off)] gives [n] and the error. *)
Variable readAt : ReaderAt -> nat -> Z -> M W (list ascii * option error).
Variable writeAt : WriterAt -> list ascii -> Z -> M W (Z * option error).

(** The methods of [OsDirFS] the union calls. *)
Record OsDirFS : Type := mkOsDirFS {
  odIntoAbsPath : string -> res string;
  odCanWrite : string -> bool
}.

(** A mounted value: its operations, Go's [==] on two such interface values
    (it panics on values of one uncomparable type), and the type assertion
    [sfs.(OsDirFS)]. *)
Variable Mount : Type.
Variable ops : Mount -> FS.
Variable sameFS : Mount -> Mount -> res bool.
Variable asOsDirFS : Mount -> option OsDirFS.

Variables os_Rename os_Link os_Symlink : string -> string -> M W unit.

(** [Dirs] is a Go map: the list gives its entries in the order one [range]
    visits them.  [logging] tells whether the logger field is set. *)
Record CombinedFS : Type := mkCombinedFS {
  Dirs : list (string * Mount);
  logging : bool
}.

Variable c : CombinedFS.

Fixpoint extractFrom (dirs : list (string * Mount)) (path : string) : res (string * Mount) :=
  match dirs with
  | [] => Err ErrNotExist
  | (name, sfs) :: dirs' =>
      if (String.length name <=? String.length path)
         && String.eqb (String.substring 0 (String.length name) path) name then
        let subpath := sliceFrom (String.length name) path in
        let subpath := if String.length subpath =? 0 then "/" else subpath in
        c0 <- index subpath 0 ;;
        if Ascii.eqb c0 slash then Ok (subpath, sfs) else extractFrom dirs' path
      else extractFrom dirs' path
  end.

Definition Extract (path : string) : res (string * Mount) :=
  c0 <- index path 0 ;;
  let path := if Ascii.eqb c0 slash then sliceFrom 1 path else path in
  extractFrom (Dirs c) path.

Fixpoint lookupDir (dirs : list (string * Mount)) (name : string) : option Mount :=
  match dirs with
  | [] => None
  | (k, sfs) :: dirs' => if String.eqb k name then Some sfs else lookupDir dirs' name
  end.

Definition topDirsOf : list string := sortStrings (map fst (Dirs c)).

(** [topDirs[i]] for an [int] index *)
Definition indexZ (l : list string) (i : Z) : res string :=
  if (i <? 0)%Z then Panic
  else match nth_error l (Z.to_nat i) with
       | Some x => Ok x
       | None => Panic
       end.

(** [for i := 0; i < int(remaining); i++ { ... }] of the root lister;
    [count] is the number of rounds left, [fs] the entries written. *)
Fixpoint rootLoop (count : nat) (topDirs : list string) (lenFs : nat) (offset i : Z)
    (fs : list FileInfo) : M W (list FileInfo + error) :=
  match count with
  | O => ret (Ok (inl fs))
  | S count' =>
      dirname <~ ret (indexZ topDirs (add64 offset i)) ;;
      match lookupDir (Dirs c) dirname with
      | None => ret Panic
      | Some sfs =>
          fun w =>
            match fsStat (ops sfs) "/" w with
            | (Ok stat, w') =>
                if (i <? Z.of_nat lenFs)%Z then
                  rootLoop count' topDirs lenFs offset (add64 i 1)
                    (fs ++ [renamedFileInfo stat dirname]) w'
                else (Panic, w')
            | (Err e, w') => if logging c then (Ok (inr e), w') else (Panic, w')
            | (Panic, w') => (Panic, w')
            | (Diverge, w') => (Diverge, w')
            end
      end
  end.

(** The closure [List("/")] returns, over the sorted [topDirs]. *)
Definition rootListAt (topDirs : list string) (lenFs : nat) (offset : Z) : M W ListAtResult :=
  if (offset >=? len64 topDirs)%Z then ret (Ok (0%Z, [], Some EOF)) else
  let remaining := min (sub64 (len64 topDirs) offset) (sub64 (Z.of_nat lenFs) offset) in
  r <~ rootLoop (Z.to_nat remaining) topDirs lenFs offset 0 [] ;;
  match r with
  | inr e => ret (Ok (0%Z, [], Some e))
  | inl fs =>
      if (add64 offset remaining =? len64 topDirs)%Z
      then ret (Ok (remaining, fs, Some EOF))
      else ret (Ok (remaining, fs, None))
  end.

(** What [CombinedFS.List] returns: the root closure or the lister of the
    mount the path belongs to. *)
Inductive UnionLister : Type :=
| RootLister (topDirs : list string)
| SubLister (iter : ListerAt).

Definition List (path : string) : M W UnionLister :=
  if String.eqb path "/" then ret (Ok (RootLister topDirsOf)) else
  match Extract path with
  | Ok (subpath, sfs) =>
      iter <~ fsList (ops sfs) subpath ;; ret (Ok (SubLister iter))
  | Err e => ret (Err e)
  | Panic => ret Panic
  | Diverge => ret Diverge
  end.

Definition listAt (l : UnionLister) (lenFs : nat) (offset : Z) : M W ListAtResult :=
  match l with
  | RootLister topDirs => rootListAt topDirs lenFs offset
  | SubLister iter => ret (iter lenFs offset)
  end.

(** [io.Copy(&writerWrapper{writer, 0}, &readWrapper{reader, 0})]: the two
    wrappers' offsets are [woff] and [roff]; each advances only when its
    call returned no error. *)
Fixpoint ioCopy (fuel : nat) (writer : WriterAt) (woff : Z) (reader : ReaderAt) (roff : Z)
  : M W unit :=
  match fuel with
  | O => ret Diverge
  | S fuel' =>
      rd <~ readAt reader copyBufferSize roff ;;
      let '(data, er) := rd in
      let nr := len64 data in
      let roff' := match er with None => add64 roff nr | Some _ => roff end in
      let next (woff' : Z) : M W unit :=
        match er with
        | Some EOF => ret (Ok tt)
        | Some e => ret (Err e)
        | None => ioCopy fuel' writer woff' reader roff'
        end in
      if (0 <? nr)%Z then
        wr <~ writeAt writer data woff ;;
        let '(nw0, ew0) := wr in
        let woff' := match ew0 with None => add64 woff nw0 | Some _ => woff end in
        let '(nw, ew) :=
          if (nw0 <? 0)%Z || (nr <? nw0)%Z
          then (0%Z, match ew0 with None => Some errInvalidWrite | Some _ => ew0 end)
          else (nw0, ew0) in
        match ew with
        | Some e => ret (Err e)
        | None => if negb (nr =? nw)%Z then ret (Err ErrShortWrite) else next woff'
        end
      else next woff
  end.

Definition renameFileFallback (fuel : nat) (srcSfs dstSfs : Mount) (srcPath dstPath : string)
  : M W unit :=
  reader <~ fsRead (ops srcSfs) srcPath ;;
  writer <~ fsWrite (ops dstSfs) dstPath ;;
  _ <~ ioCopy fuel writer 0 reader 0 ;;
  fsRm (ops srcSfs) srcPath.

(** In the source the [err] of the lister call is overwritten by the
    element loop, so the loop over the listing ends only on an empty read. *)
Fixpoint renameDirectoryFallback (fuel : nat) (srcSfs dstSfs : Mount)
    (srcPath dstPath : string) {struct fuel} : M W unit :=
  match fuel with
  | O => ret Diverge
  | S fuel' =>
      let each :=
        fix each (elements : list FileInfo) : M W unit :=
          match elements with
          | [] => ret (Ok tt)
          | element :: rest =>
              let recSrcPath := Join srcPath (Name element) in
              let recDstPath := Join dstPath (Name element) in
              _ <~ (if IsDir element
                    then renameDirectoryFallback fuel' srcSfs dstSfs recSrcPath recDstPath
                    else renameFileFallback fuel' srcSfs dstSfs recSrcPath recDstPath) ;;
              each rest
          end in
      let loop :=
        fix loop (rounds : nat) (subdirIter : ListerAt) (offset : Z) : M W unit :=
          match rounds with
          | O => ret Diverge
          | S rounds' =>
              lr <~ ret (subdirIter 5 offset) ;;
              let '(read, buffer, err) := lr in
              match err with
              | Some EOF | None =>
                  if (read =? 0)%Z then ret (Ok tt)
                  else if (read <? 0)%Z || (5 <? read)%Z then ret Panic
                  else
                    _ <~ each (firstn (Z.to_nat read) buffer) ;;
                    if (len64 buffer <? read)%Z then ret Panic
                    else loop rounds' subdirIter (add64 offset read)
              | Some e => ret (Err e)
              end
          end in
      _ <~ fsMkdir (ops dstSfs) dstPath ;;
      subdirIter <~ fsList (ops srcSfs) srcPath ;;
      _ <~ loop fuel' subdirIter 0%Z ;;
      fsRmdir (ops srcSfs) srcPath
  end.

Definition isRoot (path : string) : bool := String.eqb path "/".

Definition Rename (fuel : nat) (src dst : string) : M W unit :=
  if isRoot src || isRoot dst then ret (Err ErrPermission) else
  if String.eqb src dst then ret (Ok tt) else
  s <~ ret (Extract src) ;;
  let '(subSrc, srcSfs) := s in
  d <~ ret (Extract dst) ;;
  let '(subDst, dstSfs) := d in
  if isRoot subSrc || isRoot subDst then ret (Err ErrInvalid) else
  same <~ ret (sameFS srcSfs dstSfs) ;;
  if same then fsRename (ops srcSfs) subSrc subDst else
  match asOsDirFS srcSfs, asOsDirFS dstSfs with
  | Some srcDirFs, Some dstDirFs =>
      absSrc <~ ret (odIntoAbsPath srcDirFs subSrc) ;;
      absDst <~ ret (odIntoAbsPath dstDirFs subDst) ;;
      if negb (odCanWrite srcDirFs absSrc) || negb (odCanWrite dstDirFs absDst)
      then ret (Err ErrForbidden)
      else os_Rename absSrc absDst
  | _, _ =>
      srcStat <~ fsStat (ops srcSfs) subSrc ;;
      fun w =>
        let fallback :=
          if IsDir srcStat
          then renameDirectoryFallback fuel srcSfs dstSfs subSrc subDst
          else renameFileFallback fuel srcSfs dstSfs subSrc subDst in
        match fsStat (ops dstSfs) subDst w with
        | (Ok _, w') => (Err (ErrMsg "target path exists"), w')
        | (Err ErrNotExist, w') => fallback w'
        | (Err e, w') => (Err e, w')
        | (Panic, w') => (Panic, w')
        | (Diverge, w') => (Diverge, w')
        end
  end.

Definition Rmdir (path : string) : M W unit :=
  if isRoot path then ret (Err ErrPermission) else
  s <~ ret (Extract path) ;;
  let '(subpath, sfs) := s in
  if isRoot subpath then ret (Err ErrPermission) else
  fsRmdir (ops sfs) subpath.

Definition Rm (path : string) : M W unit :=
  if isRoot path then ret (Err ErrPermission) else
  s <~ ret (Extract path) ;;
  let '(subpath, sfs) := s in
  if isRoot subpath then ret (Err ErrPermission) else
  fsRm (ops sfs) subpath.

Definition Mkdir (path : string) : M W unit :=
  if isRoot path then ret (Err ErrPermission) else
  s <~ ret (Extract path) ;;
  let '(subpath, sfs) := s in
  if isRoot subpath then ret (Err ErrPermission) else
  fsMkdir (ops sfs) subpath.

(** [Link] and [Symlink] share their shape; [direct] is the operation of the
    mount, [host] the one of package os, [msg] the final error.  Both take
    the host path of [dst] from the source mount, as the source does. *)
Definition linkLike (direct : FS -> string -> string -> M W unit)
    (host : string -> string -> M W unit) (msg : string) (src dst : string) : M W unit :=
  if isRoot src || isRoot dst then ret (Err ErrPermission) else
  s <~ ret (Extract src) ;;
  let '(subSrc, srcSfs) := s in
  d <~ ret (Extract dst) ;;
  let '(subDst, dstSfs) := d in
  if isRoot subSrc || isRoot subDst then ret (Err ErrPermission) else
  same <~ ret (sameFS srcSfs dstSfs) ;;
  if same then direct (ops srcSfs) subSrc subDst else
  match asOsDirFS srcSfs, asOsDirFS dstSfs with
  | Some srcDirFs, Some dstDirFs =>
      absSrc <~ ret (odIntoAbsPath srcDirFs subSrc) ;;
      absDst <~ ret (odIntoAbsPath srcDirFs subDst) ;;
      if negb (odCanWrite srcDirFs absSrc) || negb (odCanWrite dstDirFs absDst)
      then ret (Err ErrForbidden)
      else host absSrc absDst
  | _, _ => ret (Err (ErrMsg msg))
  end.

Definition Link (src dst : string) : M W unit :=
  linkLike (fun fs => fsLink fs) os_Link "cannot link between different file systems" src dst.

Definition Symlink (src dst : string) : M W unit :=
  linkLike (fun fs => fsSymlink fs) os_Symlink
    "cannot symlink between different file systems" src dst.

End Union.

End UnionMount.

(** ** WebDAVAdapter *)

Module WebDAV.

(** The open flags of package os (Linux values; [O_RDONLY] is zero on every
    target). *)
Definition O_RDONLY : Z := 0.
Definition O_WRONLY : Z := 1.
Definition O_RDWR : Z := 2.
Definition O_CREATE : Z := 64.

Section Adapter.

Variable W : Type.
Variables ReaderAt WriterAt FileAttrFlags FileStat : Type.

Let FS := SimplifiedFS W ReaderAt WriterAt FileAttrFlags FileStat.

(** The three handle types, with the fields [OpenFile] sets (the lazily
    opened reader and writer and the cached stat start as nil). *)
Inductive webdavFile : Type :=
| webdavReadWriteFile (filename : string) (offset : Z)
| webdavWriteFile (filename : string) (offset : Z)
| webdavReadFile (filename : string) (inner : ReaderAt) (offset : Z).

Definition has (flag bit : Z) : bool := (Z.land flag bit =? bit)%Z.

Definition OpenFile (inner : FS) (name : string) (flag : Z) : M W webdavFile :=
  if (has flag O_CREATE || has flag O_WRONLY) && has flag O_RDONLY || has flag O_RDWR then
    ret (Ok (webdavReadWriteFile name 0))
  else if has flag O_CREATE || has flag O_WRONLY then
    ret (Ok (webdavWriteFile name 0))
  else
    reader <~ fsRead inner name ;;
    ret (Ok (webdavReadFile name reader 0)).

(** Whether a call of [OpenFile] produced the write-only handle. *)
Definition builtWriteFile (r : res webdavFile) : bool :=
  match r with
  | Ok (webdavWriteFile _ _) => true
  | _ => false
  end.

(** [Read] and [Readdir] of the write-only handle and [Write] of the
    read-only handle: the count or entries and the error. *)
Definition webdavWriteFile_Read (lenP : nat) : Z * option error := (0%Z, Some ErrPermission).

Definition webdavWriteFile_Readdir (count : Z) : list FileInfo * option error :=
  ([], Some ErrPermission).

Definition webdavReadFile_Write (lenP : nat) : Z * option error := (0%Z, Some ErrPermission).

End Adapter.

End WebDAV.

(** ** Server wiring: [ConfigSftp.CreateFS] *)

Module Server.
Import DirMount PermWrapper.

Record SFTPEntry : Type := mkSFTPEntry { entryRoot : string; entryReadOnly : bool }.

Record UserEntry : Type := mkUserEntry {
  AuthorizedKeys : list string;
  Filesystem : list (string * SFTPEntry);
  userCanRead : list string;
  userCanWrite : list string;
  userShouldHide : list string;
  WebDav : bool
}.

Record ConfigSftp : Type := mkConfigSftp {
  Users : list (string * UserEntry);
  WebDavPort : Z
}.

(** [m[key]] with its [ok] *)
Fixpoint lookup {A : Type} (m : list (string * A)) (key : string) : option A :=
  match m with
  | [] => None
  | (k, v) :: m' => if String.eqb k key then Some v else lookup m' key
  end.

(** The value [createFSWithoutPermission] builds: one [DirFs], or a
    [CombinedFS] of them. *)
Inductive BaseFS : Type :=
| ServeDir (d : DirFs)
| ServeCombined (fsMap : list (string * DirFs)).

Definition createFSWithoutPermission (userEntry : UserEntry) : BaseFS :=
  match lookup (Filesystem userEntry) "" with
  | Some entry => ServeDir (mkDirFs (entryRoot entry) (entryReadOnly entry))
  | None =>
      ServeCombined
        (map (fun pe => (fst pe, mkDirFs (entryRoot (snd pe)) (entryReadOnly (snd pe))))
             (Filesystem userEntry))
  end.

Section Wiring.

Variable W : Type.
Variables ReaderAt WriterAt FileAttrFlags FileStat : Type.

Let FS := SimplifiedFS W ReaderAt WriterAt FileAttrFlags FileStat.

(** [regexp.Compile] *)
Variable Compile : string -> res Regexp.
(** The [SimplifiedFS] methods of the value [createFSWithoutPermission]
    returns; they reach the host through package os. *)
Variable serve : BaseFS -> FS.

Fixpoint intoRegexp (array : list string) : res (list Regexp) :=
  match array with
  | [] => Ok []
  | exp :: array' =>
      rexp <- Compile exp ;;
      rest <- intoRegexp array' ;;
      Ok (rexp :: rest)
  end.

(** The filesystem a user is served: the bare one, or a permission wrapper
    around it. *)
Definition CreateFS (c : ConfigSftp) (username : string)
  : res (FS + PermWrapperFS W ReaderAt WriterAt FileAttrFlags FileStat) :=
  match lookup (Users c) username with
  | None => Err (ErrMsg ("user " ++ username ++ " has no config entry"))
  | Some userEntry =>
      let fs := serve (createFSWithoutPermission userEntry) in
      if (List.length (userShouldHide userEntry) =? 0)
         && (List.length (userCanRead userEntry) =? 0)
         && (List.length (userCanWrite userEntry) =? 0)
      then Ok (inl fs)
      else
        canReadRegexp <- intoRegexp (userCanRead userEntry) ;;
        canWriteRegexp <- intoRegexp (userCanWrite userEntry) ;;
        shouldHideRegexp <- intoRegexp (userShouldHide userEntry) ;;
        Ok (inr (mkPermWrapperFS fs canReadRegexp canWriteRegexp shouldHideRegexp))
  end.

End Wiring.

End Server.

(** ** DirMount: the operations on the host

    The methods of [DirFs] other than [IntoAbsPath] reach the host through
    package os.  [Host] collects the functions of package os they call; each
    acts on the world. *)

Module DirMountOps.
Import PathGuard DirMount.

(** [sftp.FileAttrFlags] and the fields of [sftp.FileStat] that [SetStat]
    reads. *)
Record FileAttrFlags : Type := mkFileAttrFlags {
  flagSize : bool;
  flagPermissions : bool;
  flagAcmodtime : bool;
  flagUidGid : bool
}.

Record FileStat : Type := mkFileStat {
  attrSize : Z;
  attrMode : Z;  (* the value of [attributes.FileMode()] *)
  attrUID : Z;
  attrGID : Z;
  attrAtime : Z;
  attrMtime : Z
}.

Section Host.

Variable W : Type.
Variables ReaderAt WriterAt : Type.

Record Host : Type := mkHost {
  os_Stat : string -> M W FileInfo;
  os_Lstat : string -> M W FileInfo;
  os_Readlink : string -> M W string;
  os_ReadDirInfos : string -> M W (list FileInfo);
  os_Open : string -> M W ReaderAt;
  os_OpenFile : string -> Z -> Z -> M W WriterAt;
  os_Truncate : string -> Z -> M W unit;
  os_Chmod : string -> Z -> M W unit;
  os_Chown : string -> Z -> Z -> M W unit;
  os_Chtimes : string -> Z -> Z -> M W unit;
  os_Rename : string -> string -> M W unit;
  os_Remove : string -> M W unit;
  os_Mkdir : string -> Z -> M W unit;
  os_Link : string -> string -> M W unit;
  os_Symlink : string -> string -> M W unit
}.

Variable h : Host.
Variable d : DirFs.

Definition statOfRoot : M W FileInfo :=
  stat <~ os_Stat h (Root d) ;;
  ret (Ok (renamedFileInfo stat "/")).

Definition List (path : string) : M W ListerAt :=
  DirMount.List (os_ReadDirInfos h) d path.

Definition Stat (path : string) : M W FileInfo :=
  if String.eqb path "/" then statOfRoot else
  abspath <~ ret (IntoAbsPath d path) ;;
  if negb (CanRead d abspath) then ret (Err ErrForbidden) else
  os_Stat h abspath.

Definition Lstat (path : string) : M W FileInfo :=
  if String.eqb path "/" then statOfRoot else
  abspath <~ ret (IntoAbsPath d path) ;;
  if negb (CanRead d abspath) then ret (Err ErrForbidden) else
  os_Lstat h abspath.

Definition ReadLink (path : string) : M W FileInfo :=
  if String.eqb path "/" then statOfRoot else
  abspath <~ ret (IntoAbsPath d path) ;;
  if negb (CanRead d abspath) then ret (Err ErrForbidden) else
  res <~ os_Readlink h abspath ;;
  if negb (CanRead d res) then ret (Err ErrForbidden) else
  os_Stat h res.

Definition Read (path : string) : M W ReaderAt :=
  abspath <~ ret (IntoAbsPath d path) ;;
  if negb (CanRead d abspath) then ret (Err ErrForbidden) else
  os_Open h abspath.

(** [os.O_WRONLY|os.O_CREATE] and the mode [0o644] *)
Definition Write (path : string) : M W WriterAt :=
  abspath <~ ret (IntoAbsPath d path) ;;
  if negb (CanWrite d abspath) then ret (Err ErrForbidden) else
  os_OpenFile h abspath (Z.lor WebDAV.O_WRONLY WebDAV.O_CREATE) 420.

(** [when flag { err := step; if err != nil { return err } }] *)
Definition whenFlag (flag : bool) (step : M W unit) (rest : M W unit) : M W unit :=
  if flag then _ <~ step ;; rest else rest.

Definition SetStat (path : string) (flags : FileAttrFlags) (attributes : FileStat)
  : M W unit :=
  abspath <~ ret (IntoAbsPath d path) ;;
  if negb (CanWrite d abspath) then ret (Err ErrForbidden) else
  whenFlag (flagSize flags) (os_Truncate h abspath (wrap64 (attrSize attributes)))
    (whenFlag (flagPermissions flags) (os_Chmod h abspath (attrMode attributes))
       (whenFlag (flagUidGid flags)
          (os_Chown h abspath (attrUID attributes) (attrGID attributes))
          (whenFlag (flagAcmodtime flags)
             (os_Chtimes h abspath (attrAtime attributes) (attrMtime attributes))
             (ret (Ok tt))))).

Definition Rename (src dst : string) : M W unit :=
  absSrc <~ ret (IntoAbsPath d src) ;;
  absDst <~ ret (IntoAbsPath d dst) ;;
  if negb (CanWrite d absSrc) || negb (CanWrite d absDst) then ret (Err ErrForbidden) else
  os_Rename h absSrc absDst.

Definition Rmdir (path : string) : M W unit :=
  abspath <~ ret (IntoAbsPath d path) ;;
  if negb (CanWrite d abspath) then ret (Err ErrForbidden) else
  stat <~ os_Stat h abspath ;;
  if negb (IsDir stat) then ret (Err (ErrMsg ("not a directory " ++ path)))
  else os_Remove h abspath.

Definition Rm (path : string) : M W unit :=
  abspath <~ ret (IntoAbsPath d path) ;;
  if negb (CanWrite d abspath) then ret (Err ErrForbidden) else
  stat <~ os_Stat h abspath ;;
  if IsDir stat then ret (Err (ErrMsg ("is a directory " ++ path)))
  else os_Remove h abspath.

(** The mode [0o755] *)
Definition Mkdir (path : string) : M W unit :=
  abspath <~ ret (IntoAbsPath d path) ;;
  if negb (CanWrite d abspath) then ret (Err ErrForbidden) else
  os_Mkdir h abspath 493.

Definition Link (src dst : string) : M W unit :=
  absSrc <~ ret (IntoAbsPath d src) ;;
  absDst <~ ret (IntoAbsPath d dst) ;;
  if negb (CanRead d absSrc) || negb (CanWrite d absDst) then ret (Err ErrForbidden) else
  os_Link h absSrc absDst.

Definition Symlink (src dst : string) : M W unit :=
  absSrc <~ ret (IntoAbsPath d src) ;;
  absDst <~ ret (IntoAbsPath d dst) ;;
  if negb (CanRead d absSrc) || negb (CanWrite d absDst) then ret (Err ErrForbidden) else
  os_Symlink h absSrc absDst.

(** [DirFs] as a [SimplifiedFS]. *)
Definition asFS : SimplifiedFS W ReaderAt WriterAt FileAttrFlags FileStat :=
  mkSimplifiedFS List Lstat Stat ReadLink Read Write SetStat Rename Rmdir Rm Mkdir
    Link Symlink.

End Host.

(** The host behind a fence: a call on a path that does not begin with
    [root] panics instead of reaching [h]. *)
Definition fence {W ReaderAt WriterAt : Type} (root : string)
    (h : Host W ReaderAt WriterAt) : Host W ReaderAt WriterAt :=
  let on1 {A : Type} (f : string -> A) (out : A) (p : string) : A :=
    if String.prefix root p then f p else out in
  let on2 {A : Type} (f : string -> string -> A) (out : A) (p q : string) : A :=
    if String.prefix root p && String.prefix root q then f p q else out in
  mkHost
    (on1 (os_Stat h) (ret Panic))
    (on1 (os_Lstat h) (ret Panic))
    (on1 (os_Readlink h) (ret Panic))
    (on1 (os_ReadDirInfos h) (ret Panic))
    (on1 (os_Open h) (ret Panic))
    (on1 (os_OpenFile h) (fun _ _ => ret Panic))
    (on1 (os_Truncate h) (fun _ => ret Panic))
    (on1 (os_Chmod h) (fun _ => ret Panic))
    (on1 (os_Chown h) (fun _ _ => ret Panic))
    (on1 (os_Chtimes h) (fun _ _ => ret Panic))
    (on2 (os_Rename h) (ret Panic))
    (on1 (os_Remove h) (ret Panic))
    (on1 (os_Mkdir h) (fun _ => ret Panic))
    (on2 (os_Link h) (ret Panic))
    (on2 (os_Symlink h) (ret Panic)).

(** The outcome of a mutation that is refused after the paths in [checks]
    have gone through [IntoAbsPath], in that order: the first error or panic
    among them, and [ErrForbidden] when each of them gave a host path. *)
Fixpoint refusal {A : Type} (checks : list (res string)) : res A :=
  match checks with
  | [] => Err ErrForbidden
  | Ok _ :: rest => refusal rest
  | Err e :: _ => Err e
  | Panic :: _ => Panic
  | Diverge :: _ => Diverge
  end.

End DirMountOps.

(** ** UnionMount: the operations that resolve one path *)

Module UnionMountOps.
Import PathGuard UnionMount.

(** [filepath.Base], by the rules of its documentation: trailing slashes
    are dropped, the last element is returned; an empty path gives [.] and
    a path of slashes gives [/]. *)
Fixpoint stripTrailing (s : string) : string :=
  match s with
  | EmptyString => EmptyString
  | String c s' =>
      match stripTrailing s' with
      | EmptyString => if Ascii.eqb c slash then EmptyString else String c EmptyString
      | t => String c t
      end
  end.

Definition Base (path : string) : string :=
  if String.eqb path "" then "."
  else
    let element := last (split (stripTrailing path)) "" in
    if String.eqb element "" then "/" else element.

(** [topDirPath(name)], the [FileInfo] of a virtual directory: size 480,
    mode [0755|os.ModeDir], modified on 2022-03-20 UTC. *)
Definition topDirPath (name : string) : FileInfo :=
  mkFileInfo name 480 (Z.lor 493 (2 ^ 31)) 1647734400 true.

(** Whether a mount name is free of [/]. *)
Fixpoint noSlash (name : string) : bool :=
  match name with
  | EmptyString => true
  | String c name' => negb (Ascii.eqb c slash) && noSlash name'
  end.

(** What may follow a mount's name in a path: nothing, or a sub-path that
    begins with a slash. *)
Definition isRest (r : string) : Prop := r = "" \/ exists r' : string, r = String slash r'.

(** The names of the mounts are distinct (they are the keys of a Go map) and
    free of slashes. *)
Definition plainNames {Mount : Type} (c : CombinedFS Mount) : Prop :=
  NoDup (map fst (Dirs c)) /\ Forall (fun e => noSlash (fst e) = true) (Dirs c).

Section Union.

Variable W : Type.
Variables ReaderAt WriterAt FileAttrFlags FileStat : Type.
Variable Mount : Type.
Variable ops : Mount -> SimplifiedFS W ReaderAt WriterAt FileAttrFlags FileStat.
Variable c : CombinedFS Mount.

Definition statOfRoot : FileInfo := topDirPath "/".

(** [Stat] and [Lstat] share their shape; [inner] is the method of the
    mount. *)
Definition statLike
    (inner : SimplifiedFS W ReaderAt WriterAt FileAttrFlags FileStat -> string -> M W FileInfo)
    (path : string) : M W FileInfo :=
  if String.eqb path "/" then ret (Ok statOfRoot) else
  s <~ ret (Extract c path) ;;
  let '(subpath, sfs) := s in
  stat <~ inner (ops sfs) subpath ;;
  if String.eqb subpath "/" then ret (Ok (renamedFileInfo stat (Base path)))
  else ret (Ok stat).

Definition Stat (path : string) : M W FileInfo := statLike (fun fs => fsStat fs) path.

Definition Lstat (path : string) : M W FileInfo := statLike (fun fs => fsLstat fs) path.

Definition ReadLink (path : string) : M W FileInfo :=
  if String.eqb path "/" then ret (Ok statOfRoot) else
  s <~ ret (Extract c path) ;;
  let '(subpath, sfs) := s in
  fsReadLink (ops sfs) subpath.

(** What [Read] returns: the reader of a mount, or [errReader{err}], whose
    [ReadAt] returns 0 and [err]. *)
Inductive UnionReader : Type :=
| MountReader (reader : ReaderAt)
| errReader (err : error).

Definition Read (path : string) : M W UnionReader :=
  if String.eqb path "/" then ret (Ok (errReader (ErrMsg "is a directory"))) else
  s <~ ret (Extract c path) ;;
  let '(subpath, sfs) := s in
  reader <~ fsRead (ops sfs) subpath ;;
  ret (Ok (MountReader reader)).

Definition Write (path : string) : M W WriterAt :=
  if String.eqb path "/" then ret (Err ErrInvalid) else
  s <~ ret (Extract c path) ;;
  let '(subpath, sfs) := s in
  fsWrite (ops sfs) subpath.

Definition SetStat (path : string) (flags : FileAttrFlags) (attributes : FileStat)
  : M W unit :=
  if String.eqb path "/" then ret (Err ErrPermission) else
  s <~ ret (Extract c path) ;;
  let '(subpath, sfs) := s in
  fsSetStat (ops sfs) subpath flags attributes.

End Union.

End UnionMountOps.

(** ** EmptyFS *)

Module EmptyMount.
Import UnionMountOps.

Section Empty.

Variable W : Type.
Variables ReaderAt WriterAt FileAttrFlags FileStat : Type.

Definition rootFileInfo : FileInfo := topDirPath "/".

(** The lister [List] returns. *)
Definition emptyLister : ListerAt := fun _ _ => Ok (0%Z, [], Some EOF).

Definition statLike (path : string) : M W FileInfo :=
  if String.eqb path "/" then ret (Ok rootFileInfo) else ret (Err ErrInvalid).

Definition EmptyFS : SimplifiedFS W ReaderAt WriterAt FileAttrFlags FileStat :=
  mkSimplifiedFS
    (fun _ => ret (Ok emptyLister))
    statLike
    statLike
    statLike
    (fun _ => ret (Err ErrNotExist))
    (fun _ => ret (Err ErrPermission))
    (fun _ _ _ => ret (Err ErrPermission))
    (fun _ _ => ret (Err ErrPermission))
    (fun _ => ret (Err ErrPermission))
    (fun _ => ret (Err ErrPermission))
    (fun _ => ret (Err ErrPermission))
    (fun _ _ => ret (Err ErrPermission))
    (fun _ _ => ret (Err ErrPermission)).

End Empty.

End EmptyMount.

(** ** The SFTP handlers *)

Module SftpAdapter.
Import PathGuard.

(** [err.Error()] of the errors the handlers may log. *)
Definition errorText (e : error) : string :=
  match e with
  | ErrForbidden => "forbidden"
  | ErrPermission => "permission denied"
  | ErrInvalid => "invalid argument"
  | ErrNotExist => "file does not exist"
  | EOF => "EOF"
  | ErrUnexpectedEOF => "unexpected EOF"
  | ErrMsg msg => msg
  end.

(** [err == ErrForbidden] *)
Definition isErrForbidden (e : error) : bool :=
  match e with
  | ErrForbidden => true
  | _ => false
  end.

(** What [ListAt] of the value a list request returns does: [listenerF]
    calls the function it wraps, [singleFileInfo] delivers its one entry. *)
Inductive SftpLister : Type :=
| listenerF (l : ListerAt)
| singleFileInfo (info : FileInfo).

Definition ListAt (l : SftpLister) (lenLs : nat) (offset : Z) : res ListAtResult :=
  match l with
  | listenerF f => f lenLs offset
  | singleFileInfo info =>
      if (offset >? 0)%Z then Ok (0%Z, [], Some EOF)
      else if lenLs =? 0 then Ok (0%Z, [], Some (ErrMsg "ls is empty"))
      else Ok (1%Z, [info], None)
  end.

Section Handlers.

Variable W : Type.
Variables ReaderAt WriterAt FileAttrFlags FileStat : Type.
Variable ConnectionInfo : Type.

(** The fields of [gosftp.Request] the handlers read. *)
Record Request : Type := mkRequest {
  Method : string;
  Filepath : string;
  Target : string;
  AttrFlags : FileAttrFlags;
  Attributes : FileStat
}.

(** One call of [AccessLogger.NewAccess]. *)
Record Access : Type := mkAccess {
  accessInfo : ConnectionInfo;
  accessPath : string;
  accessKind : string;
  accessStatus : string
}.

(** The world of a handler: the world of the filesystem, the calls of the
    access logger and the calls [Err(category, msg)] of the logger. *)
Record Served : Type := mkServed {
  files : W;
  accesses : list Access;
  errors : list (string * string)
}.

(** [accessLogger] and [log] are interface values: [haveAccessLogger] and
    [haveLog] tell which of them is not nil. *)
Record wrapper : Type := mkWrapper {
  fs : SimplifiedFS W ReaderAt WriterAt FileAttrFlags FileStat;
  haveAccessLogger : bool;
  info : ConnectionInfo;
  haveLog : bool
}.

Variable w : wrapper.

Definition logAccess (path kind status : string) : M Served unit :=
  fun s =>
    if negb (haveAccessLogger w) then (Ok tt, s)
    else (Ok tt, mkServed (files s) (accesses s ++ [mkAccess (info w) path kind status])
                   (errors s)).

Definition logError (context : string) (err : error) : M Served unit :=
  fun s =>
    if negb (haveLog w) then (Ok tt, s)
    else (Ok tt, mkServed (files s) (accesses s)
                   (errors s ++ [("SimplifiedFS", (context ++ ": " ++ errorText err)%string)])).

(** A call of the filesystem from a handler. *)
Definition call {A : Type} (m : M W A) : M Served A :=
  fun s =>
    let '(r, files') := m (files s) in
    (r, mkServed files' (accesses s) (errors s)).

(** [v, err := m]: the error of a call as a value. *)
Definition try {A : Type} (m : M Served A) : M Served (A + error) :=
  fun s =>
    match m s with
    | (Ok a, s') => (Ok (inl a), s')
    | (Err e, s') => (Ok (inr e), s')
    | (Panic, s') => (Panic, s')
    | (Diverge, s') => (Diverge, s')
    end.

Definition filecmdCall (path : string) (r : Request) : M Served unit :=
  let twoPaths (op : string -> string -> M W unit) : M Served unit :=
    target <~ ret (normalizePath (Target r)) ;;
    call (op path target) in
  if String.eqb (Method r) "Setstat" then
    call (fsSetStat (fs w) path (AttrFlags r) (Attributes r))
  else if String.eqb (Method r) "Rename" then twoPaths (fsRename (fs w))
  else if String.eqb (Method r) "Rmdir" then call (fsRmdir (fs w) path)
  else if String.eqb (Method r) "Remove" then call (fsRm (fs w) path)
  else if String.eqb (Method r) "Mkdir" then call (fsMkdir (fs w) path)
  else if String.eqb (Method r) "Link" then twoPaths (fsLink (fs w))
  else if String.eqb (Method r) "Symlink" then twoPaths (fsSymlink (fs w))
  else ret (Err (ErrMsg ("unknow operation " ++ Method r))).

Definition fileListCall (path : string) (r : Request) : M Served SftpLister :=
  if String.eqb (Method r) "List" then
    listF <~ call (fsList (fs w) path) ;; ret (Ok (listenerF listF))
  else if String.eqb (Method r) "Lstat" then
    stat <~ call (fsLstat (fs w) path) ;; ret (Ok (singleFileInfo stat))
  else if String.eqb (Method r) "Stat" then
    stat <~ call (fsStat (fs w) path) ;; ret (Ok (singleFileInfo stat))
  else if String.eqb (Method r) "Readlink" then
    info <~ call (fsReadLink (fs w) path) ;; ret (Ok (singleFileInfo info))
  else ret (Err (ErrMsg ("unknown method " ++ Method r))).

(** The four handlers share their shape: normalise [r.Filepath], run the
    call, log the access by its error.  [Filecmd] returns in each branch,
    the others fall through to one return; the outcome is the same. *)
Definition handle {A : Type} (normalization context : string)
    (run : string -> Request -> M Served A) (r : Request) : M Served A :=
  p <~ try (ret (normalizePath (Filepath r))) ;;
  match p with
  | inr err =>
      _ <~ logAccess "" (Method r) "error" ;;
      _ <~ logError normalization err ;;
      ret (Err err)
  | inl path =>
      v <~ try (run path r) ;;
      match v with
      | inr err =>
          if isErrForbidden err then
            _ <~ logAccess path (Method r) "forbidden" ;;
            ret (Err err)
          else
            _ <~ logAccess path (Method r) "error" ;;
            _ <~ logError context err ;;
            ret (Err err)
      | inl a =>
          _ <~ logAccess path (Method r) "ok" ;;
          ret (Ok a)
      end
  end.

Definition Filecmd : Request -> M Served unit :=
  handle "Error during path normalization in Filecmd" "Error during the fileCmd call"
    filecmdCall.

Definition Fileread : Request -> M Served ReaderAt :=
  handle "Error during the path normlization in file read" "Error during Fileread"
    (fun path _ => call (fsRead (fs w) path)).

Definition Filewrite : Request -> M Served WriterAt :=
  handle "Error during the path normalization in file write" "Error during Filewrite"
    (fun path _ => call (fsWrite (fs w) path)).

Definition Filelist : Request -> M Served SftpLister :=
  handle "Error during path normalization in Filelist" "Error during Filelist call"
    fileListCall.

End Handlers.

(** The status the access log is to show for an outcome of a handler. *)
Definition statusOf {A : Type} (r : res A) : option string :=
  match r with
  | Ok _ => Some "ok"
  | Err ErrForbidden => Some "forbidden"
  | Err _ => Some "error"
  | Panic | Diverge => None
  end.

(** The path a handler logs for a request: the normalised path, and the
    empty path when [normalizePath] gives none. *)
Definition loggedPath {FileAttrFlags FileStat : Type}
    (r : Request FileAttrFlags FileStat) : string :=
  match normalizePath (Filepath r) with
  | Ok path => path
  | _ => ""
  end.

(** What one request leaves in the logs, for an outcome [out] of a handler
    that is not a panic: one more entry of the access logger, for the
    connection, the path [loggedPath], the method and the status of the
    outcome; the logger of errors is called once, under the tag
    [SimplifiedFS], when the status is [error] and a logger is set, and not
    at all otherwise. *)
Definition loggedOnce {W ReaderAt WriterAt FileAttrFlags FileStat ConnectionInfo A : Type}
    (w : wrapper W ReaderAt WriterAt FileAttrFlags FileStat ConnectionInfo)
    (r : Request FileAttrFlags FileStat)
    (s : Served W ConnectionInfo) (out : res A * Served W ConnectionInfo) : Prop :=
  forall status : string, statusOf (fst out) = Some status ->
    accesses (snd out) = accesses s ++ [mkAccess (info w) (loggedPath r) (Method r) status]
    /\ (status <> "error" -> errors (snd out) = errors s)
    /\ (status = "error" ->
        exists msg : string,
          errors (snd out)
          = errors s ++ (if haveLog w then [("SimplifiedFS", msg)] else [])).

(** A filesystem that panics on every path [ContainsValidDir] does not
    accept and is [inner] on the others. *)
Section ValidOnly.

Variable W : Type.
Variables ReaderAt WriterAt FileAttrFlags FileStat : Type.
Variable inner : SimplifiedFS W ReaderAt WriterAt FileAttrFlags FileStat.

Definition accepted (path : string) : bool :=
  match ContainsValidDir path with
  | Ok true => true
  | _ => false
  end.

Definition on1 {A : Type} (op : string -> M W A) (path : string) : M W A :=
  if accepted path then op path else ret Panic.

Definition on2 {A : Type} (op : string -> string -> M W A) (src dst : string) : M W A :=
  if accepted src && accepted dst then op src dst else ret Panic.

Definition validOnly : SimplifiedFS W ReaderAt WriterAt FileAttrFlags FileStat :=
  mkSimplifiedFS
    (on1 (fsList inner))
    (on1 (fsLstat inner))
    (on1 (fsStat inner))
    (on1 (fsReadLink inner))
    (on1 (fsRead inner))
    (on1 (fsWrite inner))
    (fun path flags attributes =>
       on1 (fun path => fsSetStat inner path flags attributes) path)
    (on2 (fsRename inner))
    (on1 (fsRmdir inner))
    (on1 (fsRm inner))
    (on1 (fsMkdir inner))
    (on2 (fsLink inner))
    (on2 (fsSymlink inner)).

End ValidOnly.

End SftpAdapter.

(** ** WebDAVAdapter: the methods of an open handle *)

Module WebDAVHandles.

(** [io.SeekStart], [io.SeekCurrent], [io.SeekEnd] *)
Definition SeekStart : Z := 0.
Definition SeekCurrent : Z := 1.
Definition SeekEnd : Z := 2.

(** [result[:n]] of a buffer of [lenLs] nil entries whose front the lister
    has overwritten with [entries]; [None] is an entry left nil. *)
Definition sliceTo (lenLs : nat) (entries : list FileInfo) (n : Z)
  : res (list (option FileInfo)) :=
  if (n <? 0)%Z || (Z.of_nat lenLs <? n)%Z then Panic
  else Ok (firstn (Z.to_nat n)
             (map Some entries ++ repeat None (lenLs - List.length entries))).

(** The loop of [Readdir(0)]: buffers of ten entries until the lister
    reports EOF. *)
Fixpoint readAll (fuel : nat) (lsf : ListerAt) (i : Z) (total : list (option FileInfo))
  : res (list (option FileInfo) * option error) :=
  match fuel with
  | O => Diverge
  | S fuel' =>
      r <- lsf 10 i ;;
      let '(n, entries, err) := r in
      match err with
      | Some EOF =>
          part <- sliceTo 10 entries n ;;
          Ok (total ++ part, None)
      | Some e => Ok ([], Some e)
      | None =>
          part <- sliceTo 10 entries n ;;
          readAll fuel' lsf (add64 i n) (total ++ part)
      end
  end.

Section Handles.

Variable W : Type.
Variables ReaderAt WriterAt FileAttrFlags FileStat : Type.
Variable fs : SimplifiedFS W ReaderAt WriterAt FileAttrFlags FileStat.

(** The fields of a handle that [Stat], [Seek] and [Readdir] use; the three
    handle types declare them alike and give the three methods the same
    bodies ([Readdir] of the write-only handle apart, which refuses). *)
Record File : Type := mkFile {
  filename : string;
  offset : Z;
  stat : option FileInfo
}.

(** A method of a handle acts on the handle and on the world. *)
Definition Stat : M (File * W) FileInfo :=
  fun s =>
    let '(f, w) := s in
    match stat f with
    | Some st => (Ok st, s)
    | None =>
        match fsStat fs (filename f) w with
        | (Ok st, w') => (Ok st, (mkFile (filename f) (offset f) (Some st), w'))
        | (Err e, w') => (Err e, (f, w'))
        | (Panic, w') => (Panic, (f, w'))
        | (Diverge, w') => (Diverge, (f, w'))
        end
    end.

(** [Seek] returns a position and an error. *)
Definition Seek (off whence : Z) : M (File * W) (Z * option error) :=
  fun s =>
    match Stat s with
    | (Ok st, (f, w)) =>
        let absOffset :=
          if (whence =? SeekStart)%Z then off
          else if (whence =? SeekCurrent)%Z then add64 (offset f) off
          else if (whence =? SeekEnd)%Z then sub64 (sub64 (Size st) 1) off
          else (-1)%Z in
        if (absOffset <? 0)%Z || (absOffset >=? Size st)%Z
        then (Ok (absOffset, Some ErrInvalid), (f, w))
        else (Ok (absOffset, None), (mkFile (filename f) absOffset (stat f), w))
    | (Err e, s') => (Ok (0%Z, Some e), s')
    | (Panic, s') => (Panic, s')
    | (Diverge, s') => (Diverge, s')
    end.

(** [Readdir] of the read-only and the read-write handle.  [make] of a
    buffer of [count] entries is taken to succeed. *)
Definition Readdir (fuel : nat) (count : Z)
  : M (File * W) (list (option FileInfo) * option error) :=
  fun s =>
    let '(f, w) := s in
    if (count <? 0)%Z then (Ok ([], Some ErrInvalid), s) else
    match fsList fs (filename f) w with
    | (Ok lsf, w') =>
        if (count =? 0)%Z then (readAll fuel lsf 0 [], (f, w'))
        else
          (r <- lsf (Z.to_nat count) 0%Z ;;
           let '(n, entries, err) := r in
           part <- sliceTo (Z.to_nat count) entries n ;;
           Ok (part, err),
           (f, w'))
    | (Err e, w') => (Ok ([], Some e), (f, w'))
    | (Panic, w') => (Panic, (f, w'))
    | (Diverge, w') => (Diverge, (f, w'))
    end.

End Handles.

End WebDAVHandles.

(** ** PathGuard: the elements of a path *)

Module PathElements.
Import PathGuard.

(** An element is plain when it is neither empty nor [.] nor [..]. *)
Definition plainElement (e : string) : bool :=
  negb (String.eqb e "" || String.eqb e "." || String.eqb e "..").

(** The path without its leading slash, if it has one. *)
Definition unroot (path : string) : string :=
  match path with
  | EmptyString => path
  | String c q => if Ascii.eqb c slash then q else path
  end.

(** The list without its last element when that is the empty string (the
    element after a trailing slash). *)
Definition dropLastEmpty (l : list string) : list string :=
  if String.eqb (last l "") "" then removelast l else l.

(** The elements of a path: what stands between its slashes, the leading
    slash and a trailing slash set aside. *)
Definition elements (path : string) : list string :=
  dropLastEmpty (split (unroot path)).

(** The element a string begins with, that element with the slash that
    ends it, and what follows that slash. *)
Fixpoint firstSeg (s : string) : string :=
  match s with
  | EmptyString => EmptyString
  | String c s' => if Ascii.eqb c slash then EmptyString else String c (firstSeg s')
  end.

Fixpoint uptoSlash (s : string) : string :=
  match s with
  | EmptyString => EmptyString
  | String c s' => if Ascii.eqb c slash then String c EmptyString else String c (uptoSlash s')
  end.

Fixpoint afterSeg (s : string) : option string :=
  match s with
  | EmptyString => None
  | String c s' => if Ascii.eqb c slash then Some s' else afterSeg s'
  end.

End PathElements.

(** ** Server: which keys are accepted *)

Module ServerKeys.
Import Server.

Section Keys.

(** [ssh.PublicKey], [ssh.ParseAuthorizedKey] (its first and its last
    result) and [gssh.KeysEqual]. *)
Variable PublicKey : Type.
Variable ParseAuthorizedKey : string -> res PublicKey.
Variable KeysEqual : PublicKey -> PublicKey -> bool.

(** The inner loop: the keys of one user, parsed in order. *)
Fixpoint parseKeys (keyStrings : list string) : res (list PublicKey) :=
  match keyStrings with
  | [] => Ok []
  | keyString :: rest =>
      allowed <- ParseAuthorizedKey keyString ;;
      keys <- parseKeys rest ;;
      Ok (allowed :: keys)
  end.

(** The outer loop: [keysPerUser], filled in the order [range c.Users]
    visits the users. *)
Fixpoint keysPerUserOf (users : list (string * UserEntry))
  : res (list (string * list PublicKey)) :=
  match users with
  | [] => Ok []
  | (username, entry) :: rest =>
      keys <- parseKeys (AuthorizedKeys entry) ;;
      keysPerUser <- keysPerUserOf rest ;;
      Ok ((username, keys) :: keysPerUser)
  end.

(** The closure [buildKeyValidationFunc] returns. *)
Definition validation (keysPerUser : list (string * list PublicKey))
    (username : string) (key : PublicKey) : bool :=
  match lookup keysPerUser username with
  | Some keys => existsb (fun publicKey => KeysEqual publicKey key) keys
  | None => false
  end.

Definition buildKeyValidationFunc (c : ConfigSftp) : res (string -> PublicKey -> bool) :=
  keysPerUser <- keysPerUserOf (Users c) ;;
  Ok (validation keysPerUser).

End Keys.

End ServerKeys.

(** ** Port forwarding over SSH

    [SSHConnectionHandler] keeps, for every port, a slice of pointers to
    listeners.  A pointer is a number, the listener it points to is found in
    [heap]; [next] is the pointer the next allocation returns.  The calls
    below run one at a time, as they do under [listenersMutex]. *)

Module PortForward.

Record sshConnectionListener : Type := mkListener {
  user : string;
  port : Z;
  isPending : bool
}.

Record SSHConnectionHandler : Type := mkHandler {
  listeners : Z -> option (list nat);
  heap : nat -> sshConnectionListener;
  next : nat
}.

Record localForwardChannelData : Type := mkData {
  DestAddr : string;
  DestPort : Z;
  OriginAddr : string;
  OriginPort : Z
}.

Inductive RejectionReason : Type :=
| Prohibited
| ConnectionFailed.

(** [listeners[:i] ++ listeners[i+1:]] for the first [i] that holds
    [listener]; the slice itself when none does. *)
Fixpoint without (listener : nat) (ls : list nat) : list nat :=
  match ls with
  | [] => []
  | connectionListener :: rest =>
      if connectionListener =? listener then rest
      else connectionListener :: without listener rest
  end.

Definition setSlice (s : SSHConnectionHandler) (key : Z) (ls : list nat)
  : SSHConnectionHandler :=
  mkHandler (fun k => if (k =? key)%Z then Some ls else listeners s k) (heap s) (next s).

Definition CreateListener (s : SSHConnectionHandler) (port0 : Z) (user0 : string)
  : nat * SSHConnectionHandler :=
  let listener := next s in
  let s1 := mkHandler (listeners s)
              (fun p => if p =? listener then mkListener user0 port0 true else heap s p)
              (S (next s)) in
  match listeners s port0 with
  | None => (listener, setSlice s1 port0 [listener])
  | Some ls => (listener, setSlice s1 port0 (ls ++ [listener]))
  end.

Definition removeListener (s : SSHConnectionHandler) (listener : nat)
  : SSHConnectionHandler :=
  let port0 := port (heap s listener) in
  match listeners s port0 with
  | None => s
  | Some ls =>
      if existsb (fun connectionListener => connectionListener =? listener) ls
      then setSlice s port0 (without listener ls)
      else s
  end.

(** The slice of a port, empty when the map has none. *)
Definition listenersOf (s : SSHConnectionHandler) (key : Z) : list nat :=
  match listeners s key with
  | Some ls => ls
  | None => []
  end.

(** Every pointer in a slice has been allocated. *)
Definition allocated (s : SSHConnectionHandler) : Prop :=
  forall (key : Z) (p : nat), In p (listenersOf s key) -> p < next s.

Section Handler.

Variable W : Type.

(** What [HandleTCPIP] acts on besides the handler: the data unmarshalled
    from the channel (or the text of the error), [newChan.Reject], the
    [select] of [haveNewChannel] on the listener a pointer names (its result
    is the text of the error, if any), the two methods of the logger it
    calls, and the formats [%v] and [%d]. *)
Record Channel : Type := mkChannel {
  Unmarshal : localForwardChannelData + string;
  Reject : RejectionReason -> string -> M W (option string);
  send : nat -> M W (option string);
  logInfo : string -> string -> M W unit;
  logErr : string -> string -> M W unit;
  showData : localForwardChannelData -> string;
  showPort : Z -> string
}.

Variable env : Channel.
(** [srv.LocalPortForwardingCallback], applied to the user of the context,
    and that user. *)
Variable callback : option (string -> string -> Z -> bool).
Variable ctxUser : string.

Definition State : Type := (SSHConnectionHandler * W)%type.

Definition run {A : Type} (m : M W A) : M State A :=
  fun st =>
    let '(r, w') := m (snd st) in
    (r, (fst st, w')).

(** [isPending] is false while the send is tried and true again on return. *)
Definition haveNewChannel (listener : nat) : M State (option string) :=
  fun st =>
    let '(r, w') := send env listener (snd st) in
    let s := fst st in
    let l := heap s listener in
    (r, (mkHandler (listeners s)
           (fun p => if p =? listener then mkListener (user l) (port l) true else heap s p)
           (next s),
         w')).

Definition reject (reason : RejectionReason) (msg : string) : M State unit :=
  e <~ run (Reject env reason msg) ;;
  match e with
  | Some text => run (logErr env "HandleTCPIP" text)
  | None => ret (Ok tt)
  end.

(** The loop over the listeners of the port: [inl firstListener] when it
    runs to its end, [inr tt] when the function returns from inside it. *)
Fixpoint offer (d : localForwardChannelData) (ls : list nat) (firstListener : option nat)
  : M State (option nat + unit) :=
  match ls with
  | [] => ret (Ok (inl firstListener))
  | listener :: rest =>
      fun st =>
        let l := heap (fst st) listener in
        if String.eqb (user l) ctxUser || String.eqb (user l) "" then
          let first := match firstListener with
                       | None => Some listener
                       | Some _ => firstListener
                       end in
          if isPending l then
            (e <~ haveNewChannel listener ;;
             match e with
             | Some text =>
                 _ <~ run (logErr env "SSHConnectionHandler" text) ;;
                 offer d rest first
             | None =>
                 _ <~ run (logInfo env "SSHConnectionHandler"
                             ("forwarded " ++ showData env d)) ;;
                 ret (Ok (inr tt))
             end) st
          else offer d rest first st
        else offer d rest firstListener st
  end.

Definition HandleTCPIP : M State unit :=
  match Unmarshal env with
  | inr text =>
      _ <~ run (logInfo env "HandleTCPIP"
                  ("forbid tcpip as we cannot unmarshal data: " ++ text)) ;;
      reject ConnectionFailed ("error parsing forward data: " ++ text)
  | inl d =>
      if match callback with
         | None => true
         | Some allow => negb (allow ctxUser (DestAddr d) (DestPort d))
         end
      then
        _ <~ run (logInfo env "HandleTCPIP" "forbid tcpip as srv port-warding was not set ") ;;
        reject Prohibited "port forwarding is disabled"
      else if negb (String.eqb (DestAddr d) "localhost")
              && negb (String.eqb (DestAddr d) "127.0.0.1")
      then
        _ <~ run (logInfo env "HandleTCPIP"
                    ("forbid tcpip because requested addr (" ++ DestAddr d
                     ++ ") ist not localhost")) ;;
        reject Prohibited ("destination " ++ DestAddr d ++ " host is not allowed")
      else
        fun st =>
          match listenersOf (fst st) (DestPort d) with
          | [] =>
              (_ <~ run (logInfo env "HandleTCPIP"
                           ("forbid tcpip as no listener was found for the port "
                            ++ showPort env (DestPort d))) ;;
               reject Prohibited
                 ("port " ++ showPort env (DestPort d) ++ " cannot be forwarded")) st
          | ls =>
              (r <~ offer d ls None ;;
               match r with
               | inr _ => ret (Ok tt)
               | inl None =>
                   _ <~ run (logInfo env "HandleTCPIP"
                               ("forbid tcpip as no listener was found for the user "
                                ++ ctxUser ++ " at port " ++ showPort env (DestPort d))) ;;
                   reject Prohibited
                     ("port " ++ showPort env (DestPort d) ++ " cannot be forwarded")
               | inl (Some firstListener) =>
                   e <~ haveNewChannel firstListener ;;
                   match e with
                   | Some text => run (logErr env "SSHConnectionHandler" text)
                   | None =>
                       run (logInfo env "SSHConnectionHandler"
                              ("forwarded " ++ showData env d))
                   end
               end) st
          end
  end.

(** Whether a request may be handed to [listener]: the callback allows the
    forward, the destination is this host, and the listener stands in the
    slice of the destination port for the user of the request or for every
    user. *)
Definition mayReceive (s : SSHConnectionHandler) (listener : nat) : bool :=
  match Unmarshal env with
  | inr _ => false
  | inl d =>
      match callback with
      | None => false
      | Some allow => allow ctxUser (DestAddr d) (DestPort d)
      end
      && (String.eqb (DestAddr d) "localhost" || String.eqb (DestAddr d) "127.0.0.1")
      && existsb (fun p => p =? listener) (listenersOf s (DestPort d))
      && (String.eqb (user (heap s listener)) ctxUser
          || String.eqb (user (heap s listener)) "")
  end.

(** The same channel with a [send] that panics on the listeners [ok]
    leaves out. *)
Definition onlyTo (ok : nat -> bool) : Channel :=
  mkChannel (Unmarshal env) (Reject env)
    (fun listener => if ok listener then send env listener else ret Panic)
    (logInfo env) (logErr env) (showData env) (showPort env).

End Handler.

End PortForward.

(** ** The access logger

    [stdAccessLogger] sends one text per call over its channel; the
    goroutine of [NewAccessLogger] writes each text, followed by a newline,
    to the writer.  Below, a call is the text it sends; [now] is the time
    of the call as [%s] prints it. *)

Module AccessLog.

(** The double quote character. *)
Definition quote : ascii := Ascii.ascii_of_nat 34.

(** [strings.ReplaceAll(e, q, qq)], with [q] the double quote and [qq] two
    of them. *)
Fixpoint escape (e : string) : string :=
  match e with
  | EmptyString => EmptyString
  | String c e' =>
      if Ascii.eqb c quote then String quote (String quote (escape e'))
      else String c (escape e')
  end.

(** [fmt.Sprintf] with a format that puts [%s] between two double quotes *)
Definition quoted (text : string) : string := String quote (text ++ String quote "").

Definition printStrings (now : string) (entries : list string) : string :=
  String.concat "," (quoted now :: map (fun e => quoted (escape e)) entries).

Record ConnectionInfo : Type := mkConnectionInfo {
  IP : string;
  Username : string
}.

Record entry : Type := mkEntry {
  logType : string;
  connectionInfo : ConnectionInfo;
  path : string;
  kind : string;
  status : string
}.

Definition printEntry (now : string) (e : entry) : string :=
  printStrings now [logType e; IP (connectionInfo e); Username (connectionInfo e);
                    path e; kind e; status e].

Definition NewLogin (now : string) (connection : ConnectionInfo) (status0 : string) : string :=
  printEntry now (mkEntry "login" connection "" "" status0).

Definition Logout (now : string) (connection : ConnectionInfo) : string :=
  printEntry now (mkEntry "logout" connection "" "" "").

Definition NewAccess (now : string) (connection : ConnectionInfo)
    (path0 kind0 status0 : string) : string :=
  printEntry now (mkEntry "access" connection path0 kind0 status0).

(** Whether a text holds no double quote. *)
Fixpoint noQuote (text : string) : bool :=
  match text with
  | EmptyString => true
  | String c text' => negb (Ascii.eqb c quote) && noQuote text'
  end.

(** A reader of the records [printStrings] writes: fields between double
    quotes, separated by commas, a double quote inside a field written
    twice.  [inField] reads on inside a field; [cur] is what it has read of
    the field, [done] the fields before it. *)
Fixpoint inField (text : string) (cur : string) (done : list string)
  : option (list string) :=
  match text with
  | EmptyString => None
  | String c text' =>
      if Ascii.eqb c quote then
        match text' with
        | EmptyString => Some (done ++ [cur])
        | String d text'' =>
            if Ascii.eqb d quote then inField text'' (cur ++ String quote "") done
            else if Ascii.eqb d ","%char then
              match text'' with
              | EmptyString => None
              | String q text3 =>
                  if Ascii.eqb q quote then inField text3 "" (done ++ [cur]) else None
              end
            else None
        end
      else inField text' (cur ++ String c "") done
  end.

Definition readRecord (text : string) : option (list string) :=
  match text with
  | EmptyString => None
  | String q text' => if Ascii.eqb q quote then inField text' "" [] else None
  end.

End AccessLog.

(** ** The caller of a lister

    The contract of [List] leaves the offset to the caller: each call passes
    the number of entries received so far, starting at 0, and the caller
    stops at EOF.  [drain] is that caller for the lister of the permission
    wrapper; the [n]-th call uses a buffer of the [n]-th size in [sizes].
    The result is the entries received, in order, and whether EOF was seen
    ([false]: the sizes ran out first). *)

Module Caller.
Import PermWrapper.

Fixpoint drain (fuel : nat) (l : PermLister) (sizes : list nat) (offset : Z)
  : res (list FileInfo * bool) :=
  match sizes with
  | [] => Ok ([], false)
  | lenLs :: sizes' =>
      match listAt fuel l lenLs offset with
      | (Ok (n, entries, None), l') =>
          rest <- drain fuel l' sizes' (add64 offset n) ;;
          Ok (entries ++ fst rest, snd rest)
      | (Ok (n, entries, Some EOF), _) => Ok (entries, true)
      | (Ok (_, _, Some e), _) => Err e
      | (Err e, _) => Err e
      | (Panic, _) => Panic
      | (Diverge, _) => Diverge
      end
  end.

(** The entries of a listing of [path] the wrapper lets through: those
    whose full path, the listed directory joined with the entry's name, is
    not hidden. *)
Definition visible (ShouldHide : string -> bool) (path : string)
    (fileinfos : list FileInfo) : list FileInfo :=
  filter (fun info => negb (ShouldHide (PathGuard.Join path (Name info)))) fileinfos.

End Caller.

(** ** What a refusal is

    The statements below say of a wrapper (or of any implementation of the
    same operations) that it refuses: the call returns [ErrForbidden] and
    the world after the call is the world before it. *)

Module Refusal.
Import PermWrapper.

Section Refusal.

Variable W : Type.
Variables ReaderAt WriterAt FileAttrFlags FileStat : Type.

Let PW := PermWrapperFS W ReaderAt WriterAt FileAttrFlags FileStat.

(** Every operation of the wrapper on [path] (and the two-path operations
    with [path] on either side) returns [ErrForbidden] and leaves the world
    as it was. *)
Definition refusesEverything (p : PW) (path : string) : Prop :=
  forall (other : string) (flags : FileAttrFlags) (attributes : FileStat) (w : W),
    List p path w = (Err ErrForbidden, w) /\
    Stat p path w = (Err ErrForbidden, w) /\
    Lstat p path w = (Err ErrForbidden, w) /\
    ReadLink p path w = (Err ErrForbidden, w) /\
    Read p path w = (Err ErrForbidden, w) /\
    Write p path w = (Err ErrForbidden, w) /\
    SetStat p path flags attributes w = (Err ErrForbidden, w) /\
    Rmdir p path w = (Err ErrForbidden, w) /\
    Rm p path w = (Err ErrForbidden, w) /\
    Mkdir p path w = (Err ErrForbidden, w) /\
    Rename p path other w = (Err ErrForbidden, w) /\
    Rename p other path w = (Err ErrForbidden, w) /\
    Link p path other w = (Err ErrForbidden, w) /\
    Link p other path w = (Err ErrForbidden, w) /\
    Symlink p path other w = (Err ErrForbidden, w) /\
    Symlink p other path w = (Err ErrForbidden, w).

(** The read operations of the wrapper on [path] return [ErrForbidden] and
    leave the world as it was. *)
Definition refusesReading (p : PW) (path : string) : Prop :=
  forall (w : W),
    List p path w = (Err ErrForbidden, w) /\
    Stat p path w = (Err ErrForbidden, w) /\
    Lstat p path w = (Err ErrForbidden, w) /\
    ReadLink p path w = (Err ErrForbidden, w) /\
    Read p path w = (Err ErrForbidden, w).

(** The write operations of the wrapper on [path]. *)
Definition refusesWriting (p : PW) (path : string) : Prop :=
  forall (other : string) (flags : FileAttrFlags) (attributes : FileStat) (w : W),
    Write p path w = (Err ErrForbidden, w) /\
    SetStat p path flags attributes w = (Err ErrForbidden, w) /\
    Rmdir p path w = (Err ErrForbidden, w) /\
    Rm p path w = (Err ErrForbidden, w) /\
    Mkdir p path w = (Err ErrForbidden, w) /\
    Rename p path other w = (Err ErrForbidden, w) /\
    Rename p other path w = (Err ErrForbidden, w) /\
    Link p other path w = (Err ErrForbidden, w) /\
    Symlink p other path w = (Err ErrForbidden, w).

End Refusal.

End Refusal.

(** ** A recording filesystem

    An inner filesystem whose world is the list of the calls made to it:
    every operation appends its name.  It is used to observe whether a
    wrapper reaches its inner filesystem. *)

Module Recording.
Import PermWrapper.

Definition Calls : Type := list string.

Definition record {A : Type} (name : string) (r : res A) : M Calls A :=
  fun calls => (r, calls ++ [name]).

Definition someInfo : FileInfo := mkFileInfo "x" 0 0 0 false.

(** The recording filesystem whose every directory lists [fileinfos] and
    whose every path has the stat [info]. *)
Definition recordingDir (fileinfos : list FileInfo) (info : FileInfo)
  : SimplifiedFS Calls unit unit unit unit :=
  mkSimplifiedFS
    (fun _ => record "List" (Ok (DirMount.dirLister fileinfos)))
    (fun _ => record "Lstat" (Ok info))
    (fun _ => record "Stat" (Ok info))
    (fun _ => record "ReadLink" (Ok info))
    (fun _ => record "Read" (Ok tt))
    (fun _ => record "Write" (Ok tt))
    (fun _ _ _ => record "SetStat" (Ok tt))
    (fun _ _ => record "Rename" (Ok tt))
    (fun _ => record "Rmdir" (Ok tt))
    (fun _ => record "Rm" (Ok tt))
    (fun _ => record "Mkdir" (Ok tt))
    (fun _ _ => record "Link" (Ok tt))
    (fun _ _ => record "Symlink" (Ok tt)).

Definition recordingMount (info : FileInfo) : SimplifiedFS Calls unit unit unit unit :=
  recordingDir [] info.

Definition recordingFS : SimplifiedFS Calls unit unit unit unit := recordingMount someInfo.

(** Two expressions by what they match: everything, and the paths that
    begin with [/secret]. *)
Definition matchAll : Regexp := mkRegexp (fun _ => true).
Definition matchSecret : Regexp := mkRegexp (fun path => String.prefix "/secret" path).

(** A directory of five entries, two of them hidden by [matchSecret] when
    listed at [/], behind a wrapper that lets everything else through. *)
Definition file (name : string) (size : Z) : FileInfo := mkFileInfo name size 420 0 false.

Definition fiveEntries : list FileInfo :=
  [file "a" 1; file "secret" 2; file "b" 3; file "secrets.txt" 4; file "c" 5].

Definition hidingWrapper : PermWrapperFS Calls unit unit unit unit :=
  mkPermWrapperFS (recordingDir fiveEntries someInfo) [matchAll] [matchAll] [matchSecret].

(** A configuration with one user who has hide expressions only, a
    compiler that accepts every expression as [matchSecret], and the
    recording filesystem behind every served value. *)
Definition hideOnlyUser : Server.UserEntry :=
  Server.mkUserEntry [] [("docs", Server.mkSFTPEntry "/srv/a" true)] [] [] ["/secret(/.*)?"] false.

Definition hideOnlyConfig : Server.ConfigSftp := Server.mkConfigSftp [("u", hideOnlyUser)] 80.

Definition compileSecret : string -> res Regexp := fun _ => Ok matchSecret.

Definition serveRecording : Server.BaseFS -> SimplifiedFS Calls unit unit unit unit :=
  fun _ => recordingFS.

(** A union of two recording mounts, [docs] and [pics], as scenario S2 has
    it.  A mount is its number; the size of its root tells the two apart.
    No mount is a native directory and no logger is set. *)
Definition rootInfo (mount : nat) : FileInfo := mkFileInfo "/" (Z.of_nat mount) 493 0 true.

Definition twoMounts : UnionMount.CombinedFS nat :=
  UnionMount.mkCombinedFS [("pics", 2); ("docs", 1)] false.

Definition mountOps (mount : nat) : SimplifiedFS Calls unit unit unit unit :=
  recordingMount (rootInfo mount).

Definition sameMount (a b : nat) : res bool := Ok (a =? b).

Definition noOsDirFS (mount : nat) : option UnionMount.OsDirFS := None.

Definition hostOp (name : string) : string -> string -> M Calls unit :=
  fun _ _ => record name (Ok tt).

Definition readNothing : unit -> nat -> Z -> M Calls (list ascii * option error) :=
  fun _ _ _ => record "ReadAt" (Ok ([], Some EOF)).

Definition writeAll : unit -> list ascii -> Z -> M Calls (Z * option error) :=
  fun _ p _ => record "WriteAt" (Ok (len64 p, None)).

Definition renameTwoMounts : nat -> string -> string -> M Calls unit :=
  UnionMount.Rename readNothing writeAll mountOps sameMount noOsDirFS
    (hostOp "os.Rename") twoMounts.

End Recording.

(** ** A recording host

    A host whose world is the list of the calls of package os made on it,
    each noted with its path. *)

Module RecordingHost.
Import DirMountOps.

Definition note {A : Type} (op path : string) (r : res A) : M Recording.Calls A :=
  fun calls => (r, calls ++ [(op ++ " " ++ path)%string]).

Definition dirInfo : FileInfo := mkFileInfo "a" 0 493 0 true.

Definition host : Host Recording.Calls unit unit :=
  mkHost
    (fun p => note "Stat" p (Ok dirInfo))
    (fun p => note "Lstat" p (Ok dirInfo))
    (fun p => note "Readlink" p (Ok "/etc/passwd"))
    (fun p => note "ReadDir" p (Ok []))
    (fun p => note "Open" p (Ok tt))
    (fun p _ _ => note "OpenFile" p (Ok tt))
    (fun p _ => note "Truncate" p (Ok tt))
    (fun p _ => note "Chmod" p (Ok tt))
    (fun p _ _ => note "Chown" p (Ok tt))
    (fun p _ _ => note "Chtimes" p (Ok tt))
    (fun p q => note "Rename" (p ++ " " ++ q) (Ok tt))
    (fun p => note "Remove" p (Ok tt))
    (fun p _ => note "Mkdir" p (Ok tt))
    (fun p q => note "Link" (p ++ " " ++ q) (Ok tt))
    (fun p q => note "Symlink" (p ++ " " ++ q) (Ok tt)).

Definition readOnlyDocs : DirMount.DirFs := DirMount.mkDirFs "/srv/a" true.

End RecordingHost.

(** ** Mounts in memory

    The union reaches its mounts through the [SimplifiedFS] interface only.
    To say what a rename does to the files of two mounts, the mounts are
    given a store: each mount, named by a number, maps paths to regular
    files (their bytes) and directories.  The operations follow the
    interface comments and the contracts of [io.ReaderAt] and [io.WriterAt]:
    a handle reads and writes the file as it is at the time of the call,
    [Write] creates a missing file and does not truncate an existing one,
    a read that ends at the end of the file reports EOF. *)

Module Memory.
Import PathGuard.

Inductive Node : Type :=
| File (content : list ascii)
| Directory.

Definition Files : Type := list (string * Node).

Definition World : Type := nat -> Files.

(** A reader or writer: the mount and the path it was opened for. *)
Definition Handle : Type := (nat * string)%type.

Fixpoint find (files : Files) (path : string) : option Node :=
  match files with
  | [] => None
  | (k, node) :: files' => if String.eqb k path then Some node else find files' path
  end.

Definition remove (files : Files) (path : string) : Files :=
  filter (fun e => negb (String.eqb (fst e) path)) files.

Definition store (files : Files) (path : string) (node : Node) : Files :=
  (path, node) :: remove files path.

Definition setMount (w : World) (mount : nat) (files : Files) : World :=
  fun m => if m =? mount then files else w m.

Definition baseName (path : string) : string := last (split path) "".

Definition infoOf (path : string) (node : Node) : FileInfo :=
  match node with
  | File content => mkFileInfo (baseName path) (len64 content) 420 0 false
  | Directory => mkFileInfo (baseName path) 0 493 0 true
  end.

(** The entries directly below [dir]. *)
Definition children (files : Files) (dir : string) : list FileInfo :=
  flat_map (fun e =>
              if negb (String.eqb (fst e) dir)
                 && String.eqb (Join dir (baseName (fst e))) (fst e)
              then [infoOf (fst e) (snd e)] else [])
           files.

Definition zeroByte : ascii := Ascii.zero.

(** The bytes of a file after [p] is written at offset [off]. *)
Definition overwrite (content : list ascii) (off : nat) (p : list ascii) : list ascii :=
  firstn off content ++ repeat zeroByte (off - List.length content) ++ p
  ++ skipn (off + List.length p) content.

Definition memStat (mount : nat) (path : string) : M World FileInfo :=
  fun w =>
    match find (w mount) path with
    | Some node => (Ok (infoOf path node), w)
    | None => (Err ErrNotExist, w)
    end.

Definition memList (mount : nat) (path : string) : M World ListerAt :=
  fun w =>
    match find (w mount) path with
    | Some Directory => (Ok (DirMount.dirLister (children (w mount) path)), w)
    | Some (File _) => (Err (ErrMsg "not a directory"), w)
    | None => (Err ErrNotExist, w)
    end.

Definition memRead (mount : nat) (path : string) : M World Handle :=
  fun w =>
    match find (w mount) path with
    | Some (File _) => (Ok (mount, path), w)
    | Some Directory => (Err (ErrMsg "is a directory"), w)
    | None => (Err ErrNotExist, w)
    end.

Definition memWrite (mount : nat) (path : string) : M World Handle :=
  fun w =>
    match find (w mount) path with
    | Some (File _) => (Ok (mount, path), w)
    | Some Directory => (Err (ErrMsg "is a directory"), w)
    | None => (Ok (mount, path), setMount w mount (store (w mount) path (File [])))
    end.

Definition memReadAt (h : Handle) (lenP : nat) (off : Z)
  : M World (list ascii * option error) :=
  fun w =>
    match find (w (fst h)) (snd h) with
    | Some (File content) =>
        if (off <? 0)%Z then (Ok ([], Some (ErrMsg "negative offset")), w)
        else if (off >=? len64 content)%Z then (Ok ([], Some EOF), w)
        else
          let data := firstn lenP (skipn (Z.to_nat off) content) in
          (Ok (data, if List.length data <? lenP then Some EOF else None), w)
    | _ => (Ok ([], Some ErrNotExist), w)
    end.

Definition memWriteAt (h : Handle) (p : list ascii) (off : Z)
  : M World (Z * option error) :=
  fun w =>
    match find (w (fst h)) (snd h) with
    | Some (File content) =>
        if (off <? 0)%Z then (Ok (0%Z, Some (ErrMsg "negative offset")), w)
        else
          (Ok (len64 p, None),
           setMount w (fst h)
             (store (w (fst h)) (snd h) (File (overwrite content (Z.to_nat off) p))))
    | _ => (Ok (0%Z, Some ErrNotExist), w)
    end.

Definition memRm (mount : nat) (path : string) : M World unit :=
  fun w =>
    match find (w mount) path with
    | Some (File _) => (Ok tt, setMount w mount (remove (w mount) path))
    | Some Directory => (Err (ErrMsg "is a directory"), w)
    | None => (Err ErrNotExist, w)
    end.

Definition memRmdir (mount : nat) (path : string) : M World unit :=
  fun w =>
    match find (w mount) path with
    | Some Directory =>
        match children (w mount) path with
        | [] => (Ok tt, setMount w mount (remove (w mount) path))
        | _ => (Err (ErrMsg "directory not empty"), w)
        end
    | Some (File _) => (Err (ErrMsg "not a directory"), w)
    | None => (Err ErrNotExist, w)
    end.

Definition memMkdir (mount : nat) (path : string) : M World unit :=
  fun w =>
    match find (w mount) path with
    | Some _ => (Err (ErrMsg "file exists"), w)
    | None => (Ok tt, setMount w mount (store (w mount) path Directory))
    end.

Definition memRename (mount : nat) (src dst : string) : M World unit :=
  fun w =>
    match find (w mount) src with
    | Some node =>
        (Ok tt, setMount w mount (store (remove (w mount) src) dst node))
    | None => (Err ErrNotExist, w)
    end.

Definition memLink (mount : nat) (src dst : string) : M World unit :=
  fun w =>
    match find (w mount) src, find (w mount) dst with
    | Some node, None => (Ok tt, setMount w mount (store (w mount) dst node))
    | Some _, Some _ => (Err (ErrMsg "file exists"), w)
    | None, _ => (Err ErrNotExist, w)
    end.

Definition memFS (mount : nat) : SimplifiedFS World Handle Handle unit unit :=
  mkSimplifiedFS
    (memList mount)
    (memStat mount)
    (memStat mount)
    (fun _ => ret (Err ErrInvalid))
    (memRead mount)
    (memWrite mount)
    (fun path _ _ => _ <~ memStat mount path ;; ret (Ok tt))
    (memRename mount)
    (memRmdir mount)
    (memRm mount)
    (memMkdir mount)
    (memLink mount)
    (fun _ _ => ret (Err ErrInvalid)).

(** Go's [==] on two mounts in memory: the same mount or not. *)
Definition sameMount (a b : nat) : res bool := Ok (a =? b).

(** The type assertion when no mount is a native directory. *)
Definition notNative (mount : nat) : option UnionMount.OsDirFS := None.

Definition noHost : string -> string -> M World unit := fun _ _ => ret (Err ErrInvalid).

(** [CombinedFS.Rename] over mounts in memory; [asOsDirFS] tells which of
    them also are native directories. *)
Definition Rename (asOsDirFS : nat -> option UnionMount.OsDirFS)
    (c : UnionMount.CombinedFS nat) : nat -> string -> string -> M World unit :=
  UnionMount.Rename memReadAt memWriteAt memFS sameMount asOsDirFS noHost c.

(** Scenario S4: [/docs/x.txt] holds 1024 bytes, [/pics] is an empty mount. *)
Definition kilobyte : list ascii := repeat "x"%char 1024.

Definition docsAndPics : UnionMount.CombinedFS nat :=
  UnionMount.mkCombinedFS [("docs", 1); ("pics", 2)] false.

Definition scenarioS4 : World :=
  fun m => if m =? 1 then [("/", Directory); ("/x.txt", File kilobyte)]
           else if m =? 2 then [("/", Directory)]
           else [].

End Memory.

(** ** A union behind the permission wrapper

    [CreateFS] puts the permission wrapper around the union of a user's
    mounts, so at [/] the wrapper filters the root closure of the union.
    The closure calls [Stat] on the mounts; the mounts in memory answer
    without changing the world, so in a world [w] the closure is the lister
    [listerIn c w (RootLister topDirs)]. *)

Module WrappedUnion.
Import PermWrapper Memory.

(** The lister [CombinedFS.List] returned, called in the world [w]. *)
Definition listerIn (c : UnionMount.CombinedFS nat) (w : World)
    (l : UnionMount.UnionLister) : ListerAt :=
  fun lenFs offset => fst (UnionMount.listAt memFS c l lenFs offset w).

Definition List (c : UnionMount.CombinedFS nat) (path : string) : M World ListerAt :=
  l <~ UnionMount.List memFS c path ;;
  fun w => (Ok (listerIn c w l), w).

(** [CombinedFS] over mounts in memory as a [SimplifiedFS]; [copyFuel]
    bounds the copy loop of a rename across mounts. *)
Definition unionFS (copyFuel : nat) (c : UnionMount.CombinedFS nat)
  : SimplifiedFS World (UnionMountOps.UnionReader Handle) Handle unit unit :=
  mkSimplifiedFS
    (List c)
    (UnionMountOps.Lstat memFS c)
    (UnionMountOps.Stat memFS c)
    (UnionMountOps.ReadLink memFS c)
    (UnionMountOps.Read memFS c)
    (UnionMountOps.Write memFS c)
    (UnionMountOps.SetStat memFS c)
    (Memory.Rename notNative c copyFuel)
    (UnionMount.Rmdir memFS c)
    (UnionMount.Rm memFS c)
    (UnionMount.Mkdir memFS c)
    (UnionMount.Link memFS sameMount notNative noHost c)
    (UnionMount.Symlink memFS sameMount notNative noHost c).

(** The union of [docs] and [pics] behind the wrapper of a user whose
    expressions let every path be read and written and hide the paths that
    begin with [/secret]: neither mount is hidden. *)
Definition wrapped (copyFuel : nat)
  : PermWrapperFS World (UnionMountOps.UnionReader Handle) Handle unit unit :=
  mkPermWrapperFS (unionFS copyFuel docsAndPics)
    [Recording.matchAll] [Recording.matchAll] [Recording.matchSecret].

(** The entry of the root listing for the mount [name]: the stat of the
    mount's root under the mount's name. *)
Definition mountEntry (name : string) : FileInfo :=
  renamedFileInfo (infoOf "/" Directory) name.

End WrappedUnion.

(** ** Invariants

    What the proofs below keep track of while a loop of the source runs. *)

Module Invariants.
Import PermWrapper Caller Memory.

Section Listing.

Variable ShouldHide : string -> bool.
Variable path : string.
Variable fileinfos : list FileInfo.

(** The visible entries among the first [k] of the inner listing. *)
Definition seen (k : nat) : list FileInfo := visible ShouldHide path (firstn k fileinfos).

(** What the filtering closure knows after the first [R] entries of the
    inner listing have been classified: every recorded index is the index
    of a hidden entry, every hidden entry before [R] is recorded, and the
    counter is bounded by the length of the listing. *)
Record Known (R : nat) (st : FilterState) : Prop := mkKnown {
  known_sound : forall idx, In idx (idxToHide st) ->
      exists k x, idx = Z.of_nat k /\ nth_error fileinfos k = Some x
                  /\ hides ShouldHide path x = true;
  known_complete : forall k x, k < R -> nth_error fileinfos k = Some x ->
      hides ShouldHide path x = true -> In (Z.of_nat k) (idxToHide st);
  known_bound : (0 <= maxOffsetYet st <= Z.of_nat (List.length fileinfos))%Z
}.

End Listing.

Section Copy.

Variables (ms md : nat) (sp dp : string) (content : list ascii).

(** While the copy runs: the source file is whole, the destination holds
    its first [o] bytes. *)
Definition copying (o : nat) (w : World) : Prop :=
  find (w ms) sp = Some (File content)
  /\ find (w md) dp = Some (File (firstn o content)).

(** When the copy is done: both files hold the content, and the source
    mount is as it was in [w]. *)
Definition copied (w w' : World) : Prop :=
  find (w' ms) sp = Some (File content)
  /\ find (w' md) dp = Some (File content)
  /\ w' ms = w ms.

(** The world after the chunk at offset [o] has been written. *)
Definition afterChunk (o : nat) (w : World) : World :=
  setMount w md
    (store (w md) dp
       (File (overwrite (firstn o content) o
                (firstn UnionMount.copyBufferSize (skipn o content))))).

End Copy.

End Invariants.

(** * Properties *)

Unset Implicit Arguments.

(** ** Outcomes, integers and lists *)

Module Basics.

Lemma bind_Ok {A B : Type} (m : res A) (k : A -> res B) (b : B) :
  bind m k = Ok b -> exists a, m = Ok a /\ k a = Ok b.
Proof. destruct m; simpl; intros H; try discriminate. eauto. Qed.

Local Open Scope Z_scope.

Lemma wrap64_small (x : Z) : - 2 ^ 63 <= x < 2 ^ 63 -> wrap64 x = x.
Proof.
  intros H. unfold wrap64.
  rewrite Z.mod_small; lia.
Qed.

Lemma add64_nat (a b : nat) :
  Z.of_nat (a + b) < 2 ^ 63 -> add64 (Z.of_nat a) (Z.of_nat b) = Z.of_nat (a + b).
Proof.
  intros H. unfold add64. rewrite wrap64_small; lia.
Qed.

Local Close Scope Z_scope.

Lemma firstn_succ_nth {A : Type} (l : list A) (k : nat) (x : A) :
  nth_error l k = Some x -> firstn (S k) l = firstn k l ++ [x].
Proof.
  revert k. induction l as [|a l IH]; intros k H.
  - destruct k; discriminate.
  - destruct k as [|k]; simpl in *.
    + injection H as ->. reflexivity.
    + f_equal. apply IH. exact H.
Qed.

Lemma skipn_nth_cons {A : Type} (l : list A) (k : nat) (x : A) :
  nth_error l k = Some x -> skipn k l = x :: skipn (S k) l.
Proof.
  revert k. induction l as [|a l IH]; intros k H.
  - destruct k; discriminate.
  - destruct k as [|k]; simpl in *.
    + injection H as ->. reflexivity.
    + apply IH. exact H.
Qed.

Lemma nth_error_in_range {A : Type} (l : list A) (k : nat) :
  k < List.length l -> exists x, nth_error l k = Some x.
Proof.
  intros H. destruct (nth_error l k) eqn:E; [eauto|].
  apply nth_error_None in E. lia.
Qed.

Lemma skipn_cons_nth {A : Type} (l : list A) (k : nat) (x : A) (t : list A) :
  skipn k l = x :: t -> nth_error l k = Some x /\ skipn (S k) l = t.
Proof.
  revert k. induction l as [|a l IH]; intros k H.
  - destruct k; discriminate.
  - destruct k as [|k]; simpl in *.
    + injection H as -> ->. split; reflexivity.
    + apply IH. exact H.
Qed.

Lemma firstn_plus {A : Type} (l : list A) (a b : nat) :
  firstn (a + b) l = firstn a l ++ firstn b (skipn a l).
Proof.
  revert l. induction a as [|a IH]; intros l; [reflexivity|].
  destruct l as [|x l]; simpl.
  - rewrite firstn_nil. reflexivity.
  - f_equal. apply IH.
Qed.

End Basics.

(** ** PathGuard *)

Module PathGuardFacts.
Import PathGuard Basics.

Lemma index_in_range (path : string) (i : nat) :
  i < String.length path -> exists c, index path i = Ok c.
Proof.
  unfold index. revert i. induction path as [|a path IH]; simpl; intros i Hi.
  - lia.
  - destruct i as [|i]; [eauto|]. apply IH. lia.
Qed.

Lemma index_empty (i : nat) : index "" i = Panic.
Proof. destruct i; reflexivity. Qed.

(** More fuel does not change a finished run. *)
Lemma fastForward_mono (path : string) (n : nat) :
  forall fuel i r, fastForward fuel path n i = Ok r ->
  fastForward (S fuel) path n i = Ok r.
Proof.
  induction fuel as [|fuel IH]; intros i r H; [discriminate|].
  cbn [fastForward] in H |- *.
  destruct (i <? n); [|exact H].
  destruct (index path i) as [c| | |]; simpl in H |- *; try discriminate.
  destruct (Ascii.eqb c slash); [exact H|].
  apply IH in H. exact H.
Qed.

Lemma validFrom_S (fuel : nat) (path : string) (n i : nat) :
  validFrom (S fuel) path n i =
  if i <? n then
    c1 <- and_then (is_byte slash (index path i)) (Ok (0 <? i)) ;;
    if c1 then Ok false else
    c2 <- and_then (is_byte dot (index path i))
            (or_else (Ok (i + 1 =? n)) (is_byte slash (index path (i + 1)))) ;;
    if c2 then Ok false else
    c3 <- and_then (is_byte dot (index path i))
            (and_then (is_byte dot (index path (i + 1)))
               (or_else (Ok (i + 2 =? n)) (is_byte slash (index path (i + 2))))) ;;
    if c3 then Ok false else
    i' <- fastForward fuel path n (i + 1) ;;
    validFrom fuel path n i'
  else Ok true.
Proof. reflexivity. Qed.

Lemma validFrom_mono (path : string) (n : nat) :
  forall fuel i b, validFrom fuel path n i = Ok b ->
  validFrom (S fuel) path n i = Ok b.
Proof.
  induction fuel as [|fuel IH]; intros i b H; [discriminate|].
  rewrite validFrom_S in H. rewrite validFrom_S.
  destruct (i <? n); [|exact H].
  apply bind_Ok in H as [c1 [H1 H]]. rewrite H1. cbn [bind].
  destruct c1; [exact H|].
  apply bind_Ok in H as [c2 [H2 H]]. rewrite H2. cbn [bind].
  destruct c2; [exact H|].
  apply bind_Ok in H as [c3 [H3 H]]. rewrite H3. cbn [bind].
  destruct c3; [exact H|].
  apply bind_Ok in H as [i' [F H]].
  rewrite (fastForward_mono _ _ _ _ _ F). cbn [bind].
  apply IH. exact H.
Qed.

Lemma validFrom_more (path : string) (n : nat) (i : nat) (b : bool) :
  forall fuel fuel', fuel <= fuel' ->
  validFrom fuel path n i = Ok b -> validFrom fuel' path n i = Ok b.
Proof.
  intros fuel fuel' Hle H. induction Hle; [exact H|].
  apply validFrom_mono. assumption.
Qed.

(** The inner loop stops at a larger index that is still in range. *)
Lemma fastForward_ok (path : string) :
  forall fuel i, i <= String.length path -> String.length path - i < fuel ->
  exists i', fastForward fuel path (String.length path) i = Ok i'
             /\ i <= i' <= String.length path /\ (i < String.length path -> i < i').
Proof.
  induction fuel as [|fuel IH]; intros i Hi Hf; [lia|].
  cbn [fastForward].
  destruct (i <? String.length path) eqn:Elt.
  - apply Nat.ltb_lt in Elt.
    destruct (index_in_range path _ Elt) as [c Hc]. rewrite Hc. simpl.
    destruct (Ascii.eqb c slash).
    + exists (i + 1). split; [reflexivity|lia].
    + destruct (IH (i + 1)) as [i' [H1 [H2 H3]]]; try lia.
      exists i'. split; [exact H1|lia].
  - apply Nat.ltb_ge in Elt. exists i. split; [reflexivity|lia].
Qed.

(** The outer loop returns a boolean from any index in range: no read is
    out of bounds and the fuel is not exhausted. *)
Lemma validFrom_ok (path : string) :
  forall fuel i, i <= String.length path -> String.length path - i < fuel ->
  exists b, validFrom fuel path (String.length path) i = Ok b.
Proof.
  induction fuel as [|fuel IH]; intros i Hi Hf; [lia|].
  cbn [validFrom].
  destruct (i <? String.length path) eqn:Elt; [|eauto].
  apply Nat.ltb_lt in Elt.
  destruct (index_in_range path _ Elt) as [c Hc]. rewrite Hc.
  unfold and_then, or_else, is_byte. simpl.
  destruct (Ascii.eqb c slash && (0 <? i)) eqn:E1.
  { destruct (Ascii.eqb c slash); simpl in *; [rewrite E1|discriminate]; eauto. }
  assert (Hc1 : (x <- (if Ascii.eqb c slash then Ok (0 <? i) else Ok false) ;;
                 Ok x) = Ok false).
  { destruct (Ascii.eqb c slash); simpl in *; [rewrite E1|]; reflexivity. }
  destruct (Ascii.eqb c slash) eqn:Es; simpl in E1 |- *; rewrite ?E1; simpl.
  - (* a slash at index 0 cannot be met: the loop starts after it *)
    assert (Ascii.eqb c dot = false) as Ed.
    { apply Ascii.eqb_eq in Es. subst c. reflexivity. }
    rewrite Ed. simpl.
    destruct (fastForward_ok path fuel (i + 1)) as [i' [F [Hr _]]]; try lia.
    rewrite F. simpl. apply IH; lia.
  - destruct (Ascii.eqb c dot) eqn:Ed; simpl.
    + destruct (i + 1 =? String.length path) eqn:En; simpl; [eauto|].
      apply Nat.eqb_neq in En.
      assert (Hlt1 : i + 1 < String.length path) by lia.
      destruct (index_in_range path _ Hlt1) as [c' Hc']. rewrite Hc'. simpl.
      destruct (Ascii.eqb c' slash) eqn:Es'; simpl; [eauto|].
      destruct (Ascii.eqb c' dot) eqn:Ed'; simpl.
      * destruct (i + 2 =? String.length path) eqn:En2; simpl; [eauto|].
        apply Nat.eqb_neq in En2.
        assert (Hlt2 : i + 2 < String.length path) by lia.
        destruct (index_in_range path _ Hlt2) as [c'' Hc'']. rewrite Hc''. simpl.
        destruct (Ascii.eqb c'' slash); simpl; [eauto|].
        destruct (fastForward_ok path fuel (i + 1)) as [i' [F [Hr _]]]; try lia.
        rewrite F. simpl. apply IH; lia.
      * destruct (fastForward_ok path fuel (i + 1)) as [i' [F [Hr _]]]; try lia.
        rewrite F. simpl. apply IH; lia.
    + destruct (fastForward_ok path fuel (i + 1)) as [i' [F [Hr _]]]; try lia.
      rewrite F. simpl. apply IH; lia.
Qed.

(** On a non-empty string the validator returns one boolean for every fuel
    above the length of the string. *)
Lemma ContainsValidDirF_fuel (path : string) :
  0 < String.length path ->
  exists b, forall fuel, String.length path < fuel ->
            ContainsValidDirF fuel path = Ok b.
Proof.
  intros Hlen. unfold ContainsValidDirF.
  destruct (index_in_range path 0 Hlen) as [c Hc]. rewrite Hc. cbn [bind].
  set (i := if Ascii.eqb c slash then 1 else 0).
  assert (Hi : i <= String.length path) by (subst i; destruct (Ascii.eqb c slash); lia).
  destruct (validFrom_ok path (S (String.length path)) i Hi) as [b Hb]; [lia|].
  exists b. intros fuel Hfuel.
  apply (validFrom_more path (String.length path) i b (S (String.length path)) fuel);
    [lia|exact Hb].
Qed.

(** C10: [ContainsValidDir] returns a boolean on every non-empty string,
    whatever fuel above the length it is run with, and it panics exactly on
    the empty string, where it reads [path[0]]. *)
Theorem ContainsValidDir_panics_exactly_on_empty (path : string) :
  (String.length path = 0 -> forall fuel, ContainsValidDirF fuel path = Panic) /\
  (0 < String.length path ->
   exists b, forall fuel, String.length path < fuel ->
             ContainsValidDirF fuel path = Ok b) /\
  (ContainsValidDir path = Panic <-> path = "").
Proof.
  pose proof (ContainsValidDirF_fuel path) as Hne.
  split; [|split].
  - intros Hlen fuel. destruct path; [reflexivity|discriminate].
  - exact Hne.
  - split.
    + intros Hp. destruct path as [|a path]; [reflexivity|].
      destruct Hne as [b Hb]; [simpl; lia|].
      unfold ContainsValidDir in Hp. rewrite Hb in Hp; [discriminate|lia].
    + intros ->. reflexivity.
Qed.

Lemma ContainsValidDir_panics_exactly_on_empty_witness :
  (forall fuel, ContainsValidDirF fuel "" = Panic) /\
  (exists b, forall fuel, String.length "/a/.b" < fuel ->
             ContainsValidDirF fuel "/a/.b" = Ok b).
Proof.
  split.
  - apply (proj1 (ContainsValidDir_panics_exactly_on_empty "")). reflexivity.
  - apply (proj1 (proj2 (ContainsValidDir_panics_exactly_on_empty "/a/.b"))).
    simpl. lia.
Defined.

(** [normalizePath] never hands the empty string to the validator: a cleaned
    path is never empty. *)
Lemma Clean_not_empty (path : string) : Clean path <> "".
Proof.
  unfold Clean. destruct path as [|c path]; [discriminate|].
  match goal with |- (if String.eqb ?o "" then _ else _) <> _ => destruct (String.eqb o "") eqn:E end.
  - discriminate.
  - apply String.eqb_neq in E. exact E.
Qed.

Lemma normalizePath_never_panics (path : string) : normalizePath path <> Panic.
Proof.
  unfold normalizePath, ToSlash.
  pose proof (Clean_not_empty path) as Hc.
  destruct (String.eqb (Clean path) "") eqn:E.
  - vm_compute. discriminate.
  - destruct (Clean path) as [|a q] eqn:Eq; [congruence|].
    destruct (ContainsValidDirF_fuel (String a q)) as [b Hb]; [simpl; lia|].
    unfold ContainsValidDir. rewrite Hb; [|lia]. cbn [bind].
    destruct (negb b); discriminate.
Qed.

(** C5, as the code has it: [filepath.Clean] resolves [..] and [//] before
    the validator sees the path, so the first two inputs are accepted in
    their cleaned form; the dotted name is kept. *)
Theorem normalizePath_examples :
  normalizePath "/a/b/../c" = Ok "/a/c" /\
  normalizePath "/a//b" = Ok "/a/b" /\
  normalizePath "/a/.hidden/b" = Ok "/a/.hidden/b".
Proof. repeat split; vm_compute; reflexivity. Qed.

(** The four outcomes of scenario S1 do not hold together. *)
Lemma normalizePath_examples_not_as_specified :
  ~ ((exists e, normalizePath "/a/b/../c" = Err e) /\
     (exists e, normalizePath "/a//b" = Err e) /\
     normalizePath "/a/.hidden/b" = Ok "/a/.hidden/b" /\
     normalizePath "" = Ok "/").
Proof.
  intros [[e H] _]. vm_compute in H. discriminate.
Qed.

(** The empty input: the cleaned path is [.], which the validator rejects;
    the branch that would turn an empty path into [/] is never taken. *)
Lemma normalizePath_empty : normalizePath "" = Err (ErrMsg "wrong path").
Proof. vm_compute. reflexivity. Qed.

End PathGuardFacts.

(** ** DirMount *)

Module DirMountFacts.
Import PathGuard DirMount.

(** A host path that is returned begins with the root. *)
Lemma IntoAbsPath_begins_with_root (d : DirFs) (path realPath : string) :
  IntoAbsPath d path = Ok realPath -> String.prefix (Root d) realPath = true.
Proof.
  unfold IntoAbsPath.
  set (rp := if (Z.of_nat (String.length (ToSlash (Join (Root d) path))) =?
                 Z.of_nat (String.length (Root d)) - 1)%Z
             then (ToSlash (Join (Root d) path) ++ "/")%string
             else ToSlash (Join (Root d) path)).
  intros H. apply Basics.bind_Ok in H as [bad [Hbad H]].
  destruct bad; [discriminate|]. injection H as <-.
  unfold or_else in Hbad.
  apply Basics.bind_Ok in Hbad as [x [Hx Hbad]].
  destruct x; [discriminate|].
  apply Basics.bind_Ok in Hbad as [pre [Hpre Hbad]].
  injection Hbad as Hbad. apply negb_false_iff in Hbad. apply String.eqb_eq in Hbad.
  unfold slice_to in Hpre.
  destruct (String.length (Root d) <=? String.length rp); [|discriminate].
  injection Hpre as Hpre. apply prefix_correct. congruence.
Qed.

(** A joined path of sufficient length that fails the validator or does not
    begin with the root is refused with an error. *)
Lemma IntoAbsPath_refuses (d : DirFs) (path : string) :
  let joined := ToSlash (Join (Root d) path) in
  let realPath := if (Z.of_nat (String.length joined) =?
                      Z.of_nat (String.length (Root d)) - 1)%Z
                  then (joined ++ "/")%string else joined in
  String.length (Root d) <= String.length realPath ->
  ContainsValidDir realPath = Ok false \/
  (ContainsValidDir realPath = Ok true /\ String.prefix (Root d) realPath = false) ->
  IntoAbsPath d path = Err (ErrMsg "invalid path").
Proof.
  intros joined realPath Hlen H. unfold IntoAbsPath. fold joined. fold realPath.
  destruct H as [H | [H Hp]]; rewrite H; cbn [bind or_else negb]; [reflexivity|].
  unfold slice_to. apply Nat.leb_le in Hlen. rewrite Hlen. cbn [bind].
  destruct (String.eqb (substring 0 (String.length (Root d)) realPath) (Root d)) eqn:E.
  - apply String.eqb_eq in E. apply prefix_correct in E. congruence.
  - reflexivity.
Qed.

(** C1, where the code leaves the claim: the join of [/srv/data] and [/..]
    is [/srv], which passes the validator and is shorter than the root, so
    the slice [realPath[:len(d.Root)]] is out of range and the call panics
    instead of returning an error. *)
Theorem IntoAbsPath_panics_on_short_join :
  Join "/srv/data" "/.." = "/srv" /\
  ContainsValidDir "/srv" = Ok true /\
  IntoAbsPath (mkDirFs "/srv/data" false) "/.." = Panic.
Proof. repeat split; vm_compute; reflexivity. Qed.

End DirMountFacts.

(** ** PermissionWrapper: the permission checks *)

Module PermWrapperFacts.
Import PermWrapper Refusal.

Section Checks.

Variable W : Type.
Variables ReaderAt WriterAt FileAttrFlags FileStat : Type.

Let PW := PermWrapperFS W ReaderAt WriterAt FileAttrFlags FileStat.

Lemma anyMatch_nil (path : string) : anyMatch [] path = false.
Proof. reflexivity. Qed.

(** C2: a path that matches a [ShouldHide] expression is refused by every
    operation, whatever the read and write expressions say, for every inner
    filesystem and with the world untouched: the inner filesystem is not
    called. *)
Theorem hidden_path_refused_before_inner (p : PW) (path : string) :
  ShouldHide p path = true -> refusesEverything p path.
Proof.
  intros Hh other flags attributes w.
  unfold List, Stat, Lstat, ReadLink, Read, Write, SetStat, Rmdir, Rm, Mkdir,
    Rename, Link, Symlink, ret.
  rewrite Hh.
  destruct (CanRead p path), (CanWrite p path), (CanRead p other),
    (CanWrite p other), (ShouldHide p other);
    repeat split; reflexivity.
Qed.

End Checks.

(** The recording filesystem sees no call when a hidden path is asked for,
    though the read and write expressions match everything. *)
Lemma hidden_path_refused_before_inner_witness :
  refusesEverything
    (mkPermWrapperFS Recording.recordingFS [Recording.matchAll] [Recording.matchAll]
       [Recording.matchSecret])
    "/secret/key".
Proof.
  apply (hidden_path_refused_before_inner Recording.Calls unit unit unit unit
           (mkPermWrapperFS Recording.recordingFS [Recording.matchAll]
              [Recording.matchAll] [Recording.matchSecret])
           "/secret/key").
  reflexivity.
Defined.

End PermWrapperFacts.

(** ** Server wiring *)

Module ServerFacts.
Import PermWrapper Refusal Server.

Section Wiring.

Variable W : Type.
Variables ReaderAt WriterAt FileAttrFlags FileStat : Type.

Let FS := SimplifiedFS W ReaderAt WriterAt FileAttrFlags FileStat.
Let PW := PermWrapperFS W ReaderAt WriterAt FileAttrFlags FileStat.

Variable Compile : string -> res Regexp.
Variable serve : BaseFS -> FS.

Lemma empty_CanRead_refuses_reading (p : PW) (path : string) :
  CanReadRegexp p = [] -> refusesReading p path.
Proof.
  intros E w. unfold List, Stat, Lstat, ReadLink, Read, CanRead, ret. rewrite E.
  cbn [anyMatch existsb negb orb andb]. repeat split; reflexivity.
Qed.

Lemma empty_lists_refuse_writing (p : PW) (path : string) :
  CanReadRegexp p = [] -> CanWriteRegexp p = [] -> refusesWriting p path.
Proof.
  intros Er Ew other flags attributes w.
  unfold Write, SetStat, Rmdir, Rm, Mkdir, Rename, Link, Symlink, CanRead, CanWrite, ret.
  rewrite Er, Ew. cbn [anyMatch existsb negb orb andb]. repeat split; reflexivity.
Qed.

Lemma length_zero_nil {A : Type} (l : list A) : (List.length l =? 0) = true -> l = [].
Proof. destruct l; [reflexivity|discriminate]. Qed.

(** C9: with no read expression every read operation is refused on every
    path; [CreateFS] wraps the served filesystem as soon as one of the three
    lists of the user is non-empty; so a user with hide expressions only is
    served a wrapper that refuses every read and every write. *)
Theorem hide_only_user_can_do_nothing :
  (forall (p : PW) (path : string), CanReadRegexp p = [] -> refusesReading p path) /\
  (forall (c : ConfigSftp) (username : string) (userEntry : UserEntry)
          (rs ws hs : list Regexp),
      lookup (Users c) username = Some userEntry ->
      0 < List.length (userShouldHide userEntry) + List.length (userCanRead userEntry)
          + List.length (userCanWrite userEntry) ->
      intoRegexp Compile (userCanRead userEntry) = Ok rs ->
      intoRegexp Compile (userCanWrite userEntry) = Ok ws ->
      intoRegexp Compile (userShouldHide userEntry) = Ok hs ->
      CreateFS Compile serve c username =
        Ok (inr (mkPermWrapperFS (serve (createFSWithoutPermission userEntry)) rs ws hs))) /\
  (forall (c : ConfigSftp) (username : string) (userEntry : UserEntry)
          (hs : list Regexp),
      lookup (Users c) username = Some userEntry ->
      List.length (userCanRead userEntry) = 0 ->
      List.length (userCanWrite userEntry) = 0 ->
      0 < List.length (userShouldHide userEntry) ->
      intoRegexp Compile (userShouldHide userEntry) = Ok hs ->
      exists p : PW,
        CreateFS Compile serve c username = Ok (inr p) /\
        forall path : string, refusesReading p path /\ refusesWriting p path).
Proof.
  assert (Hwrap : forall (c : ConfigSftp) (username : string) (userEntry : UserEntry)
          (rs ws hs : list Regexp),
      lookup (Users c) username = Some userEntry ->
      0 < List.length (userShouldHide userEntry) + List.length (userCanRead userEntry)
          + List.length (userCanWrite userEntry) ->
      intoRegexp Compile (userCanRead userEntry) = Ok rs ->
      intoRegexp Compile (userCanWrite userEntry) = Ok ws ->
      intoRegexp Compile (userShouldHide userEntry) = Ok hs ->
      CreateFS Compile serve c username =
        Ok (inr (mkPermWrapperFS (serve (createFSWithoutPermission userEntry)) rs ws hs))).
  { intros c username userEntry rs ws hs Hu Hlen Hr Hw Hh.
    unfold CreateFS. rewrite Hu.
    destruct ((List.length (userShouldHide userEntry) =? 0)
              && (List.length (userCanRead userEntry) =? 0)
              && (List.length (userCanWrite userEntry) =? 0)) eqn:E.
    - apply andb_true_iff in E as [E E3]. apply andb_true_iff in E as [E1 E2].
      apply Nat.eqb_eq in E1, E2, E3. lia.
    - rewrite Hr, Hw, Hh. reflexivity. }
  split; [|split].
  - intros p path E. apply empty_CanRead_refuses_reading. exact E.
  - exact Hwrap.
  - intros c username userEntry hs Hu Hr Hw Hh Hc.
    destruct (userCanRead userEntry) as [|x xs] eqn:Er; [|discriminate].
    destruct (userCanWrite userEntry) as [|y ys] eqn:Ew; [|discriminate].
    eexists. split.
    + apply Hwrap with (userEntry := userEntry); try eassumption.
      * lia.
      * rewrite Er. reflexivity.
      * rewrite Ew. reflexivity.
    + intros path. split.
      * apply empty_CanRead_refuses_reading. reflexivity.
      * apply empty_lists_refuse_writing; reflexivity.
Qed.

End Wiring.

Lemma hide_only_user_can_do_nothing_witness :
  refusesReading
    (mkPermWrapperFS Recording.recordingFS [] [Recording.matchAll] []) "/docs/a.txt" /\
  CreateFS Recording.compileSecret Recording.serveRecording Recording.hideOnlyConfig "u" =
    Ok (inr (mkPermWrapperFS
               (Recording.serveRecording (createFSWithoutPermission Recording.hideOnlyUser))
               [] [] [Recording.matchSecret])) /\
  exists p : PermWrapperFS Recording.Calls unit unit unit unit,
    CreateFS Recording.compileSecret Recording.serveRecording Recording.hideOnlyConfig "u"
      = Ok (inr p) /\
    forall path : string, refusesReading p path /\ refusesWriting p path.
Proof.
  pose proof (hide_only_user_can_do_nothing Recording.Calls unit unit unit unit
                Recording.compileSecret Recording.serveRecording) as [H1 [H2 H3]].
  split; [|split].
  - apply H1. reflexivity.
  - apply (H2 Recording.hideOnlyConfig "u" Recording.hideOnlyUser [] []
              [Recording.matchSecret]).
    + reflexivity.
    + simpl. lia.
    + reflexivity.
    + reflexivity.
    + reflexivity.
  - apply (H3 Recording.hideOnlyConfig "u" Recording.hideOnlyUser [Recording.matchSecret]).
    + reflexivity.
    + reflexivity.
    + reflexivity.
    + simpl. lia.
    + reflexivity.
Defined.

End ServerFacts.

(** ** WebDAVAdapter *)

Module WebDAVFacts.
Import WebDAV.

Section Adapter.

Variable W : Type.
Variables ReaderAt WriterAt FileAttrFlags FileStat : Type.

Let FS := SimplifiedFS W ReaderAt WriterAt FileAttrFlags FileStat.

Lemma has_O_RDONLY (flag : Z) : has flag O_RDONLY = true.
Proof. unfold has, O_RDONLY. rewrite Z.land_0_r. reflexivity. Qed.

(** C8, where the code leaves the claim: the test [flag&O_RDONLY == O_RDONLY]
    holds of every flag, so every flag that asks for writing takes the first
    branch.  No flag makes [OpenFile] build the write-only handle; with
    [O_WRONLY] it builds the read-write one. *)
Theorem OpenFile_never_builds_write_only
    (inner : FS) (name : string) (flag : Z) (w : W) :
  builtWriteFile (fst (OpenFile inner name flag w)) = false /\
  fst (OpenFile inner name O_WRONLY w) = Ok (webdavReadWriteFile ReaderAt name 0).
Proof.
  split; [|reflexivity].
  unfold OpenFile. rewrite has_O_RDONLY, andb_true_r.
  destruct (has flag O_CREATE || has flag O_WRONLY) eqn:E; cbn [orb].
  - reflexivity.
  - destruct (has flag O_RDWR); [reflexivity|].
    unfold mbind. destruct (fsRead inner name w) as [[r| | |] w']; reflexivity.
Qed.

(** The handles refuse what the claim says they refuse. *)
Lemma handles_refuse :
  snd (webdavWriteFile_Read 10) = Some ErrPermission /\
  snd (webdavWriteFile_Readdir 0) = Some ErrPermission /\
  snd (webdavReadFile_Write 10) = Some ErrPermission.
Proof. repeat split. Qed.

End Adapter.

End WebDAVFacts.

(** ** PermissionWrapper: the filtered listing *)

Module FilterFacts.
Import PathGuard DirMount PermWrapper Caller Basics.

Lemma contains_In (array : list Z) (element : Z) :
  contains array element = true <-> In element array.
Proof.
  unfold contains. rewrite existsb_exists. split.
  - intros [x [Hin Hx]]. apply Z.eqb_eq in Hx. subst. exact Hin.
  - intros Hin. exists element. split; [exact Hin|apply Z.eqb_refl].
Qed.

Section Filter.

Variable ShouldHide : string -> bool.
Variable path : string.
Variable fileinfos : list FileInfo.

Hypothesis fits : (len64 fileinfos < 2 ^ 63)%Z.

Let N := List.length fileinfos.
Local Abbreviation hide := (hides ShouldHide path).
Local Abbreviation vis := (fun info : FileInfo => negb (hides ShouldHide path info)).
Let iter := dirLister fileinfos.

Local Abbreviation Known := (Invariants.Known ShouldHide path fileinfos).
Local Abbreviation seen := (Invariants.seen ShouldHide path fileinfos).

Lemma Known_weaken (R R' : nat) (st : FilterState) :
  R' <= R -> Known R st -> Known R' st.
Proof.
  intros Hle [Hs Hc Hb]. split; [exact Hs| |exact Hb].
  intros k x Hk. apply Hc. lia.
Qed.

Lemma Known_init : Known 0 (mkFilterState [] 0).
Proof.
  split; simpl.
  - intros idx [].
  - intros k x Hk. lia.
  - unfold N. lia.
Qed.

(** The inner lister on an offset in range. *)
Lemma dirLister_at (lenLs o : nat) :
  o < N ->
  let copied := firstn lenLs (skipn o fileinfos) in
  iter lenLs (Z.of_nat o) =
    Ok (Z.of_nat (List.length copied), copied,
        if List.length copied <? lenLs then Some EOF else None).
Proof.
  intros Ho copied. unfold iter, dirLister, len64. fold N.
  destruct (Z.of_nat o >=? Z.of_nat N)%Z eqn:E1; [lia|].
  destruct (Z.of_nat o <? 0)%Z eqn:E2; [lia|].
  rewrite Nat2Z.id. fold copied.
  destruct (List.length copied <? lenLs); reflexivity.
Qed.

Lemma dirLister_at_end (lenLs o : nat) :
  N <= o -> iter lenLs (Z.of_nat o) = Ok (0%Z, [], Some EOF).
Proof.
  intros Ho. unfold iter, dirLister, len64. fold N.
  destruct (Z.of_nat o >=? Z.of_nat N)%Z eqn:E1; [reflexivity|lia].
Qed.

Lemma dirLister_one (o : nat) (x : FileInfo) :
  nth_error fileinfos o = Some x ->
  iter 1 (Z.of_nat o) = Ok (1%Z, [x], None).
Proof.
  intros Hx.
  assert (Ho : o < N) by (apply nth_error_Some; congruence).
  rewrite dirLister_at by exact Ho.
  rewrite (skipn_nth_cons _ _ _ Hx). reflexivity.
Qed.

Lemma seen_succ (k : nat) (x : FileInfo) :
  nth_error fileinfos k = Some x ->
  seen (S k) = seen k ++ (if hide x then [] else [x]).
Proof.
  intros Hx. unfold Invariants.seen, visible. rewrite (firstn_succ_nth _ _ _ Hx), filter_app.
  simpl. unfold hides. destruct (ShouldHide (Join path (Name x))); reflexivity.
Qed.

Lemma seen_length_le (k : nat) : List.length (seen k) <= k.
Proof.
  unfold Invariants.seen, visible. etransitivity; [apply filter_length_le|].
  rewrite length_firstn. lia.
Qed.

Lemma seen_mono (a b : nat) : a <= b -> List.length (seen a) <= List.length (seen b).
Proof.
  intros H. induction H as [|b H IH]; [lia|].
  destruct (nth_error fileinfos b) as [x|] eqn:E.
  - rewrite (seen_succ _ _ E), length_app. lia.
  - apply nth_error_None in E. unfold Invariants.seen, visible in *.
    rewrite (firstn_all2 (n := S b) fileinfos) by lia.
    rewrite (firstn_all2 (n := b) fileinfos) in IH by lia. exact IH.
Qed.

Lemma N_fits : (Z.of_nat N < 2 ^ 63)%Z.
Proof. exact fits. Qed.

Lemma Known_record (R : nat) (st : FilterState) (k : nat) (x : FileInfo) (m : Z) :
  Known R st -> nth_error fileinfos k = Some x -> hide x = true ->
  (0 <= m <= Z.of_nat N)%Z ->
  Known R (mkFilterState (idxToHide st ++ [Z.of_nat k]) m).
Proof.
  intros [Hs Hc Hb] Hx Hh Hm. split; simpl.
  - intros idx Hin. apply in_app_or in Hin as [Hin | [<- | []]].
    + apply Hs. exact Hin.
    + exists k, x. auto.
  - intros k' x' Hk Hx' Hh'. apply in_or_app. left. eapply Hc; eassumption.
  - exact Hm.
Qed.

Lemma Known_counter (R : nat) (st : FilterState) (m : Z) :
  Known R st -> (0 <= m <= Z.of_nat N)%Z -> Known R (mkFilterState (idxToHide st) m).
Proof. intros [Hs Hc Hb] Hm. split; simpl; assumption. Qed.

(** The first loop, called with the number of entries delivered so far:
    it stops at an inner offset [P] before which exactly [offset] entries
    are visible, and keeps what is known. *)
Lemma skipLoop_positions (R offset : nat) :
  R <= N -> List.length (seen R) = offset ->
  forall (fuel ro : nat) (st : FilterState),
    Known R st -> ro <= R -> R - ro < fuel ->
    exists (P : nat) (st' : FilterState),
      skipLoop ShouldHide path iter fuel (Z.of_nat offset)
        (Z.of_nat (List.length (seen ro))) (Z.of_nat ro) st
        = (Positioned (Z.of_nat P), st')
      /\ Known R st' /\ P <= R /\ List.length (seen P) = offset.
Proof.
  intros HR Hoff. pose proof N_fits as HN.
  induction fuel as [|fuel IH]; intros ro st HK Hro Hfuel; [lia|].
  cbn [skipLoop].
  pose proof (seen_mono ro R Hro) as Hmono.
  pose proof (seen_length_le R) as HleR.
  destruct (Z.of_nat (List.length (seen ro)) <? Z.of_nat offset)%Z eqn:Elt.
  2:{ apply Z.ltb_ge in Elt. exists ro, st.
      split; [reflexivity|]. split; [exact HK|]. split; lia. }
  apply Z.ltb_lt in Elt.
  assert (Hlt : ro < R).
  { destruct (Nat.eq_dec ro R) as [->|]; lia. }
  destruct (nth_error_in_range fileinfos ro) as [x Hx]; [fold N; lia|].
  pose proof (seen_succ ro x Hx) as Hsucc.
  assert (Hstep : add64 (Z.of_nat ro) 1 = Z.of_nat (S ro)).
  { unfold add64. rewrite wrap64_small; lia. }
  assert (Hi1 : add64 (Z.of_nat (List.length (seen ro))) 1
                = Z.of_nat (S (List.length (seen ro)))).
  { unfold add64. rewrite wrap64_small; lia. }
  destruct HK as [Hs Hc Hb].
  destruct ((Z.of_nat (List.length (seen ro)) <? maxOffsetYet st)%Z
            && negb (contains (idxToHide st) (Z.of_nat ro))) eqn:E1.
  - (* known and not recorded: a visible entry *)
    apply andb_true_iff in E1 as [_ E1]. apply negb_true_iff in E1.
    assert (Hh : hide x = false).
    { destruct (hide x) eqn:Hh; [|reflexivity].
      assert (In (Z.of_nat ro) (idxToHide st)) as Hin by (eapply Hc; eassumption).
      apply contains_In in Hin. congruence. }
    rewrite Hh in Hsucc. rewrite Hi1, Hstep.
    replace (S (List.length (seen ro))) with (List.length (seen (S ro)))
      by (rewrite Hsucc, length_app; simpl; lia).
    apply IH; [split; assumption|lia|lia].
  - destruct (Z.of_nat (List.length (seen ro)) >=? maxOffsetYet st)%Z eqn:E2.
    + (* not known yet: probe the inner lister for one entry *)
      rewrite (dirLister_one ro x Hx). cbn [Z.eqb].
      assert (Hm : add64 (maxOffsetYet st) 1 = (maxOffsetYet st + 1)%Z).
      { unfold add64. rewrite wrap64_small; lia. }
      assert (Hmb : (0 <= maxOffsetYet st + 1 <= Z.of_nat N)%Z) by lia.
      destruct (hide x) eqn:Hh.
      * rewrite Hstep. cbn [idxToHide maxOffsetYet].
        replace (List.length (seen ro)) with (List.length (seen (S ro)))
          by (rewrite Hsucc, app_nil_r; reflexivity).
        apply IH; [|lia|lia].
        rewrite Hm. apply Known_record with (x := x); try assumption.
        split; assumption.
      * rewrite Hi1, Hstep.
        replace (S (List.length (seen ro))) with (List.length (seen (S ro)))
          by (rewrite Hsucc, length_app; simpl; lia).
        apply IH; [|lia|lia].
        rewrite Hm. apply Known_counter; [split; assumption|exact Hmb].
    + (* known and recorded: a hidden entry *)
      assert (E3 : contains (idxToHide st) (Z.of_nat ro) = true).
      { destruct (contains (idxToHide st) (Z.of_nat ro)); [reflexivity|].
        rewrite andb_true_r in E1. lia. }
      apply contains_In in E3. destruct (Hs _ E3) as [k [x' [Hk [Hx' Hh']]]].
      apply Nat2Z.inj in Hk. subst k. rewrite Hx in Hx'. injection Hx' as <-.
      rewrite Hh' in Hsucc. rewrite Hstep.
      replace (List.length (seen ro)) with (List.length (seen (S ro)))
        by (rewrite Hsucc, app_nil_r; reflexivity).
      apply IH; [split; assumption|lia|lia].
Qed.

Lemma Known_step_visible (R : nat) (st : FilterState) (x : FileInfo) :
  Known R st -> nth_error fileinfos R = Some x -> hide x = false -> Known (S R) st.
Proof.
  intros [Hs Hc Hb] Hx Hh. split; [exact Hs| |exact Hb].
  intros k x' Hk Hx' Hh'.
  destruct (Nat.eq_dec k R) as [->|Hne].
  - rewrite Hx in Hx'. injection Hx' as <-. congruence.
  - eapply Hc; try eassumption. lia.
Qed.

Lemma Known_step_hidden (R : nat) (st : FilterState) (x : FileInfo) :
  Known R st -> nth_error fileinfos R = Some x -> hide x = true ->
  Known (S R)
    (mkFilterState
       (if negb (contains (idxToHide st) (Z.of_nat R))
        then idxToHide st ++ [Z.of_nat R] else idxToHide st)
       (max (Z.of_nat R) (maxOffsetYet st))).
Proof.
  intros [Hs Hc Hb] Hx Hh.
  assert (HR : R < N) by (apply nth_error_Some; congruence).
  split; cbn [idxToHide maxOffsetYet].
  - intros idx Hin.
    destruct (negb (contains (idxToHide st) (Z.of_nat R))); [|apply Hs; exact Hin].
    apply in_app_or in Hin as [Hin | [<- | []]]; [apply Hs; exact Hin|].
    exists R, x. auto.
  - intros k x' Hk Hx' Hh'.
    destruct (contains (idxToHide st) (Z.of_nat R)) eqn:Ec; cbn [negb].
    + destruct (Nat.eq_dec k R) as [->|Hne].
      * apply contains_In. exact Ec.
      * eapply Hc; try eassumption. lia.
    + apply in_or_app. destruct (Nat.eq_dec k R) as [->|Hne].
      * right. left. reflexivity.
      * left. eapply Hc; try eassumption. lia.
  - unfold max. destruct (Z.of_nat R <? maxOffsetYet st)%Z; lia.
Qed.

(** The loop over one batch keeps the visible entries and records the
    hidden ones. *)
Lemma keepLoop_keeps (ro : nat) :
  forall (raw : list FileInfo) (i : nat) (ls : list FileInfo) (st : FilterState)
         (rest : list FileInfo),
    skipn (ro + i) fileinfos = raw ++ rest ->
    Known (ro + i) st ->
    exists st' : FilterState,
      keepLoop ShouldHide path raw (Z.of_nat (i + List.length raw)) (Z.of_nat i)
        (Z.of_nat ro) ls st
        = Some (ls ++ filter vis raw, st')
      /\ Known (ro + i + List.length raw) st'.
Proof.
  pose proof N_fits as HN.
  induction raw as [|x raw IH]; intros i ls st rest Hskip HK.
  - exists st. cbn [keepLoop List.length filter]. rewrite Nat.add_0_r, Z.ltb_irrefl.
    rewrite app_nil_r, Nat.add_0_r. split; [reflexivity|exact HK].
  - cbn [keepLoop].
    assert (Hlt : (Z.of_nat i <? Z.of_nat (i + List.length (x :: raw)))%Z = true).
    { apply Z.ltb_lt. cbn [List.length]. lia. }
    rewrite Hlt.
    simpl app in Hskip. apply skipn_cons_nth in Hskip as [Hx Hskip].
    assert (Hro : ro + i < N) by (apply nth_error_Some; congruence).
    assert (Hi1 : add64 (Z.of_nat i) 1 = Z.of_nat (S i)).
    { unfold add64. rewrite wrap64_small; lia. }
    assert (Hidx : add64 (Z.of_nat ro) (Z.of_nat i) = Z.of_nat (ro + i)).
    { unfold add64. rewrite wrap64_small; lia. }
    rewrite Hi1, Hidx.
    replace (i + List.length (x :: raw)) with (S i + List.length raw)
      by (cbn [List.length]; lia).
    replace (ro + i + List.length (x :: raw)) with (ro + S i + List.length raw)
      by (cbn [List.length]; lia).
    assert (Hf : filter vis (x :: raw)
                 = if hide x then filter vis raw else x :: filter vis raw).
    { cbn [filter]. destruct (hide x); reflexivity. }
    rewrite Hf.
    destruct (hide x) eqn:Hh; cbn [negb].
    + apply (IH (S i) ls _ rest).
      * replace (ro + S i) with (S (ro + i)) by lia. exact Hskip.
      * replace (ro + S i) with (S (ro + i)) by lia.
        apply Known_step_hidden with (x := x); assumption.
    + destruct (IH (S i) (ls ++ [x]) st rest) as [st' [Hk HK']].
      * replace (ro + S i) with (S (ro + i)) by lia. exact Hskip.
      * replace (ro + S i) with (S (ro + i)) by lia.
        apply Known_step_visible with (x := x); assumption.
      * exists st'. split; [|exact HK'].
        rewrite Hk. rewrite <- app_assoc. reflexivity.
Qed.

Lemma seen_batch (ro lenLs : nat) :
  let copied := firstn lenLs (skipn ro fileinfos) in
  seen (ro + List.length copied) = seen ro ++ filter vis copied.
Proof.
  intros copied. unfold Invariants.seen, visible. rewrite firstn_plus, filter_app. f_equal. f_equal.
  unfold copied. rewrite length_firstn.
  rewrite <- firstn_firstn, firstn_all. reflexivity.
Qed.

(** The second loop from an inner offset before which everything is known:
    it delivers the visible entries up to a new inner offset [R'], at least
    one unless it reports EOF, and EOF only at the end of the listing. *)
Lemma fillLoop_fills (lenLs : nat) :
  1 <= lenLs ->
  forall (fuel ro : nat) (st : FilterState),
    ro <= N -> Known ro st -> N - ro < fuel ->
    exists (R' : nat) (out : list FileInfo) (eof : bool) (st' : FilterState),
      fillLoop ShouldHide path iter fuel lenLs (Z.of_nat ro) st
        = (Ok (len64 out, out, if eof then Some EOF else None), st')
      /\ Known R' st' /\ ro <= R' <= N /\ seen R' = seen ro ++ out
      /\ (eof = true -> R' = N) /\ (eof = false -> out <> []).
Proof.
  intros Hlen. pose proof N_fits as HN.
  induction fuel as [|fuel IH]; intros ro st Hro HK Hfuel; [lia|].
  cbn [fillLoop].
  destruct (Nat.eq_dec ro N) as [Heq|Hne].
  - rewrite dirLister_at_end by lia.
    cbn [keepLoop]. rewrite Z.ltb_irrefl.
    exists ro, [], true, st. rewrite app_nil_r.
    split; [reflexivity|]. split; [exact HK|]. split; [lia|].
    split; [reflexivity|]. split; [intros _; exact Heq|discriminate].
  - rewrite dirLister_at by lia.
    set (copied := firstn lenLs (skipn ro fileinfos)).
    assert (Hcl : List.length copied = Nat.min lenLs (N - ro)).
    { unfold copied. rewrite length_firstn, length_skipn. reflexivity. }
    destruct (keepLoop_keeps ro copied 0 [] st (skipn lenLs (skipn ro fileinfos)))
      as [st' [Hk HK']].
    { rewrite Nat.add_0_r. unfold copied. symmetry. apply firstn_skipn. }
    { rewrite Nat.add_0_r. exact HK. }
    rewrite Nat.add_0_r in HK'. cbn [Nat.add app] in Hk.
    change (Z.of_nat 0) with 0%Z in Hk.
    pose proof (seen_batch ro lenLs) as Hbatch. cbv zeta in Hbatch. fold copied in Hbatch.
    destruct (List.length copied <? lenLs) eqn:Eeof.
    + apply Nat.ltb_lt in Eeof. rewrite Hk.
      exists (ro + List.length copied), (filter vis copied), true, st'.
      split; [reflexivity|]. split; [exact HK'|]. split; [lia|].
      split; [exact Hbatch|]. split; [intros _; lia|discriminate].
    + apply Nat.ltb_ge in Eeof. rewrite Hk.
      assert (Hadd : add64 (Z.of_nat ro) (Z.of_nat (List.length copied))
                     = Z.of_nat (ro + List.length copied)).
      { unfold add64. rewrite wrap64_small; lia. }
      destruct (filter vis copied) as [|y ys] eqn:Ef.
      * rewrite Hadd.
        destruct (IH (ro + List.length copied) st') as [R' [out [eof [st'' [Hf [HK'' [Hr [Hseen He]]]]]]]];
          [lia|exact HK'|lia|].
        exists R', out, eof, st''.
        split; [exact Hf|]. split; [exact HK''|]. split; [lia|].
        split; [|exact He].
        rewrite Hseen, Hbatch, app_nil_r. reflexivity.
      * exists (ro + List.length copied), (y :: ys), false, st'.
        split; [reflexivity|]. split; [exact HK'|]. split; [lia|].
        split; [exact Hbatch|]. split; [discriminate|intros _; discriminate].
Qed.

Lemma seen_same (P R : nat) :
  P <= R -> List.length (seen P) = List.length (seen R) -> seen P = seen R.
Proof.
  intros Hle Hlen. replace R with (P + (R - P)) in * by lia.
  unfold Invariants.seen, visible in *. rewrite firstn_plus, filter_app in *.
  rewrite length_app in Hlen.
  destruct (filter _ (firstn (R - P) (skipn P fileinfos))) as [|y ys].
  - rewrite app_nil_r. reflexivity.
  - simpl in Hlen. lia.
Qed.

Lemma seen_all : seen N = visible ShouldHide path fileinfos.
Proof. unfold Invariants.seen, visible, visible, N. rewrite firstn_all. reflexivity. Qed.

(** One call of the filtering closure with the number of entries delivered
    so far. *)
Lemma filteredListAt_delivers (lenLs R : nat) (st : FilterState) (fuel : nat) :
  1 <= lenLs -> R <= N -> Known R st -> N < fuel ->
  exists (R' : nat) (out : list FileInfo) (eof : bool) (st' : FilterState),
    filteredListAt ShouldHide path iter fuel lenLs
      (Z.of_nat (List.length (seen R))) st
      = (Ok (len64 out, out, if eof then Some EOF else None), st')
    /\ Known R' st' /\ R' <= N /\ seen R' = seen R ++ out
    /\ (eof = true -> R' = N) /\ (eof = false -> out <> []).
Proof.
  intros Hlen HR HK Hfuel. unfold filteredListAt.
  destruct (skipLoop_positions R (List.length (seen R)) HR eq_refl fuel 0 st HK)
    as [P [st1 [Hskip [HK1 [HP Hseen]]]]]; [lia|lia|].
  change (Z.of_nat (List.length (seen 0))) with 0%Z in Hskip.
  change (Z.of_nat 0) with 0%Z in Hskip.
  rewrite Hskip.
  destruct (fillLoop_fills lenLs Hlen fuel P st1)
    as [R' [out [eof [st' [Hfill [HK' [HR' [Hseen' He]]]]]]]];
    [lia|apply Known_weaken with (R := R); assumption|lia|].
  exists R', out, eof, st'.
  split; [exact Hfill|]. split; [exact HK'|]. split; [lia|].
  split; [|exact He].
  rewrite Hseen'. f_equal. apply seen_same; assumption.
Qed.

(** The caller's loop over the filtering closure. *)
Lemma drain_filtering (fuel : nat) :
  N < fuel ->
  forall (sizes : list nat) (R : nat) (st : FilterState),
    Forall (fun lenLs => 1 <= lenLs) sizes -> R <= N -> Known R st ->
    exists (out : list FileInfo) (eof : bool) (R' : nat),
      drain fuel (Filtering ShouldHide path iter st) sizes
        (Z.of_nat (List.length (seen R))) = Ok (out, eof)
      /\ R' <= N /\ seen R' = seen R ++ out
      /\ (eof = true -> R' = N)
      /\ (eof = false -> List.length sizes <= List.length out).
Proof.
  intros Hfuel. pose proof N_fits as HN.
  induction sizes as [|lenLs sizes IH]; intros R st Hsizes HR HK.
  - exists [], false, R. rewrite app_nil_r. cbn [drain List.length].
    split; [reflexivity|]. split; [exact HR|]. split; [reflexivity|].
    split; [discriminate|lia].
  - inversion Hsizes as [|? ? Hlen Hrest]; subst.
    destruct (filteredListAt_delivers lenLs R st fuel Hlen HR HK Hfuel)
      as [R1 [out1 [eof1 [st1 [Hcall [HK1 [HR1 [Hseen1 [He1 Hne1]]]]]]]]].
    cbn [drain listAt]. rewrite Hcall.
    destruct eof1.
    + exists out1, true, R1.
      split; [reflexivity|]. split; [exact HR1|]. split; [exact Hseen1|].
      split; [exact He1|discriminate].
    + assert (Hoff : add64 (Z.of_nat (List.length (seen R))) (len64 out1)
                     = Z.of_nat (List.length (seen R1))).
      { rewrite Hseen1, length_app. unfold add64, len64.
        pose proof (seen_length_le R1) as Hle. rewrite Hseen1, length_app in Hle.
        rewrite wrap64_small; lia. }
      rewrite Hoff.
      destruct (IH R1 st1 Hrest HR1 HK1)
        as [out2 [eof2 [R2 [Hd [HR2 [Hseen2 [He2 Hcount]]]]]]].
      rewrite Hd. cbn [bind fst snd].
      exists (out1 ++ out2), eof2, R2.
      split; [reflexivity|]. split; [exact HR2|].
      split; [rewrite Hseen2, Hseen1, app_assoc; reflexivity|].
      split; [exact He2|].
      intros He. specialize (Hcount He). specialize (Hne1 eq_refl).
      rewrite length_app. cbn [List.length].
      destruct out1; [congruence|]. cbn [List.length]. lia.
Qed.

(** The caller's loop over the inner lister itself. *)
Lemma drain_passthrough (fuel : nat) :
  forall (sizes : list nat) (o : nat),
    Forall (fun lenLs => 1 <= lenLs) sizes -> o <= N ->
    exists (out : list FileInfo) (eof : bool) (o' : nat),
      drain fuel (PassThrough iter) sizes (Z.of_nat o) = Ok (out, eof)
      /\ o' <= N /\ firstn o' fileinfos = firstn o fileinfos ++ out
      /\ (eof = true -> o' = N)
      /\ (eof = false -> List.length sizes <= List.length out).
Proof.
  pose proof N_fits as HN.
  induction sizes as [|lenLs sizes IH]; intros o Hsizes Ho.
  - exists [], false, o. rewrite app_nil_r. cbn [drain List.length].
    split; [reflexivity|]. split; [exact Ho|]. split; [reflexivity|].
    split; [discriminate|lia].
  - inversion Hsizes as [|? ? Hlen Hrest]; subst.
    cbn [drain listAt].
    destruct (Nat.eq_dec o N) as [Heq|Hne].
    + rewrite dirLister_at_end by lia.
      exists [], true, o. rewrite app_nil_r.
      split; [reflexivity|]. split; [exact Ho|]. split; [reflexivity|].
      split; [intros _; exact Heq|discriminate].
    + rewrite dirLister_at by lia.
      set (copied := firstn lenLs (skipn o fileinfos)).
      assert (Hcl : List.length copied = Nat.min lenLs (N - o)).
      { unfold copied. rewrite length_firstn, length_skipn. reflexivity. }
      assert (Hbatch : firstn (o + List.length copied) fileinfos
                       = firstn o fileinfos ++ copied).
      { rewrite firstn_plus. f_equal. unfold copied. rewrite length_firstn.
        rewrite <- firstn_firstn, firstn_all. reflexivity. }
      destruct (List.length copied <? lenLs) eqn:Eeof.
      * apply Nat.ltb_lt in Eeof.
        exists copied, true, (o + List.length copied).
        split; [reflexivity|]. split; [lia|]. split; [exact Hbatch|].
        split; [intros _; lia|discriminate].
      * apply Nat.ltb_ge in Eeof.
        assert (Hoff : add64 (Z.of_nat o) (Z.of_nat (List.length copied))
                       = Z.of_nat (o + List.length copied)).
        { unfold add64. rewrite wrap64_small; lia. }
        rewrite Hoff.
        destruct (IH (o + List.length copied) Hrest)
          as [out2 [eof2 [o2 [Hd [Ho2 [Hf2 [He2 Hcount]]]]]]]; [lia|].
        rewrite Hd. cbn [bind fst snd].
        exists (copied ++ out2), eof2, o2.
        split; [reflexivity|]. split; [exact Ho2|].
        split; [rewrite Hf2, Hbatch, app_assoc; reflexivity|].
        split; [exact He2|].
        intros He. specialize (Hcount He). rewrite length_app.
        cbn [List.length]. lia.
Qed.

End Filter.

Section Listing.

Variable W : Type.
Variables ReaderAt WriterAt FileAttrFlags FileStat : Type.

Let PW := PermWrapperFS W ReaderAt WriterAt FileAttrFlags FileStat.

Lemma visible_nothing_hidden (p : PW) (path : string) (l : list FileInfo) :
  List.length (ShouldHideRegexp p) = 0 -> visible (ShouldHide p) path l = l.
Proof.
  intros H. unfold visible, hides, ShouldHide.
  destruct (ShouldHideRegexp p); [|discriminate]. cbn [anyMatch existsb negb].
  induction l as [|x l IH]; [reflexivity|]. cbn [filter]. f_equal. exact IH.
Qed.

(** X27: over an inner listing [fileinfos] served by the lister of a native
    directory, the caller that passes the number of entries received so far
    gets, with buffers of any sizes from 1 up, the visible entries of a
    prefix of the inner listing, in order, where an entry is visible when
    no hide expression matches the listed path joined with its name; when
    EOF is reported it has got all visible entries, and EOF is reported
    within [len(fileinfos) + 1] calls. *)
Theorem filtered_listing_is_the_inner_listing_filtered
    (p : PW) (path : string) (fileinfos : list FileInfo) (w w1 w2 : W)
    (lister : PermLister) (sizes : list nat) (fuel : nat) :
  (len64 fileinfos < 2 ^ 63)%Z ->
  fsList (Inner p) path w = (Ok (dirLister fileinfos), w1) ->
  List p path w = (Ok lister, w2) ->
  Forall (fun lenLs => 1 <= lenLs) sizes ->
  List.length fileinfos < fuel ->
  exists (out : list FileInfo) (eof : bool),
    drain fuel lister sizes 0 = Ok (out, eof)
    /\ (exists k : nat, out = visible (ShouldHide p) path (firstn k fileinfos))
    /\ (eof = true -> out = visible (ShouldHide p) path fileinfos)
    /\ (List.length fileinfos < List.length sizes -> eof = true).
Proof.
  intros Hfits Hinner Hlist Hsizes Hfuel.
  unfold List in Hlist.
  destruct (negb (CanRead p path) || ShouldHide p path); [discriminate|].
  unfold mbind in Hlist. rewrite Hinner in Hlist. unfold ret in Hlist.
  destruct (List.length (ShouldHideRegexp p) =? 0) eqn:Ehide;
    injection Hlist as <- _.
  - apply Nat.eqb_eq in Ehide.
    destruct (drain_passthrough fileinfos Hfits fuel sizes 0 Hsizes)
      as [out [eof [o' [Hd [Ho' [Hf [He Hcount]]]]]]]; [lia|].
    cbn [firstn app] in Hf. change (Z.of_nat 0) with 0%Z in Hd.
    exists out, eof. split; [exact Hd|].
    rewrite visible_nothing_hidden by exact Ehide.
    split; [exists o'; rewrite visible_nothing_hidden by exact Ehide;
            symmetry; exact Hf|]. split.
    + intros E. specialize (He E). subst o'. rewrite firstn_all in Hf.
      symmetry. exact Hf.
    + intros Hlong. destruct eof; [reflexivity|].
      specialize (Hcount eq_refl).
      assert (List.length out <= List.length fileinfos).
      { rewrite <- Hf, length_firstn. lia. }
      lia.
  - destruct (drain_filtering (ShouldHide p) path fileinfos Hfits fuel Hfuel sizes 0
                (mkFilterState [] 0) Hsizes)
      as [out [eof [R' [Hd [HR' [Hseen [He Hcount]]]]]]];
      [lia|apply Known_init|].
    unfold Invariants.seen, visible in Hseen, Hd. cbn [firstn filter app List.length] in Hseen, Hd.
    change (Z.of_nat 0) with 0%Z in Hd.
    exists out, eof. split; [exact Hd|].
    split; [exists R'; symmetry; exact Hseen|]. split.
    + intros E. specialize (He E). subst R'. rewrite firstn_all in Hseen.
      symmetry. exact Hseen.
    + intros Hlong. destruct eof; [reflexivity|].
      specialize (Hcount eq_refl).
      assert (List.length out <= List.length fileinfos).
      { rewrite <- Hseen. etransitivity; [apply filter_length_le|].
        rewrite length_firstn. lia. }
      lia.
Qed.

End Listing.

Lemma filtered_listing_is_the_inner_listing_filtered_witness :
  exists (lister : PermLister) (out : list FileInfo) (eof : bool),
    List Recording.hidingWrapper "/" [] = (Ok lister, ["List"])
    /\ drain 6 lister [2; 1; 3; 2; 2; 2] 0 = Ok (out, eof)
    /\ (exists k : nat,
          out = visible (ShouldHide Recording.hidingWrapper) "/"
                  (firstn k Recording.fiveEntries))
    /\ (eof = true ->
        out = visible (ShouldHide Recording.hidingWrapper) "/" Recording.fiveEntries)
    /\ (List.length Recording.fiveEntries < List.length [2; 1; 3; 2; 2; 2] -> eof = true).
Proof.
  destruct (filtered_listing_is_the_inner_listing_filtered
              Recording.Calls unit unit unit unit
              Recording.hidingWrapper "/" Recording.fiveEntries [] ["List"] ["List"]
              (Filtering (ShouldHide Recording.hidingWrapper) "/"
                 (dirLister Recording.fiveEntries) (mkFilterState [] 0))
              [2; 1; 3; 2; 2; 2] 6) as [out [eof H]].
  - vm_compute. reflexivity.
  - reflexivity.
  - reflexivity.
  - repeat constructor.
  - simpl. lia.
  - exists (Filtering (ShouldHide Recording.hidingWrapper) "/"
              (dirLister Recording.fiveEntries) (mkFilterState [] 0)), out, eof.
    split; [reflexivity|exact H].
Defined.

(** The five entries through buffers of two: the three visible ones, then
    EOF. *)
Example drain_five_entries :
  drain 6 (Filtering (ShouldHide Recording.hidingWrapper) "/"
             (dirLister Recording.fiveEntries) (mkFilterState [] 0))
    [2; 2; 2; 2] 0
  = Ok ([Recording.file "a" 1; Recording.file "b" 3; Recording.file "c" 5], true).
Proof. vm_compute. reflexivity. Qed.

End FilterFacts.

(** ** UnionMount *)

Module UnionMountFacts.
Import UnionMount.

Section Union.

Variable W : Type.
Variables ReaderAt WriterAt FileAttrFlags FileStat : Type.

Let FS := SimplifiedFS W ReaderAt WriterAt FileAttrFlags FileStat.

Variable readAt : ReaderAt -> nat -> Z -> M W (list ascii * option error).
Variable writeAt : WriterAt -> list ascii -> Z -> M W (Z * option error).
Variable Mount : Type.
Variable ops : Mount -> FS.
Variable sameFS : Mount -> Mount -> res bool.
Variable asOsDirFS : Mount -> option OsDirFS.
Variables os_Rename os_Link os_Symlink : string -> string -> M W unit.
Variable c : CombinedFS Mount.

Let Rename' := Rename readAt writeAt ops sameFS asOsDirFS os_Rename c.
Let Link' := Link ops sameFS asOsDirFS os_Link c.
Let Symlink' := Symlink ops sameFS asOsDirFS os_Symlink c.

Lemma isRoot_true (path : string) : isRoot path = true <-> path = "/".
Proof. apply String.eqb_eq. Qed.

Lemma linkLike_root (direct : FS -> string -> string -> M W unit)
    (host : string -> string -> M W unit) (msg : string) (src dst : string) (w : W) :
  src = "/" \/ dst = "/" ->
  linkLike ops sameFS asOsDirFS c direct host msg src dst w = (Err ErrPermission, w).
Proof.
  intros H. unfold linkLike.
  assert (E : isRoot src || isRoot dst = true).
  { apply orb_true_iff. destruct H; [left|right]; apply isRoot_true; assumption. }
  rewrite E. reflexivity.
Qed.

Lemma linkLike_mount_root (direct : FS -> string -> string -> M W unit)
    (host : string -> string -> M W unit) (msg : string) (src dst : string) (w : W)
    (subSrc subDst : string) (srcSfs dstSfs : Mount) :
  Extract c src = Ok (subSrc, srcSfs) ->
  Extract c dst = Ok (subDst, dstSfs) ->
  subSrc = "/" \/ subDst = "/" ->
  linkLike ops sameFS asOsDirFS c direct host msg src dst w = (Err ErrPermission, w).
Proof.
  intros Hs Hd H. unfold linkLike.
  destruct (isRoot src || isRoot dst); [reflexivity|].
  rewrite Hs, Hd. unfold mbind, ret.
  assert (E : isRoot subSrc || isRoot subDst = true).
  { apply orb_true_iff. destruct H; [left|right]; apply isRoot_true; assumption. }
  rewrite E. reflexivity.
Qed.

(** C7, as the code has it.  The single-path mutations are refused with
    [ErrPermission] on [/] and on a path that resolves to a mount's root; the
    two-path ones are refused with [ErrPermission] when either side is [/];
    when both sides resolve to a mount and one of them to its root, link and
    symlink are refused with [ErrPermission] and a rename between different
    paths with [ErrInvalid].  A rename of a path other than [/] onto itself
    returns no error.  No mount is called and the world is untouched. *)
Theorem root_is_immutable (w : W) :
  (forall path : string,
      path = "/" \/ (exists sfs : Mount, Extract c path = Ok ("/", sfs)) ->
      Rmdir ops c path w = (Err ErrPermission, w) /\
      Rm ops c path w = (Err ErrPermission, w) /\
      Mkdir ops c path w = (Err ErrPermission, w)) /\
  (forall (fuel : nat) (src dst : string),
      src = "/" \/ dst = "/" ->
      Rename' fuel src dst w = (Err ErrPermission, w) /\
      Link' src dst w = (Err ErrPermission, w) /\
      Symlink' src dst w = (Err ErrPermission, w)) /\
  (forall (fuel : nat) (src dst subSrc subDst : string) (srcSfs dstSfs : Mount),
      Extract c src = Ok (subSrc, srcSfs) ->
      Extract c dst = Ok (subDst, dstSfs) ->
      subSrc = "/" \/ subDst = "/" ->
      Link' src dst w = (Err ErrPermission, w) /\
      Symlink' src dst w = (Err ErrPermission, w) /\
      (src <> dst ->
       exists e : error, Rename' fuel src dst w = (Err e, w)
                         /\ is_forbidden e || is_invalid e = true)) /\
  (forall (fuel : nat) (src : string),
      src <> "/" -> Rename' fuel src src w = (Ok tt, w)).
Proof.
  split; [|split; [|split]].
  - intros path H. unfold Rmdir, Rm, Mkdir.
    destruct (isRoot path) eqn:E; [repeat split; reflexivity|].
    destruct H as [H | [sfs H]].
    + apply isRoot_true in H. congruence.
    + rewrite H. unfold mbind, ret. cbn. repeat split; reflexivity.
  - intros fuel src dst H. split; [|split].
    + unfold Rename', Rename.
      assert (E : isRoot src || isRoot dst = true).
      { apply orb_true_iff. destruct H; [left|right]; apply isRoot_true; assumption. }
      rewrite E. reflexivity.
    + apply linkLike_root. exact H.
    + apply linkLike_root. exact H.
  - intros fuel src dst subSrc subDst srcSfs dstSfs Hs Hd H. split; [|split].
    + apply (linkLike_mount_root _ _ _ _ _ _ _ _ _ _ Hs Hd H).
    + apply (linkLike_mount_root _ _ _ _ _ _ _ _ _ _ Hs Hd H).
    + intros Hne. unfold Rename', Rename.
      destruct (isRoot src || isRoot dst).
      { exists ErrPermission. split; reflexivity. }
      apply String.eqb_neq in Hne. rewrite Hne.
      rewrite Hs, Hd. unfold mbind, ret.
      assert (E : isRoot subSrc || isRoot subDst = true).
      { apply orb_true_iff. destruct H; [left|right]; apply isRoot_true; assumption. }
      rewrite E. exists ErrInvalid. split; reflexivity.
  - intros fuel src Hne. unfold Rename', Rename.
    assert (E : isRoot src = false).
    { destruct (isRoot src) eqn:E; [|reflexivity]. apply isRoot_true in E. congruence. }
    rewrite E. cbn [orb]. rewrite String.eqb_refl. reflexivity.
Qed.

End Union.

Section RootListing.

Variable W : Type.
Variables ReaderAt WriterAt FileAttrFlags FileStat : Type.
Variable Mount : Type.
Variable ops : Mount -> SimplifiedFS W ReaderAt WriterAt FileAttrFlags FileStat.
Variable c : CombinedFS Mount.
Variable topDirs : list string.

Hypothesis fits : (len64 topDirs < 2 ^ 63)%Z.

(** Once the offset has reached the size of the buffer, and mounts are left,
    the root lister copies nothing and reports no EOF; its count is
    [len(fs) - offset]. *)
Lemma rootListAt_stalls (lenFs offset : nat) (w : W) :
  lenFs <= offset -> offset < List.length topDirs ->
  rootListAt ops c topDirs lenFs (Z.of_nat offset) w
  = (Ok ((Z.of_nat lenFs - Z.of_nat offset)%Z, [], None), w).
Proof.
  intros Hle Hlt. unfold len64 in fits. unfold rootListAt, len64, sub64, add64, min.
  destruct (Z.of_nat offset >=? Z.of_nat (List.length topDirs))%Z eqn:E; [lia|].
  rewrite !Basics.wrap64_small by lia.
  destruct (Z.of_nat (List.length topDirs) - Z.of_nat offset
            <? Z.of_nat lenFs - Z.of_nat offset)%Z eqn:E2; [lia|].
  replace (Z.to_nat (Z.of_nat lenFs - Z.of_nat offset)) with 0 by lia.
  cbn [rootLoop]. unfold mbind, ret.
  rewrite Basics.wrap64_small by lia.
  destruct (Z.of_nat offset + (Z.of_nat lenFs - Z.of_nat offset)
            =? Z.of_nat (List.length topDirs))%Z eqn:E3; [lia|].
  reflexivity.
Qed.

(** The stat every mount gives for its root, when it gives one and leaves
    the world as it is. *)
Variable statOf : string -> FileInfo.

Hypothesis stable : forall name : string, In name topDirs ->
  exists sfs : Mount, lookupDir (Dirs c) name = Some sfs
                      /\ forall w : W, fsStat (ops sfs) "/" w = (Ok (statOf name), w).

Lemma indexZ_nth (i : nat) (name : string) :
  nth_error topDirs i = Some name -> indexZ topDirs (Z.of_nat i) = Ok name.
Proof.
  intros H. unfold indexZ. destruct (Z.of_nat i <? 0)%Z eqn:E; [lia|].
  rewrite Nat2Z.id, H. reflexivity.
Qed.

Lemma rootLoop_whole (lenFs : nat) (w : W) :
  List.length topDirs <= lenFs ->
  forall (count i : nat) (fs : list FileInfo),
    i + count = List.length topDirs ->
    rootLoop ops c count topDirs lenFs 0 (Z.of_nat i) fs w
    = (Ok (inl (fs ++ map (fun name => renamedFileInfo (statOf name) name)
                        (skipn i topDirs))), w).
Proof.
  intros Hbuf. unfold len64 in fits.
  induction count as [|count IH]; intros i fs Hi.
  - cbn [rootLoop]. rewrite skipn_all2 by lia. cbn [map]. rewrite app_nil_r. reflexivity.
  - destruct (Basics.nth_error_in_range topDirs i) as [name Hname]; [lia|].
    cbn [rootLoop]. unfold mbind at 1. unfold ret at 1.
    unfold add64. rewrite Basics.wrap64_small by lia. rewrite Z.add_0_l.
    rewrite (indexZ_nth i name Hname).
    destruct (stable name) as [sfs [Hl Hs]]; [eapply nth_error_In; eassumption|].
    rewrite Hl, Hs.
    destruct (Z.of_nat i <? Z.of_nat lenFs)%Z eqn:E; [|lia].
    rewrite Basics.wrap64_small by lia.
    replace (Z.of_nat i + 1)%Z with (Z.of_nat (S i)) by lia.
    rewrite IH by lia.
    rewrite (Basics.skipn_nth_cons topDirs i name Hname). cbn [map].
    rewrite <- app_assoc. reflexivity.
Qed.

(** With a buffer that holds every mount, the first call delivers the stat
    of every mount under the mount's name, in the order of [topDirs], and
    reports EOF. *)
Lemma rootListAt_whole (lenFs : nat) (w : W) :
  0 < List.length topDirs <= lenFs ->
  (Z.of_nat lenFs < 2 ^ 63)%Z ->
  rootListAt ops c topDirs lenFs 0 w
  = (Ok (len64 topDirs,
         map (fun name => renamedFileInfo (statOf name) name) topDirs,
         Some EOF), w).
Proof.
  intros Hbuf HlenFs. unfold len64 in fits. unfold rootListAt, len64, sub64.
  destruct (0 >=? Z.of_nat (List.length topDirs))%Z eqn:E; [lia|].
  rewrite !Z.sub_0_r, !Basics.wrap64_small by lia.
  assert (Hrem : min (Z.of_nat (List.length topDirs)) (Z.of_nat lenFs)
                 = Z.of_nat (List.length topDirs)).
  { unfold min.
    destruct (Z.of_nat (List.length topDirs) <? Z.of_nat lenFs)%Z eqn:E2; lia. }
  rewrite Hrem, Nat2Z.id.
  pose proof (rootLoop_whole lenFs w (proj2 Hbuf) (List.length topDirs) 0 [] eq_refl)
    as Hloop.
  change (Z.of_nat 0) with 0%Z in Hloop. cbn [skipn app] in Hloop.
  unfold mbind at 1. rewrite Hloop.
  unfold ret, add64. rewrite Basics.wrap64_small by lia.
  rewrite Z.add_0_l, Z.eqb_refl. reflexivity.
Qed.

End RootListing.

Lemma root_is_immutable_witness :
  Rmdir Recording.mountOps Recording.twoMounts "/docs" [] = (Err ErrPermission, []) /\
  Link Recording.mountOps Recording.sameMount Recording.noOsDirFS
    (Recording.hostOp "os.Link") Recording.twoMounts "/" "/docs/a" []
    = (Err ErrPermission, []) /\
  (exists e : error,
      Recording.renameTwoMounts 0 "/docs/a" "/pics" [] = (Err e, [])
      /\ is_forbidden e || is_invalid e = true) /\
  Recording.renameTwoMounts 0 "/docs/a" "/docs/a" [] = (Ok tt, []).
Proof.
  pose proof (root_is_immutable Recording.Calls unit unit unit unit
                Recording.readNothing Recording.writeAll nat Recording.mountOps
                Recording.sameMount Recording.noOsDirFS (Recording.hostOp "os.Rename")
                (Recording.hostOp "os.Link") (Recording.hostOp "os.Symlink")
                Recording.twoMounts []) as [H1 [H2 [H3 H4]]].
  split; [|split; [|split]].
  - apply (H1 "/docs"). right. exists 1. reflexivity.
  - apply (H2 0 "/" "/docs/a"). left. reflexivity.
  - apply (H3 0 "/docs/a" "/pics" "/a" "/" 1 2).
    + reflexivity.
    + reflexivity.
    + right. reflexivity.
    + discriminate.
  - apply (H4 0 "/docs/a"). discriminate.
Defined.

(** [/docs] resolves to the root of a mount, and renaming it onto itself is
    not refused: the call returns no error. *)
Lemma rename_of_mount_root_onto_itself_is_not_refused :
  Extract Recording.twoMounts "/docs" = Ok ("/", 1) /\
  ~ (exists (e : error) (w' : Recording.Calls),
        Recording.renameTwoMounts 0 "/docs" "/docs" [] = (Err e, w')
        /\ is_forbidden e || is_invalid e = true).
Proof.
  split; [reflexivity|].
  intros [e [w' [H _]]]. vm_compute in H. discriminate.
Qed.

(** With the other side outside every mount the refusal is [ErrNotExist]. *)
Lemma rename_of_mount_root_to_unknown_mount :
  Recording.renameTwoMounts 0 "/docs" "/none/x" [] = (Err ErrNotExist, []).
Proof. reflexivity. Qed.

(** C4, where the code leaves the claim: the number of entries to copy is
    computed as [min(len(topDirs)-offset, len(fs)-offset)], so with two
    mounts and a buffer of one entry the second call (offset 1) copies
    nothing and reports no EOF, whatever the world: the entry [pics] is never
    delivered. *)
Theorem root_listing_stalls_on_small_buffer :
  topDirsOf Recording.twoMounts = ["docs"; "pics"] /\
  fst (rootListAt Recording.mountOps Recording.twoMounts ["docs"; "pics"] 1 0 [])
    = Ok (1%Z, [renamedFileInfo (Recording.rootInfo 1) "docs"], None) /\
  forall calls : Recording.Calls,
    rootListAt Recording.mountOps Recording.twoMounts ["docs"; "pics"] 1 1 calls
      = (Ok (0%Z, [], None), calls).
Proof.
  split; [reflexivity|]. split; [reflexivity|].
  intros calls. reflexivity.
Qed.

End UnionMountFacts.

(** ** UnionMount: the rename fallback over mounts in memory *)

Module RenameFacts.
Import UnionMount Memory.

Lemma find_remove_same (files : Files) (path : string) :
  find (remove files path) path = None.
Proof.
  induction files as [|[k node] files IH]; [reflexivity|].
  unfold remove in *. cbn [filter fst].
  destruct (String.eqb k path) eqn:E; cbn [negb]; [exact IH|].
  cbn [find]. rewrite E. exact IH.
Qed.

Lemma find_remove_other (files : Files) (path other : string) :
  String.eqb path other = false ->
  find (remove files path) other = find files other.
Proof.
  intros Hne. induction files as [|[k node] files IH]; [reflexivity|].
  unfold remove in *. cbn [filter fst].
  destruct (String.eqb k path) eqn:E; cbn [negb find].
  - apply String.eqb_eq in E. subst k. rewrite Hne. exact IH.
  - destruct (String.eqb k other); [reflexivity|exact IH].
Qed.

Lemma find_store_same (files : Files) (path : string) (node : Node) :
  find (store files path node) path = Some node.
Proof. unfold store. cbn [find]. rewrite String.eqb_refl. reflexivity. Qed.

Lemma setMount_same (w : World) (mount : nat) (files : Files) :
  setMount w mount files mount = files.
Proof. unfold setMount. rewrite Nat.eqb_refl. reflexivity. Qed.

Lemma setMount_other (w : World) (mount other : nat) (files : Files) :
  (other =? mount) = false -> setMount w mount files other = w other.
Proof. intros H. unfold setMount. rewrite H. reflexivity. Qed.

Lemma copyBufferSize_pos : 1 <= copyBufferSize.
Proof. unfold copyBufferSize. lia. Qed.

Lemma overwrite_appends (content : list ascii) (o : nat) (p : list ascii) :
  o <= List.length content ->
  p = firstn (List.length p) (skipn o content) ->
  overwrite (firstn o content) o p = firstn (o + List.length p) content.
Proof.
  intros Ho Hp. unfold overwrite.
  rewrite firstn_firstn, Nat.min_id, length_firstn.
  replace (o - Nat.min o (List.length content)) with 0 by lia. cbn [repeat app].
  rewrite skipn_all2 by (rewrite length_firstn; lia).
  rewrite app_nil_r. rewrite Basics.firstn_plus. f_equal. exact Hp.
Qed.

Section Copy.

Variables (ms md : nat) (sp dp : string) (content : list ascii).

Hypothesis different : (ms =? md) = false.
Hypothesis fits : (len64 content < 2 ^ 63)%Z.

Local Abbreviation copying := (Invariants.copying ms md sp dp content).
Local Abbreviation copied := (Invariants.copied ms md sp dp content).
Local Abbreviation afterChunk := (Invariants.afterChunk md dp content).

(** One round of [io.Copy] at the end of the source: the read reports EOF. *)
Lemma ioCopy_at_end (fuel : nat) (w : World) :
  find (w ms) sp = Some (File content) ->
  ioCopy memReadAt memWriteAt (S fuel) (md, dp) (Z.of_nat (List.length content))
    (ms, sp) (Z.of_nat (List.length content)) w = (Ok tt, w).
Proof.
  intros Hsrc. cbn [ioCopy]. unfold mbind, memReadAt. cbn [fst snd].
  rewrite Hsrc. unfold len64.
  destruct (Z.of_nat (List.length content) <? 0)%Z eqn:Eneg; [lia|].
  destruct (Z.of_nat (List.length content) >=? Z.of_nat (List.length content))%Z
    eqn:Eend; [|lia].
  reflexivity.
Qed.

(** One round of [io.Copy] before the end of the source: a chunk is read
    and written; a short chunk ends the copy. *)
Lemma ioCopy_round (fuel o : nat) (w : World) :
  o < List.length content -> copying o w ->
  let data := firstn copyBufferSize (skipn o content) in
  ioCopy memReadAt memWriteAt (S fuel) (md, dp) (Z.of_nat o) (ms, sp) (Z.of_nat o) w
  = if List.length data <? copyBufferSize then (Ok tt, afterChunk o w)
    else ioCopy memReadAt memWriteAt fuel (md, dp) (Z.of_nat (o + List.length data))
           (ms, sp) (Z.of_nat (o + List.length data)) (afterChunk o w).
Proof.
  unfold len64 in fits.
  intros Ho [Hsrc Hdst] data. cbn [ioCopy]. unfold mbind, memReadAt, memWriteAt.
  cbn [fst snd]. rewrite Hsrc. unfold len64.
  destruct (Z.of_nat o <? 0)%Z eqn:Eneg; [lia|].
  destruct (Z.of_nat o >=? Z.of_nat (List.length content))%Z eqn:Eend; [lia|].
  rewrite Nat2Z.id. fold data.
  assert (Hdl : List.length data = Nat.min copyBufferSize (List.length content - o)).
  { unfold data. rewrite length_firstn, length_skipn. reflexivity. }
  pose proof copyBufferSize_pos as HB.
  assert (Hpos : (0 <? Z.of_nat (List.length data))%Z = true) by (apply Z.ltb_lt; lia).
  rewrite Hpos, Hdst.
  assert (Hcmp : (Z.of_nat (List.length data) <? 0)%Z
                 || (Z.of_nat (List.length data) <? Z.of_nat (List.length data))%Z = false).
  { rewrite Z.ltb_irrefl, orb_false_r. apply Z.ltb_ge. lia. }
  rewrite Hcmp, Z.eqb_refl. cbn [negb].
  assert (Hoff : add64 (Z.of_nat o) (Z.of_nat (List.length data))
                 = Z.of_nat (o + List.length data)).
  { unfold add64. rewrite Basics.wrap64_small; lia. }
  rewrite Hoff. unfold Invariants.afterChunk. fold data.
  destruct (List.length data <? copyBufferSize); reflexivity.
Qed.

Lemma afterChunk_copying (o : nat) (w : World) :
  o <= List.length content -> copying o w ->
  let data := firstn copyBufferSize (skipn o content) in
  copying (o + List.length data) (afterChunk o w) /\ afterChunk o w ms = w ms.
Proof.
  intros Ho [Hsrc Hdst] data. unfold Invariants.copying, Invariants.afterChunk. fold data.
  rewrite setMount_other by exact different.
  rewrite setMount_same, find_store_same.
  split; [split; [exact Hsrc|]|reflexivity].
  rewrite overwrite_appends; [reflexivity|exact Ho|].
  unfold data. rewrite length_firstn.
  rewrite <- firstn_firstn, firstn_all. reflexivity.
Qed.

(** [io.Copy] over the two handles, from offset [o] on both sides: it
    finishes with the destination complete, unless the fuel is less than
    the number of bytes left. *)
Lemma ioCopy_copies :
  forall (fuel o : nat) (w : World),
    o <= List.length content -> copying o w ->
    (exists w' : World,
        ioCopy memReadAt memWriteAt fuel (md, dp) (Z.of_nat o) (ms, sp) (Z.of_nat o) w
          = (Ok tt, w')
        /\ copied w w')
    \/ (fst (ioCopy memReadAt memWriteAt fuel (md, dp) (Z.of_nat o) (ms, sp)
               (Z.of_nat o) w) = Diverge
        /\ fuel <= List.length content - o).
Proof.
  induction fuel as [|fuel IH]; intros o w Ho Hc.
  { right. split; [reflexivity|lia]. }
  destruct (Nat.eq_dec o (List.length content)) as [->|Hne].
  - left. exists w. destruct Hc as [Hsrc Hdst].
    rewrite ioCopy_at_end by exact Hsrc. split; [reflexivity|].
    rewrite firstn_all in Hdst. repeat split; assumption.
  - rewrite ioCopy_round by (try lia; exact Hc). cbv zeta.
    set (data := firstn copyBufferSize (skipn o content)).
    assert (Hdl : List.length data = Nat.min copyBufferSize (List.length content - o)).
    { unfold data. rewrite length_firstn, length_skipn. reflexivity. }
    pose proof copyBufferSize_pos as HB.
    destruct (afterChunk_copying o w Ho Hc) as [Hc1 Hms1]. fold data in Hc1.
    destruct (List.length data <? copyBufferSize) eqn:Eshort.
    + apply Nat.ltb_lt in Eshort. left. exists (afterChunk o w).
      split; [reflexivity|]. destruct Hc1 as [Hsrc1 Hdst1].
      replace (o + List.length data) with (List.length content) in Hdst1 by lia.
      rewrite firstn_all in Hdst1. repeat split; assumption.
    + apply Nat.ltb_ge in Eshort.
      destruct (IH (o + List.length data) (afterChunk o w))
        as [[w' [Hcopy [H1 [H2 H3]]]] | [Hd Hf]]; [lia|exact Hc1| |].
      * left. exists w'. split; [exact Hcopy|]. repeat split; try assumption. congruence.
      * right. split; [exact Hd|lia].
Qed.

End Copy.

(** [renameFileFallback] between two mounts in memory, the destination
    missing: either the file has moved, or the copy ran out of fuel. *)
Lemma renameFileFallback_moves (ms md : nat) (sp dp : string) (content : list ascii)
    (fuel : nat) (w : World) :
  (ms =? md) = false ->
  (len64 content < 2 ^ 63)%Z ->
  find (w ms) sp = Some (File content) ->
  find (w md) dp = None ->
  (exists w' : World,
      renameFileFallback memReadAt memWriteAt memFS fuel ms md sp dp w = (Ok tt, w')
      /\ find (w' md) dp = Some (File content) /\ find (w' ms) sp = None)
  \/ (fst (renameFileFallback memReadAt memWriteAt memFS fuel ms md sp dp w) = Diverge
      /\ fuel <= List.length content).
Proof.
  intros Hdiff Hfits Hsrc Hdst.
  set (w1 := setMount w md (store (w md) dp (File []))).
  assert (Heq : renameFileFallback memReadAt memWriteAt memFS fuel ms md sp dp w
                = (_ <~ ioCopy memReadAt memWriteAt fuel (md, dp) 0 (ms, sp) 0 ;;
                   memRm ms sp) w1).
  { unfold renameFileFallback. cbn [memFS fsRead fsWrite fsRm].
    unfold mbind at 1. unfold memRead at 1. rewrite Hsrc.
    unfold mbind at 1. unfold memWrite at 1. rewrite Hdst. reflexivity. }
  rewrite Heq. clear Heq.
  assert (Hc : Invariants.copying ms md sp dp content 0 w1).
  { unfold Invariants.copying, w1. rewrite setMount_other by exact Hdiff.
    rewrite setMount_same, find_store_same. split; [exact Hsrc|reflexivity]. }
  destruct (ioCopy_copies ms md sp dp content Hdiff Hfits fuel 0 w1)
    as [[w2 [Hcopy [H1 [H2 H3]]]] | [Hd Hf]]; [lia|exact Hc| |].
  - left. change (Z.of_nat 0) with 0%Z in Hcopy.
    unfold mbind. rewrite Hcopy.
    unfold memRm. rewrite H1.
    eexists. split; [reflexivity|].
    assert (Hdiff' : (md =? ms) = false) by (rewrite Nat.eqb_sym; exact Hdiff).
    rewrite setMount_other by exact Hdiff'. rewrite setMount_same.
    split; [exact H2|apply find_remove_same].
  - right. change (Z.of_nat 0) with 0%Z in Hd.
    unfold mbind.
    destruct (ioCopy memReadAt memWriteAt fuel (md, dp) 0 (ms, sp) 0 w1) as [[u| | |] w2];
      cbn [fst] in Hd; try discriminate.
    split; [reflexivity|lia].
Qed.

Lemma isRoot_false_neq (path : string) : isRoot path = false -> path <> "/".
Proof. unfold isRoot. intros H. apply String.eqb_neq. exact H. Qed.

(** C6: a rename between two different mounts in memory, not both native
    directories, the source a regular file and the destination missing.  If
    the call returns no error, the destination holds the bytes the source
    held and the source is gone; and the call does return no error once the
    fuel exceeds the length of the file. *)
Theorem cross_mount_rename_moves_the_file
    (asOsDirFS : nat -> option OsDirFS)
    (c : CombinedFS nat) (src dst subSrc subDst : string) (ms md : nat)
    (content : list ascii) (w : World) (fuel : nat) :
  Extract c src = Ok (subSrc, ms) ->
  Extract c dst = Ok (subDst, md) ->
  (ms =? md) = false ->
  asOsDirFS ms = None \/ asOsDirFS md = None ->
  find (w ms) subSrc = Some (File content) ->
  find (w md) subDst = None ->
  (len64 content < 2 ^ 63)%Z ->
  (forall w' : World,
      Memory.Rename asOsDirFS c fuel src dst w = (Ok tt, w') ->
      find (w' md) subDst = Some (File content) /\ find (w' ms) subSrc = None)
  /\ (isRoot src || isRoot dst || isRoot subSrc || isRoot subDst = false ->
      List.length content < fuel ->
      exists w' : World, Memory.Rename asOsDirFS c fuel src dst w = (Ok tt, w')).
Proof.
  intros Hs Hd Hdiff Hnative Hsrc Hdst Hfits.
  assert (Hne : String.eqb src dst = false).
  { destruct (String.eqb src dst) eqn:E; [|reflexivity].
    apply String.eqb_eq in E. subst dst. rewrite Hs in Hd.
    injection Hd as _ E. subst md. rewrite Nat.eqb_refl in Hdiff. discriminate. }
  assert (Heq : isRoot src || isRoot dst = false -> isRoot subSrc || isRoot subDst = false ->
                Memory.Rename asOsDirFS c fuel src dst w
                = renameFileFallback memReadAt memWriteAt memFS fuel ms md subSrc subDst w).
  { intros E1 E2. unfold Memory.Rename, UnionMount.Rename.
    rewrite E1, Hne, Hs, Hd. unfold mbind at 1. unfold ret at 1.
    unfold mbind at 1. unfold ret at 1. rewrite E2.
    unfold sameMount. rewrite Hdiff. unfold mbind at 1. unfold ret at 1.
    destruct (asOsDirFS ms) as [srcDirFs|] eqn:Ems;
      [destruct (asOsDirFS md) as [dstDirFs|] eqn:Emd;
       [destruct Hnative; discriminate|]|];
      cbn [memFS fsStat];
      unfold mbind at 1; unfold memStat at 1; rewrite Hsrc;
      unfold memStat at 1; rewrite Hdst; reflexivity. }
  pose proof (renameFileFallback_moves ms md subSrc subDst content fuel w
                Hdiff Hfits Hsrc Hdst) as Hmove.
  split.
  - intros w' Hok.
    destruct (isRoot src || isRoot dst) eqn:E1.
    { unfold Memory.Rename, UnionMount.Rename in Hok. rewrite E1 in Hok. discriminate. }
    destruct (isRoot subSrc || isRoot subDst) eqn:E2.
    { unfold Memory.Rename, UnionMount.Rename in Hok. rewrite E1, Hne, Hs, Hd in Hok.
      unfold mbind, ret in Hok. rewrite E2 in Hok. discriminate. }
    rewrite (Heq eq_refl eq_refl) in Hok.
    destruct Hmove as [[w'' [Hr Hpost]] | [Hdv _]].
    + rewrite Hr in Hok. injection Hok as <-. exact Hpost.
    + rewrite Hok in Hdv. discriminate.
  - intros Hroots Hfuel.
    apply orb_false_iff in Hroots as [Hroots E4].
    apply orb_false_iff in Hroots as [Hroots E3].
    rewrite Heq; [|exact Hroots|rewrite E3, E4; reflexivity].
    destruct Hmove as [[w'' [Hr _]] | [_ Hf]]; [|lia].
    exists w''. exact Hr.
Qed.

(** Scenario S4. *)
Lemma cross_mount_rename_moves_the_file_witness :
  (forall w' : World,
      Memory.Rename notNative docsAndPics 3 "/docs/x.txt" "/pics/x.txt" scenarioS4
        = (Ok tt, w') ->
      find (w' 2) "/x.txt" = Some (File kilobyte) /\ find (w' 1) "/x.txt" = None)
  /\ exists w' : World,
      Memory.Rename notNative docsAndPics 3 "/docs/x.txt" "/pics/x.txt" scenarioS4
        = (Ok tt, w').
Proof.
  destruct (cross_mount_rename_moves_the_file notNative docsAndPics
              "/docs/x.txt" "/pics/x.txt" "/x.txt" "/x.txt" 1 2 kilobyte scenarioS4 3)
    as [H1 H2].
  - reflexivity.
  - reflexivity.
  - reflexivity.
  - left. reflexivity.
  - reflexivity.
  - reflexivity.
  - vm_compute. reflexivity.
  - split; [exact H1|].
    exists (snd (Memory.Rename notNative docsAndPics 3 "/docs/x.txt" "/pics/x.txt"
                   scenarioS4)).
    vm_compute. reflexivity.
Defined.

End RenameFacts.

(** ** DirMount: the operations on the host *)

Module DirMountOpsFacts.
Import PathGuard DirMount DirMountOps Basics.

(** The three outcomes of [IntoAbsPath]. *)
Lemma IntoAbsPath_outcomes (d : DirFs) (path : string) :
  (exists realPath : string, IntoAbsPath d path = Ok realPath)
  \/ IntoAbsPath d path = Err (ErrMsg "invalid path")
  \/ IntoAbsPath d path = Panic.
Proof.
  unfold IntoAbsPath.
  match goal with
  | |- context [ContainsValidDir ?rp] => set (realPath := rp)
  end.
  destruct realPath as [|a q] eqn:E.
  - right. right. reflexivity.
  - destruct (PathGuardFacts.ContainsValidDirF_fuel (String a q)) as [b Hb];
      [simpl; lia|].
    unfold ContainsValidDir. rewrite Hb by lia. cbn [bind or_else negb].
    destruct b; cbn [negb]; [|right; left; reflexivity].
    unfold slice_to.
    destruct (String.length (Root d) <=? String.length (String a q));
      cbn [bind]; [|right; right; reflexivity].
    destruct (negb (String.eqb (substring 0 (String.length (Root d)) (String a q)) (Root d)));
      [right; left; reflexivity|left; eexists; reflexivity].
Qed.

Section ReadOnly.

Variable W : Type.
Variables ReaderAt WriterAt : Type.
Variable h : Host W ReaderAt WriterAt.
Variable d : DirFs.

Hypothesis readonly : Readonly d = true.

Lemma guarded_refused {A : Type} (path : string) (k : string -> M W A) (w : W) :
  (abspath <~ ret (IntoAbsPath d path) ;;
   if negb (CanWrite d abspath) then ret (Err ErrForbidden) else k abspath) w
  = (refusal [IntoAbsPath d path], w).
Proof.
  unfold mbind, ret, CanWrite. rewrite readonly. cbn [negb refusal].
  destruct (IntoAbsPath d path); reflexivity.
Qed.

Lemma guarded2_refused (src dst : string) (needRead : bool)
    (k : string -> string -> M W unit) (w : W) :
  (absSrc <~ ret (IntoAbsPath d src) ;;
   absDst <~ ret (IntoAbsPath d dst) ;;
   if negb (if needRead then CanRead d absSrc else CanWrite d absSrc)
      || negb (CanWrite d absDst)
   then ret (Err ErrForbidden) else k absSrc absDst) w
  = (refusal [IntoAbsPath d src; IntoAbsPath d dst], w).
Proof.
  unfold mbind, ret, CanWrite, CanRead. rewrite readonly. cbn [refusal].
  destruct (IntoAbsPath d src); try reflexivity.
  destruct (IntoAbsPath d dst); try reflexivity.
  destruct needRead; reflexivity.
Qed.

(** X1: a read-only mount refuses every mutation before any call of
    package os.  The world is untouched, and the outcome is decided by
    [IntoAbsPath] alone: [ErrForbidden] when it gives a host path for every
    path of the call, and else its own error or panic for the first path
    (source before destination) it does not accept. *)
Theorem readonly_mount_never_reaches_the_host
    (path other : string) (flags : FileAttrFlags) (attributes : FileStat) (w : W) :
  Write h d path w = (refusal [IntoAbsPath d path], w) /\
  SetStat h d path flags attributes w = (refusal [IntoAbsPath d path], w) /\
  Rename h d path other w = (refusal [IntoAbsPath d path; IntoAbsPath d other], w) /\
  Rmdir h d path w = (refusal [IntoAbsPath d path], w) /\
  Rm h d path w = (refusal [IntoAbsPath d path], w) /\
  Mkdir h d path w = (refusal [IntoAbsPath d path], w) /\
  Link h d path other w = (refusal [IntoAbsPath d path; IntoAbsPath d other], w) /\
  Symlink h d path other w = (refusal [IntoAbsPath d path; IntoAbsPath d other], w).
Proof.
  split; [apply guarded_refused|].
  split; [apply guarded_refused|].
  split; [apply (guarded2_refused path other false)|].
  split; [apply guarded_refused|].
  split; [apply guarded_refused|].
  split; [apply guarded_refused|].
  split; [apply (guarded2_refused path other true)|].
  apply (guarded2_refused path other true).
Qed.

End ReadOnly.

(** On the recording host nothing is recorded: creating [/new] and
    removing [/x.txt] are forbidden, and a rename whose destination climbs
    out of the mount has the path error of the destination. *)
Lemma readonly_mount_never_reaches_the_host_witness :
  Write RecordingHost.host RecordingHost.readOnlyDocs "/new" [] = (Err ErrForbidden, []) /\
  Rm RecordingHost.host RecordingHost.readOnlyDocs "/new" [] = (Err ErrForbidden, []) /\
  Rename RecordingHost.host RecordingHost.readOnlyDocs "/new" "/../other" []
  = (Err (ErrMsg "invalid path"), []).
Proof.
  destruct (readonly_mount_never_reaches_the_host Recording.Calls unit unit
              RecordingHost.host RecordingHost.readOnlyDocs eq_refl
              "/new" "/../other" (mkFileAttrFlags false false false false)
              (mkFileStat 0 0 0 0 0 0) []) as [HWrite [_ [HRename [_ [HRm _]]]]].
  split; [exact HWrite|]. split; [exact HRm|exact HRename].
Defined.

(** X3: the lister of a native directory, called with the number of entries
    received so far and buffers of any sizes from 1 up, delivers exactly the
    cached entries in order and reports EOF within [len + 1] calls; past the
    end it delivers nothing and reports EOF; a negative offset panics; no
    call delivers more entries than the buffer holds. *)
Theorem dirLister_delivers_the_cached_entries
    (fileinfos : list FileInfo) (sizes : list nat) (fuel : nat) :
  (len64 fileinfos < 2 ^ 63)%Z ->
  Forall (fun lenLs => 1 <= lenLs) sizes ->
  List.length fileinfos < List.length sizes ->
  Caller.drain fuel (PermWrapper.PassThrough (dirLister fileinfos)) sizes 0
    = Ok (fileinfos, true)
  /\ (forall (lenLs : nat) (offset : Z),
        (len64 fileinfos <= offset)%Z ->
        dirLister fileinfos lenLs offset = Ok (0%Z, [], Some EOF))
  /\ (forall (lenLs : nat) (offset : Z),
        (offset < 0)%Z -> dirLister fileinfos lenLs offset = Panic)
  /\ (forall (lenLs : nat) (offset n : Z) (entries : list FileInfo)
             (err : option error),
        dirLister fileinfos lenLs offset = Ok (n, entries, err) ->
        n = len64 entries /\ List.length entries <= lenLs).
Proof.
  intros Hfits Hsizes Hlong. split; [|split; [|split]].
  - destruct (FilterFacts.drain_passthrough fileinfos Hfits fuel sizes 0 Hsizes)
      as [out [eof [o' [Hd [Ho' [Hf [He Hcount]]]]]]]; [lia|].
    cbn [firstn app] in Hf. change (Z.of_nat 0) with 0%Z in Hd.
    destruct eof.
    + specialize (He eq_refl). subst o'. rewrite firstn_all in Hf. subst out.
      exact Hd.
    + specialize (Hcount eq_refl).
      assert (List.length out <= List.length fileinfos)
        by (rewrite <- Hf, length_firstn; lia).
      lia.
  - intros lenLs offset Hoff. unfold dirLister.
    destruct (offset >=? len64 fileinfos)%Z eqn:E; [reflexivity|lia].
  - intros lenLs offset Hneg. unfold dirLister, len64.
    destruct (offset >=? Z.of_nat (List.length fileinfos))%Z eqn:E; [lia|].
    destruct (offset <? 0)%Z eqn:E2; [reflexivity|lia].
  - intros lenLs offset n entries err H. unfold dirLister in H.
    destruct (offset >=? len64 fileinfos)%Z.
    { injection H as <- <- _. split; [reflexivity|simpl; lia]. }
    destruct (offset <? 0)%Z; [discriminate|].
    destruct (List.length (firstn lenLs (skipn (Z.to_nat offset) fileinfos)) <? lenLs);
      injection H as <- <- _; (split; [reflexivity|rewrite length_firstn; lia]).
Qed.

Lemma dirLister_delivers_the_cached_entries_witness :
  Caller.drain 6 (PermWrapper.PassThrough (dirLister Recording.fiveEntries))
    [2; 2; 1; 3; 1; 1] 0
  = Ok (Recording.fiveEntries, true).
Proof.
  apply (dirLister_delivers_the_cached_entries Recording.fiveEntries
           [2; 2; 1; 3; 1; 1] 6).
  - vm_compute. reflexivity.
  - repeat constructor.
  - simpl. lia.
Defined.

Lemma prefix_refl (s : string) : String.prefix s s = true.
Proof.
  induction s as [|a s IH]; [reflexivity|].
  simpl. destruct (ascii_dec a a); [exact IH|congruence].
Qed.

Section Fence.

Variable W : Type.
Variables ReaderAt WriterAt : Type.
Variable h : Host W ReaderAt WriterAt.
Variable d : DirFs.

Let fenced := fence (Root d) h.

Ltac contained E :=
  apply DirMountFacts.IntoAbsPath_begins_with_root in E;
  unfold fenced, fence; cbn; rewrite ?E; cbn; try reflexivity.

Lemma statOfRoot_fenced (w : W) : statOfRoot fenced d w = statOfRoot h d w.
Proof.
  unfold statOfRoot, fenced, fence. cbn. rewrite prefix_refl. reflexivity.
Qed.

(** X2: every operation of a native mount other than [ReadLink] calls
    package os only on paths that begin with the root of the mount: behind a
    fence that panics on every other path, the operations behave as without
    it. *)
Theorem host_calls_stay_under_root
    (path other : string) (flags : FileAttrFlags) (attributes : FileStat) (w : W) :
  List fenced d path w = List h d path w /\
  Stat fenced d path w = Stat h d path w /\
  Lstat fenced d path w = Lstat h d path w /\
  Read fenced d path w = Read h d path w /\
  Write fenced d path w = Write h d path w /\
  SetStat fenced d path flags attributes w = SetStat h d path flags attributes w /\
  Rename fenced d path other w = Rename h d path other w /\
  Rmdir fenced d path w = Rmdir h d path w /\
  Rm fenced d path w = Rm h d path w /\
  Mkdir fenced d path w = Mkdir h d path w /\
  Link fenced d path other w = Link h d path other w /\
  Symlink fenced d path other w = Symlink h d path other w.
Proof.
  repeat split.
  - unfold List, DirMount.List, mbind, ret.
    destruct (IntoAbsPath d path) as [abspath| | |] eqn:E; try reflexivity.
    contained E.
  - unfold Stat. destruct (String.eqb path "/"); [apply statOfRoot_fenced|].
    unfold mbind, ret.
    destruct (IntoAbsPath d path) as [abspath| | |] eqn:E; try reflexivity.
    contained E.
  - unfold Lstat. destruct (String.eqb path "/"); [apply statOfRoot_fenced|].
    unfold mbind, ret.
    destruct (IntoAbsPath d path) as [abspath| | |] eqn:E; try reflexivity.
    contained E.
  - unfold Read, mbind, ret.
    destruct (IntoAbsPath d path) as [abspath| | |] eqn:E; try reflexivity.
    contained E.
  - unfold Write, mbind, ret.
    destruct (IntoAbsPath d path) as [abspath| | |] eqn:E; try reflexivity.
    contained E.
  - unfold SetStat, whenFlag, mbind, ret.
    destruct (IntoAbsPath d path) as [abspath| | |] eqn:E; try reflexivity.
    contained E.
  - unfold Rename, mbind, ret.
    destruct (IntoAbsPath d path) as [absSrc| | |] eqn:E; try reflexivity.
    destruct (IntoAbsPath d other) as [absDst| | |] eqn:E2; try reflexivity.
    apply DirMountFacts.IntoAbsPath_begins_with_root in E2.
    contained E. rewrite E2. reflexivity.
  - unfold Rmdir, mbind, ret.
    destruct (IntoAbsPath d path) as [abspath| | |] eqn:E; try reflexivity.
    contained E.
  - unfold Rm, mbind, ret.
    destruct (IntoAbsPath d path) as [abspath| | |] eqn:E; try reflexivity.
    contained E.
  - unfold Mkdir, mbind, ret.
    destruct (IntoAbsPath d path) as [abspath| | |] eqn:E; try reflexivity.
    contained E.
  - unfold Link, mbind, ret.
    destruct (IntoAbsPath d path) as [absSrc| | |] eqn:E; try reflexivity.
    destruct (IntoAbsPath d other) as [absDst| | |] eqn:E2; try reflexivity.
    apply DirMountFacts.IntoAbsPath_begins_with_root in E2.
    contained E. rewrite E2. reflexivity.
  - unfold Symlink, mbind, ret.
    destruct (IntoAbsPath d path) as [absSrc| | |] eqn:E; try reflexivity.
    destruct (IntoAbsPath d other) as [absDst| | |] eqn:E2; try reflexivity.
    apply DirMountFacts.IntoAbsPath_begins_with_root in E2.
    contained E. rewrite E2. reflexivity.
Qed.

End Fence.

End DirMountOpsFacts.

(** ** UnionMount: how a path is resolved to a mount *)

Module UnionResolveFacts.
Import PathGuard UnionMount UnionMountOps.

Lemma substring_whole (s : string) : String.substring 0 (String.length s) s = s.
Proof. induction s as [|a s IH]; [reflexivity|]. simpl. rewrite IH. reflexivity. Qed.

Lemma substring_prefix_app (n r : string) :
  String.substring 0 (String.length n) (n ++ r) = n.
Proof.
  induction n as [|a n IH]; simpl.
  - destruct r; reflexivity.
  - rewrite IH. reflexivity.
Qed.

Lemma sliceFrom_app (n r : string) : sliceFrom (String.length n) (n ++ r) = r.
Proof.
  unfold sliceFrom. induction n as [|a n IH]; simpl.
  - rewrite Nat.sub_0_r. apply substring_whole.
  - exact IH.
Qed.

Lemma length_app (n r : string) :
  String.length (n ++ r) = String.length n + String.length r.
Proof. induction n as [|a n IH]; simpl; [reflexivity|]. rewrite IH. reflexivity. Qed.

Lemma prefix_split (n p : string) :
  String.length n <= String.length p ->
  String.substring 0 (String.length n) p = n ->
  p = (n ++ sliceFrom (String.length n) p)%string.
Proof.
  unfold sliceFrom. revert p. induction n as [|a n IH]; intros p Hlen Hsub; simpl.
  - rewrite Nat.sub_0_r, substring_whole. reflexivity.
  - destruct p as [|b p]; simpl in *; [lia|].
    injection Hsub as -> Hsub. f_equal. apply IH; [lia|exact Hsub].
Qed.

Lemma noSlash_app_unique (n1 n2 r1 r2 : string) :
  noSlash n1 = true -> noSlash n2 = true -> isRest r1 -> isRest r2 ->
  (n1 ++ r1)%string = (n2 ++ r2)%string -> n1 = n2 /\ r1 = r2.
Proof.
  revert n2. induction n1 as [|a n1 IH]; intros n2 H1 H2 R1 R2 E.
  - destruct n2 as [|b n2]; [split; [reflexivity|exact E]|].
    simpl in E, H2. apply andb_prop in H2 as [Hb _].
    destruct R1 as [->|[r' ->]]; [discriminate|].
    injection E as <- _. unfold slash in Hb. rewrite Ascii.eqb_refl in Hb. discriminate.
  - simpl in H1. apply andb_prop in H1 as [Ha H1].
    destruct n2 as [|b n2].
    + simpl in E. destruct R2 as [->|[r' ->]]; [discriminate|].
      injection E as -> _. unfold slash in Ha. rewrite Ascii.eqb_refl in Ha. discriminate.
    + simpl in E, H2. apply andb_prop in H2 as [_ H2]. injection E as -> E.
      destruct (IH n2 H1 H2 R1 R2 E) as [-> ->]. split; reflexivity.
Qed.

Section Resolve.

Variable Mount : Type.

Lemma extractFrom_hit (name : string) (sfs : Mount) (dirs : list (string * Mount))
    (r : string) :
  isRest r ->
  extractFrom ((name, sfs) :: dirs) (name ++ r)
  = Ok (if String.eqb r "" then "/" else r, sfs).
Proof.
  intros R. cbn [extractFrom].
  rewrite length_app, substring_prefix_app, String.eqb_refl, sliceFrom_app.
  replace (String.length name <=? String.length name + String.length r) with true
    by (symmetry; apply Nat.leb_le; lia).
  cbn [andb].
  destruct R as [->|[r' ->]]; reflexivity.
Qed.

Lemma extractFrom_miss (name : string) (sfs : Mount) (dirs : list (string * Mount))
    (p : string) :
  (forall r : string, isRest r -> p <> (name ++ r)%string) ->
  extractFrom ((name, sfs) :: dirs) p = extractFrom dirs p.
Proof.
  intros Hmiss. cbn [extractFrom].
  destruct (String.length name <=? String.length p) eqn:Hlen; [|reflexivity].
  destruct (String.eqb (String.substring 0 (String.length name) p) name) eqn:Hsub;
    [|reflexivity].
  cbn [andb]. apply Nat.leb_le in Hlen. apply String.eqb_eq in Hsub.
  pose proof (prefix_split name p Hlen Hsub) as Hp.
  destruct (sliceFrom (String.length name) p) as [|a r'] eqn:Hr.
  - exfalso. apply (Hmiss ""); [left; reflexivity|exact Hp].
  - cbn. destruct (Ascii.eqb a slash) eqn:Ha; [|reflexivity].
    apply Ascii.eqb_eq in Ha. subst a.
    exfalso. apply (Hmiss (String slash r')); [right; eauto|exact Hp].
Qed.

(** What [extractFrom] can return at all. *)
Lemma extractFrom_outcomes (dirs : list (string * Mount)) (p : string) :
  extractFrom dirs p = Err ErrNotExist
  \/ exists (name : string) (sfs : Mount) (r : string),
       In (name, sfs) dirs /\ isRest r /\ p = (name ++ r)%string
       /\ extractFrom dirs p = Ok (if String.eqb r "" then "/" else r, sfs).
Proof.
  induction dirs as [|[name sfs] dirs IH]; [left; reflexivity|].
  destruct (String.length name <=? String.length p) eqn:Hlen.
  - destruct (String.eqb (String.substring 0 (String.length name) p) name) eqn:Hsub.
    + apply Nat.leb_le in Hlen. apply String.eqb_eq in Hsub.
      pose proof (prefix_split name p Hlen Hsub) as Hp.
      destruct (sliceFrom (String.length name) p) as [|a r'] eqn:Hr.
      * right. exists name, sfs, "". split; [left; reflexivity|].
        split; [left; reflexivity|]. split; [exact Hp|].
        rewrite Hp at 1. apply extractFrom_hit. left; reflexivity.
      * destruct (Ascii.eqb a slash) eqn:Ha.
        -- apply Ascii.eqb_eq in Ha. subst a.
           right. exists name, sfs, (String slash r').
           split; [left; reflexivity|]. split; [right; eauto|]. split; [exact Hp|].
           rewrite Hp at 1. apply extractFrom_hit. right; eauto.
        -- cbn [extractFrom].
           apply Nat.leb_le in Hlen. rewrite Hlen.
           rewrite Hsub, String.eqb_refl, Hr. cbn. rewrite Ha.
           destruct IH as [IH|[n [s [r [Hin H]]]]]; [left; exact IH|].
           right. exists n, s, r. split; [right; exact Hin|exact H].
    + cbn [extractFrom]. rewrite Hlen, Hsub. cbn [andb].
      destruct IH as [IH|[n [s [r [Hin H]]]]]; [left; exact IH|].
      right. exists n, s, r. split; [right; exact Hin|exact H].
  - cbn [extractFrom]. rewrite Hlen. cbn [andb].
    destruct IH as [IH|[n [s [r [Hin H]]]]]; [left; exact IH|].
    right. exists n, s, r. split; [right; exact Hin|exact H].
Qed.

Lemma extractFrom_resolves (dirs : list (string * Mount)) (name : string) (sfs : Mount)
    (r : string) :
  NoDup (map fst dirs) ->
  Forall (fun e => noSlash (fst e) = true) dirs ->
  In (name, sfs) dirs ->
  isRest r ->
  extractFrom dirs (name ++ r) = Ok (if String.eqb r "" then "/" else r, sfs).
Proof.
  intros Hnd Hns Hin R.
  induction dirs as [|[n0 s0] dirs IH]; [contradiction|].
  cbn [map fst] in Hnd. inversion Hnd as [|? ? Hnotin Hnd']; subst.
  inversion Hns as [|? ? Hn0 Hns']; subst. cbn [fst] in Hn0.
  destruct Hin as [Hin|Hin].
  - injection Hin as -> ->. apply extractFrom_hit. exact R.
  - assert (Hname : noSlash name = true).
    { rewrite Forall_forall in Hns'. apply (Hns' (name, sfs) Hin). }
    rewrite extractFrom_miss; [apply IH; assumption|].
    intros r0 R0 E.
    destruct (noSlash_app_unique name n0 r r0 Hname Hn0 R R0 E) as [-> _].
    apply Hnotin. apply (in_map fst) in Hin. exact Hin.
Qed.

Variable c : CombinedFS Mount.

Lemma Extract_rooted (p : string) : Extract c (String slash p) = extractFrom (Dirs c) p.
Proof.
  unfold Extract. cbn. unfold sliceFrom. cbn. rewrite Nat.sub_0_r, substring_whole.
  reflexivity.
Qed.

End Resolve.

Lemma app_empty (n : string) : (n ++ "")%string = n.
Proof. induction n as [|a n IH]; [reflexivity|]. simpl. rewrite IH. reflexivity. Qed.

Lemma Extract_at_mount (Mount : Type) (c : CombinedFS Mount) (name : string) (sfs : Mount) :
  plainNames c -> In (name, sfs) (Dirs c) -> Extract c ("/" ++ name) = Ok ("/", sfs).
Proof.
  intros [Hnd Hns] Hin.
  change ("/" ++ name)%string with (String slash name). rewrite Extract_rooted.
  pose proof (extractFrom_resolves Mount (Dirs c) name sfs "" Hnd Hns Hin
                (or_introl eq_refl)) as H.
  cbn in H. rewrite app_empty in H. exact H.
Qed.

Lemma Extract_below_mount (Mount : Type) (c : CombinedFS Mount) (name : string)
    (sfs : Mount) (rest : string) :
  plainNames c -> In (name, sfs) (Dirs c) ->
  Extract c ("/" ++ name ++ "/" ++ rest) = Ok (("/" ++ rest)%string, sfs).
Proof.
  intros [Hnd Hns] Hin.
  change ("/" ++ name ++ "/" ++ rest)%string
    with (String slash (name ++ String slash rest)).
  rewrite Extract_rooted.
  apply (extractFrom_resolves Mount (Dirs c) name sfs (String slash rest) Hnd Hns Hin).
  right. eauto.
Qed.

(** X4: a union whose mount names are distinct and free of slashes resolves
    [/name] to the root of the mount [name] and [/name/rest] to [/rest] in
    that mount, whatever the order in which the map of mounts is visited. *)
Theorem Extract_finds_the_mount_in_any_order
    (Mount : Type) (c : CombinedFS Mount) (name : string) (sfs : Mount) :
  plainNames c ->
  In (name, sfs) (Dirs c) ->
  Extract c ("/" ++ name) = Ok ("/", sfs)
  /\ forall rest : string,
       Extract c ("/" ++ name ++ "/" ++ rest) = Ok (("/" ++ rest)%string, sfs).
Proof.
  intros Hplain Hin. split.
  - apply Extract_at_mount; assumption.
  - intros rest. apply Extract_below_mount; assumption.
Qed.

Lemma Extract_finds_the_mount_in_any_order_witness :
  Extract Recording.twoMounts "/docs" = Ok ("/", 1)
  /\ forall rest : string,
       Extract Recording.twoMounts ("/" ++ "docs" ++ "/" ++ rest)
       = Ok (("/" ++ rest)%string, 1).
Proof.
  apply (Extract_finds_the_mount_in_any_order nat Recording.twoMounts "docs" 1).
  - split.
    + cbn. repeat constructor; cbn; intuition discriminate.
    + repeat constructor.
  - right. left. reflexivity.
Defined.

(** X5: [Extract] panics on the empty path and on no other.  On every other
    path it returns [ErrNotExist] or a mount of [Dirs] with a sub-path that
    begins with a slash; the path, without its leading slash, is the name of
    that mount followed by the sub-path, or the bare name when the sub-path
    is [/]. *)
Theorem Extract_panics_on_empty_only
    (Mount : Type) (c : CombinedFS Mount) :
  Extract c "" = Panic
  /\ forall path : string, path <> "" ->
       Extract c path = Err ErrNotExist
       \/ exists (name : string) (sfs : Mount) (sub : string),
            Extract c path = Ok (String slash sub, sfs)
            /\ In (name, sfs) (Dirs c)
            /\ ((path = (name ++ String slash sub)%string
                 \/ path = String slash (name ++ String slash sub))
                \/ (sub = "" /\ (path = name \/ path = String slash name))).
Proof.
  split; [reflexivity|].
  intros path Hne. destruct path as [|a p]; [contradiction|].
  assert (Happ : forall n : string, (n ++ "")%string = n).
  { clear. induction n as [|x n IH]; [reflexivity|]. simpl. rewrite IH. reflexivity. }
  assert (H : forall q : string,
             Extract c (String a p) = extractFrom (Dirs c) q ->
             (String a p = q \/ String a p = String slash q) ->
             Extract c (String a p) = Err ErrNotExist
             \/ exists (name : string) (sfs : Mount) (sub : string),
                  Extract c (String a p) = Ok (String slash sub, sfs)
                  /\ In (name, sfs) (Dirs c)
                  /\ ((String a p = (name ++ String slash sub)%string
                       \/ String a p = String slash (name ++ String slash sub))
                      \/ (sub = "" /\ (String a p = name \/ String a p = String slash name)))).
  { intros q Hq Hshape. rewrite Hq.
    destruct (extractFrom_outcomes Mount (Dirs c) q)
      as [E|[name [sfs [r [Hin [R [Hp E]]]]]]]; [left; exact E|].
    right. destruct R as [->|[r' ->]].
    - exists name, sfs, "". split; [exact E|]. split; [exact Hin|]. right.
      split; [reflexivity|]. rewrite Happ in Hp. subst q.
      destruct Hshape as [->| ->]; [left|right]; reflexivity.
    - exists name, sfs, r'. split; [exact E|]. split; [exact Hin|]. left. subst q.
      destruct Hshape as [->| ->]; [left|right]; reflexivity. }
  destruct (Ascii.eqb a slash) eqn:Ha.
  - apply Ascii.eqb_eq in Ha. subst a. apply (H p); [apply Extract_rooted|right; reflexivity].
  - apply (H (String a p)); [|left; reflexivity].
    unfold Extract. cbn. rewrite Ha. reflexivity.
Qed.

Lemma Extract_panics_on_empty_only_witness :
  Extract Recording.twoMounts "/docs/a" = Err ErrNotExist
  \/ exists (name : string) (sfs : nat) (sub : string),
       Extract Recording.twoMounts "/docs/a" = Ok (String slash sub, sfs)
       /\ In (name, sfs) (Dirs Recording.twoMounts)
       /\ (("/docs/a" = (name ++ String slash sub)%string
            \/ "/docs/a" = String slash (name ++ String slash sub))
           \/ (sub = "" /\ ("/docs/a" = name \/ "/docs/a" = String slash name))).
Proof.
  apply (proj2 (Extract_panics_on_empty_only nat Recording.twoMounts) "/docs/a").
  discriminate.
Defined.


Lemma splitAcc_noSlash (cur name : string) :
  noSlash name = true -> splitAcc cur name = [(cur ++ name)%string].
Proof.
  revert cur. induction name as [|a n IH]; intros cur H.
  - simpl. f_equal. clear. induction cur as [|x cur IH]; [reflexivity|].
    simpl. rewrite <- IH. reflexivity.
  - simpl in H. apply andb_prop in H as [Ha H]. apply negb_true_iff in Ha.
    cbn [splitAcc]. rewrite Ha, (IH _ H). f_equal.
    clear. induction cur as [|x cur IH]; [reflexivity|]. simpl. rewrite IH. reflexivity.
Qed.

Lemma stripTrailing_noSlash (name : string) :
  noSlash name = true -> stripTrailing name = name.
Proof.
  induction name as [|a n IH]; intros H; [reflexivity|].
  simpl in H. apply andb_prop in H as [Ha H]. apply negb_true_iff in Ha.
  cbn [stripTrailing]. rewrite (IH H), Ha. destruct n; reflexivity.
Qed.

(** The last element of [/name] is [name]. *)
Lemma Base_of_mount (name : string) :
  noSlash name = true -> name <> "" -> Base (String slash name) = name.
Proof.
  intros H Hne. unfold Base. cbn [String.eqb]. 
  replace (stripTrailing (String slash name)) with (String slash name).
  - unfold split. cbn [splitAcc]. unfold slash at 1. cbn [Ascii.eqb Bool.eqb].
    rewrite (splitAcc_noSlash "" name H). cbn.
    destruct name as [|a n]; [contradiction|reflexivity].
  - cbn [stripTrailing]. rewrite (stripTrailing_noSlash name H).
    destruct name as [|a n]; [contradiction|reflexivity].
Qed.

Lemma rooted_neq_root (a : ascii) (p : string) : String.eqb (String slash (String a p)) "/" = false.
Proof. reflexivity. Qed.

Lemma twoMounts_plain : plainNames Recording.twoMounts.
Proof.
  split.
  - cbn. repeat constructor; cbn; intuition discriminate.
  - repeat constructor.
Qed.

Lemma mbind_ret_Ok {W A : Type} (m : M W A) (w : W) :
  mbind m (fun a => ret (Ok a)) w = m w.
Proof. unfold mbind, ret. destruct (m w) as [[a|e| |] w']; reflexivity. Qed.

Lemma below_neq_root (name rest : string) :
  String.eqb ("/" ++ name ++ "/" ++ rest) "/" = false.
Proof. destruct name; reflexivity. Qed.

Lemma sub_isRoot (rest : string) : rest <> "" -> isRoot ("/" ++ rest) = false.
Proof. intros H. destruct rest; [contradiction|reflexivity]. Qed.

Section Below.

Variable W : Type.
Variables ReaderAt WriterAt FileAttrFlags FileStat : Type.

Let FS := SimplifiedFS W ReaderAt WriterAt FileAttrFlags FileStat.

Variable readAt : ReaderAt -> nat -> Z -> M W (list ascii * option error).
Variable writeAt : WriterAt -> list ascii -> Z -> M W (Z * option error).
Variable Mount : Type.
Variable ops : Mount -> FS.
Variable sameFS : Mount -> Mount -> res bool.
Variable asOsDirFS : Mount -> option OsDirFS.
Variables os_Rename os_Link os_Symlink : string -> string -> M W unit.
Variable c : CombinedFS Mount.

Variable name : string.
Variable sfs : Mount.

Hypothesis plain : plainNames c.
Hypothesis mounted : In (name, sfs) (Dirs c).

Local Abbreviation below rest := ("/" ++ name ++ "/" ++ rest)%string.

(** X6: below a mount the union is transparent: on [/name/rest], with
    [rest] not empty, every operation on one path is the operation of the
    mount [name] on [/rest], with its outcome and its effect on the world
    ([Read] and [List] wrap the reader and the lister they get). *)
Theorem union_is_transparent_below_a_mount
    (rest : string) (flags : FileAttrFlags) (attributes : FileStat) (w : W) :
  rest <> "" ->
  UnionMountOps.Stat ops c (below rest) w = fsStat (ops sfs) ("/" ++ rest) w
  /\ UnionMountOps.Lstat ops c (below rest) w = fsLstat (ops sfs) ("/" ++ rest) w
  /\ UnionMountOps.ReadLink ops c (below rest) w = fsReadLink (ops sfs) ("/" ++ rest) w
  /\ UnionMountOps.Read ops c (below rest) w
     = (reader <~ fsRead (ops sfs) ("/" ++ rest) ;; ret (Ok (MountReader reader))) w
  /\ UnionMountOps.Write ops c (below rest) w = fsWrite (ops sfs) ("/" ++ rest) w
  /\ UnionMountOps.SetStat ops c (below rest) flags attributes w
     = fsSetStat (ops sfs) ("/" ++ rest) flags attributes w
  /\ UnionMount.List ops c (below rest) w
     = (iter <~ fsList (ops sfs) ("/" ++ rest) ;; ret (Ok (SubLister iter))) w
  /\ UnionMount.Rmdir ops c (below rest) w = fsRmdir (ops sfs) ("/" ++ rest) w
  /\ UnionMount.Rm ops c (below rest) w = fsRm (ops sfs) ("/" ++ rest) w
  /\ UnionMount.Mkdir ops c (below rest) w = fsMkdir (ops sfs) ("/" ++ rest) w.
Proof.
  intros Hrest.
  pose proof (Extract_below_mount Mount c name sfs rest plain mounted) as HE.
  pose proof (below_neq_root name rest) as Hroot.
  pose proof (sub_isRoot rest Hrest) as Hsub.
  assert (Hsub' : String.eqb ("/" ++ rest) "/" = false) by exact Hsub.
  unfold UnionMountOps.Stat, UnionMountOps.Lstat, statLike, UnionMountOps.ReadLink,
    UnionMountOps.Read, UnionMountOps.Write, UnionMountOps.SetStat, UnionMount.List,
    UnionMount.Rmdir, UnionMount.Rm, UnionMount.Mkdir, isRoot.
  rewrite Hroot, HE.
  repeat split; unfold mbind at 1; unfold ret at 1; try rewrite Hsub'; try reflexivity.
  - apply mbind_ret_Ok.
  - apply mbind_ret_Ok.
Qed.

(** X7: the operations on two paths, when both lie below the same mount
    and the mount's value compares equal to itself: [Rename] (of two
    different paths), [Link] and [Symlink] are the mount's operations on the
    two sub-paths. *)
Theorem union_is_transparent_within_a_mount
    (a b : string) (fuel : nat) (w : W) :
  a <> "" -> b <> "" ->
  sameFS sfs sfs = Ok true ->
  (a <> b ->
   UnionMount.Rename readAt writeAt ops sameFS asOsDirFS os_Rename c fuel (below a) (below b) w
   = fsRename (ops sfs) ("/" ++ a) ("/" ++ b) w)
  /\ UnionMount.Link ops sameFS asOsDirFS os_Link c (below a) (below b) w
     = fsLink (ops sfs) ("/" ++ a) ("/" ++ b) w
  /\ UnionMount.Symlink ops sameFS asOsDirFS os_Symlink c (below a) (below b) w
     = fsSymlink (ops sfs) ("/" ++ a) ("/" ++ b) w.
Proof.
  intros Ha Hb Hsame.
  pose proof (Extract_below_mount Mount c name sfs a plain mounted) as HEa.
  pose proof (Extract_below_mount Mount c name sfs b plain mounted) as HEb.
  pose proof (below_neq_root name a) as Hra.
  pose proof (below_neq_root name b) as Hrb.
  pose proof (sub_isRoot a Ha) as Hsa.
  pose proof (sub_isRoot b Hb) as Hsb.
  split; [|split].
  - intros Hab.
    assert (Hne : String.eqb (below a) (below b) = false).
    { apply String.eqb_neq. intros E. apply Hab.
      injection E as E. clear - E. induction name as [|x n IH]; simpl in E.
      - injection E as E. exact E.
      - injection E as E. apply IH. exact E. }
    unfold UnionMount.Rename, isRoot. rewrite Hra, Hrb, Hne, HEa, HEb.
    cbn [orb]. unfold mbind at 1. unfold ret at 1. unfold mbind at 1. unfold ret at 1.
    unfold isRoot in Hsa, Hsb. rewrite Hsa, Hsb, Hsame. cbn [orb].
    unfold mbind at 1. unfold ret at 1. reflexivity.
  - unfold UnionMount.Link, linkLike, isRoot. rewrite Hra, Hrb, HEa, HEb.
    cbn [orb]. unfold mbind at 1. unfold ret at 1. unfold mbind at 1. unfold ret at 1.
    unfold isRoot in Hsa, Hsb. rewrite Hsa, Hsb, Hsame. cbn [orb].
    unfold mbind at 1. unfold ret at 1. reflexivity.
  - unfold UnionMount.Symlink, linkLike, isRoot. rewrite Hra, Hrb, HEa, HEb.
    cbn [orb]. unfold mbind at 1. unfold ret at 1. unfold mbind at 1. unfold ret at 1.
    unfold isRoot in Hsa, Hsb. rewrite Hsa, Hsb, Hsame. cbn [orb].
    unfold mbind at 1. unfold ret at 1. reflexivity.
Qed.

(** X8: [Stat] and [Lstat] of [/name] give what the mount gives for its
    root [/], under the name of the mount; [ReadLink] passes the mount's
    answer on as it is. *)
Theorem Stat_of_a_mount_carries_its_name (w : W) :
  name <> "" ->
  UnionMountOps.Stat ops c ("/" ++ name) w
  = (stat <~ fsStat (ops sfs) "/" ;; ret (Ok (renamedFileInfo stat name))) w
  /\ UnionMountOps.Lstat ops c ("/" ++ name) w
     = (stat <~ fsLstat (ops sfs) "/" ;; ret (Ok (renamedFileInfo stat name))) w
  /\ UnionMountOps.ReadLink ops c ("/" ++ name) w = fsReadLink (ops sfs) "/" w.
Proof.
  intros Hne.
  pose proof (Extract_at_mount Mount c name sfs plain mounted) as HE.
  assert (Hns : noSlash name = true).
  { destruct plain as [_ Hall]. rewrite Forall_forall in Hall. apply (Hall (name, sfs) mounted). }
  pose proof (Base_of_mount name Hns Hne) as HB.
  change (String slash name) with ("/" ++ name)%string in HB.
  assert (Hroot : String.eqb ("/" ++ name) "/" = false).
  { destruct name; [contradiction|reflexivity]. }
  unfold UnionMountOps.Stat, UnionMountOps.Lstat, statLike, UnionMountOps.ReadLink.
  rewrite Hroot, HE, HB.
  repeat split; unfold mbind at 1; unfold ret at 1; reflexivity.
Qed.

End Below.

Lemma union_is_transparent_below_a_mount_witness :
  UnionMount.Rm Recording.mountOps Recording.twoMounts ("/" ++ "docs" ++ "/" ++ "a") []
  = (Ok tt, ["Rm"])
  /\ UnionMountOps.Stat Recording.mountOps Recording.twoMounts
       ("/" ++ "docs" ++ "/" ++ "a") []
     = (Ok (Recording.rootInfo 1), ["Stat"]).
Proof.
  destruct (union_is_transparent_below_a_mount Recording.Calls unit unit unit unit nat
              Recording.mountOps Recording.twoMounts "docs" 1 twoMounts_plain
              (or_intror (or_introl eq_refl)) "a" tt tt [])
    as [HStat [_ [_ [_ [_ [_ [_ [_ [HRm _]]]]]]]]]; [discriminate|].
  split; [rewrite HRm|rewrite HStat]; reflexivity.
Defined.

Lemma union_is_transparent_within_a_mount_witness :
  Recording.renameTwoMounts 0 ("/" ++ "docs" ++ "/" ++ "a") ("/" ++ "docs" ++ "/" ++ "b") []
  = (Ok tt, ["Rename"]).
Proof.
  destruct (union_is_transparent_within_a_mount Recording.Calls unit unit unit unit
              Recording.readNothing Recording.writeAll nat Recording.mountOps
              Recording.sameMount Recording.noOsDirFS (Recording.hostOp "os.Rename")
              (Recording.hostOp "os.Link") (Recording.hostOp "os.Symlink")
              Recording.twoMounts "docs" 1 twoMounts_plain
              (or_intror (or_introl eq_refl)) "a" "b" 0 [])
    as [HRename _]; [discriminate|discriminate|reflexivity|].
  unfold Recording.renameTwoMounts. rewrite HRename; [reflexivity|discriminate].
Defined.

Lemma Stat_of_a_mount_carries_its_name_witness :
  UnionMountOps.Stat Recording.mountOps Recording.twoMounts ("/" ++ "docs") []
  = (Ok (mkFileInfo "docs" 1 493 0 true), ["Stat"]).
Proof.
  destruct (Stat_of_a_mount_carries_its_name Recording.Calls unit unit unit unit nat
              Recording.mountOps Recording.twoMounts "docs" 1 twoMounts_plain
              (or_intror (or_introl eq_refl)) [])
    as [HStat _]; [discriminate|].
  rewrite HStat. reflexivity.
Defined.


Lemma below_injective (n1 n2 a b : string) :
  noSlash n1 = true -> noSlash n2 = true ->
  ("/" ++ n1 ++ "/" ++ a)%string = ("/" ++ n2 ++ "/" ++ b)%string -> n1 = n2.
Proof.
  intros H1 H2 E. injection E as E.
  apply (noSlash_app_unique n1 n2 (String slash a) (String slash b) H1 H2); 
    [right; eauto|right; eauto|exact E].
Qed.

Section Across.

Variable W : Type.
Variables ReaderAt WriterAt FileAttrFlags FileStat : Type.

Let FS := SimplifiedFS W ReaderAt WriterAt FileAttrFlags FileStat.

Variable readAt : ReaderAt -> nat -> Z -> M W (list ascii * option error).
Variable writeAt : WriterAt -> list ascii -> Z -> M W (Z * option error).
Variable Mount : Type.
Variable ops : Mount -> FS.
Variable sameFS : Mount -> Mount -> res bool.
Variable asOsDirFS : Mount -> option OsDirFS.
Variables os_Rename os_Link os_Symlink : string -> string -> M W unit.
Variable c : CombinedFS Mount.

Variables srcName dstName : string.
Variables srcSfs dstSfs : Mount.

Hypothesis plain : plainNames c.
Hypothesis srcMounted : In (srcName, srcSfs) (Dirs c).
Hypothesis dstMounted : In (dstName, dstSfs) (Dirs c).
Hypothesis different : sameFS srcSfs dstSfs = Ok false.
Hypothesis notBothNative : asOsDirFS srcSfs = None \/ asOsDirFS dstSfs = None.

(** X9: between two mounts that are not the same value and not both native
    directories, [Link] and [Symlink] are refused with their own error and
    no mount is called. *)
Theorem links_across_mounts_are_refused (a b : string) (w : W) :
  a <> "" -> b <> "" ->
  UnionMount.Link ops sameFS asOsDirFS os_Link c
    ("/" ++ srcName ++ "/" ++ a) ("/" ++ dstName ++ "/" ++ b) w
  = (Err (ErrMsg "cannot link between different file systems"), w)
  /\ UnionMount.Symlink ops sameFS asOsDirFS os_Symlink c
       ("/" ++ srcName ++ "/" ++ a) ("/" ++ dstName ++ "/" ++ b) w
     = (Err (ErrMsg "cannot symlink between different file systems"), w).
Proof.
  intros Ha Hb.
  pose proof (Extract_below_mount Mount c srcName srcSfs a plain srcMounted) as HEa.
  pose proof (Extract_below_mount Mount c dstName dstSfs b plain dstMounted) as HEb.
  pose proof (below_neq_root srcName a) as Hra.
  pose proof (below_neq_root dstName b) as Hrb.
  pose proof (sub_isRoot a Ha) as Hsa.
  pose proof (sub_isRoot b Hb) as Hsb.
  unfold UnionMount.Link, UnionMount.Symlink, linkLike, isRoot.
  rewrite Hra, Hrb, HEa, HEb. cbn [orb].
  unfold isRoot in Hsa, Hsb.
  split; unfold mbind at 1; unfold ret at 1; unfold mbind at 1; unfold ret at 1;
    rewrite Hsa, Hsb, different; cbn [orb]; unfold mbind at 1; unfold ret at 1;
    (destruct (asOsDirFS srcSfs) as [srcDirFs|];
     [destruct (asOsDirFS dstSfs) as [dstDirFs|];
      [destruct notBothNative; discriminate|]|]; reflexivity).
Qed.

(** X10: a rename between two such mounts first asks the source mount,
    then the destination mount, for the stat of the path.  When the source
    mount reports an error the rename ends with it; when both report a stat
    the rename ends with the error [target path exists].  In both cases the
    world is the one the stat calls left: nothing is read, written, created or
    removed. *)
Theorem rename_across_mounts_keeps_an_existing_target
    (a b : string) (fuel : nat) (w : W) :
  srcName <> dstName -> a <> "" -> b <> "" ->
  (forall (e : error) (w1 : W),
      fsStat (ops srcSfs) ("/" ++ a) w = (Err e, w1) ->
      UnionMount.Rename readAt writeAt ops sameFS asOsDirFS os_Rename c fuel
        ("/" ++ srcName ++ "/" ++ a) ("/" ++ dstName ++ "/" ++ b) w
      = (Err e, w1))
  /\ (forall (srcStat dstStat : FileInfo) (w1 w2 : W),
      fsStat (ops srcSfs) ("/" ++ a) w = (Ok srcStat, w1) ->
      fsStat (ops dstSfs) ("/" ++ b) w1 = (Ok dstStat, w2) ->
      UnionMount.Rename readAt writeAt ops sameFS asOsDirFS os_Rename c fuel
        ("/" ++ srcName ++ "/" ++ a) ("/" ++ dstName ++ "/" ++ b) w
      = (Err (ErrMsg "target path exists"), w2)).
Proof.
  intros Hnames Ha Hb.
  pose proof (Extract_below_mount Mount c srcName srcSfs a plain srcMounted) as HEa.
  pose proof (Extract_below_mount Mount c dstName dstSfs b plain dstMounted) as HEb.
  pose proof (below_neq_root srcName a) as Hra.
  pose proof (below_neq_root dstName b) as Hrb.
  pose proof (sub_isRoot a Ha) as Hsa.
  pose proof (sub_isRoot b Hb) as Hsb.
  assert (Hne : String.eqb ("/" ++ srcName ++ "/" ++ a) ("/" ++ dstName ++ "/" ++ b) = false).
  { apply String.eqb_neq. intros E. apply Hnames.
    destruct plain as [_ Hall]. rewrite Forall_forall in Hall.
    apply (below_injective srcName dstName a b);
      [apply (Hall _ srcMounted)|apply (Hall _ dstMounted)|exact E]. }
  assert (Heq : UnionMount.Rename readAt writeAt ops sameFS asOsDirFS os_Rename c fuel
                  ("/" ++ srcName ++ "/" ++ a) ("/" ++ dstName ++ "/" ++ b) w
                = match fsStat (ops srcSfs) ("/" ++ a) w with
                  | (Ok srcStat, w1) =>
                      match fsStat (ops dstSfs) ("/" ++ b) w1 with
                      | (Ok _, w') => (Err (ErrMsg "target path exists"), w')
                      | (Err ErrNotExist, w') =>
                          (if IsDir srcStat
                           then renameDirectoryFallback readAt writeAt ops fuel srcSfs dstSfs
                                  ("/" ++ a) ("/" ++ b)
                           else renameFileFallback readAt writeAt ops fuel srcSfs dstSfs
                                  ("/" ++ a) ("/" ++ b)) w'
                      | (Err e, w') => (Err e, w')
                      | (Panic, w') => (Panic, w')
                      | (Diverge, w') => (Diverge, w')
                      end
                  | (Err e, w1) => (Err e, w1)
                  | (Panic, w1) => (Panic, w1)
                  | (Diverge, w1) => (Diverge, w1)
                  end).
  { unfold UnionMount.Rename, isRoot. rewrite Hra, Hrb, Hne, HEa, HEb. cbn [orb].
    unfold isRoot in Hsa, Hsb.
    unfold mbind at 1; unfold ret at 1; unfold mbind at 1; unfold ret at 1.
    rewrite Hsa, Hsb, different. cbn [orb]. unfold mbind at 1; unfold ret at 1.
    destruct (asOsDirFS srcSfs) as [srcDirFs|];
      [destruct (asOsDirFS dstSfs) as [dstDirFs|];
       [destruct notBothNative; discriminate|]|];
      unfold mbind at 1; destruct (fsStat (ops srcSfs) ("/" ++ a) w) as [[st|e| |] w1];
      reflexivity. }
  split.
  - intros e w1 H1. rewrite Heq, H1. reflexivity.
  - intros srcStat dstStat w1 w2 H1 H2. rewrite Heq, H1, H2. reflexivity.
Qed.

End Across.

Lemma links_across_mounts_are_refused_witness :
  UnionMount.Link Recording.mountOps Recording.sameMount Recording.noOsDirFS
    (Recording.hostOp "os.Link") Recording.twoMounts
    ("/" ++ "docs" ++ "/" ++ "a") ("/" ++ "pics" ++ "/" ++ "b") []
  = (Err (ErrMsg "cannot link between different file systems"), []).
Proof.
  apply (links_across_mounts_are_refused Recording.Calls unit unit unit unit nat
           Recording.mountOps Recording.sameMount Recording.noOsDirFS
           (Recording.hostOp "os.Link") (Recording.hostOp "os.Symlink")
           Recording.twoMounts "docs" "pics" 1 2 twoMounts_plain
           (or_intror (or_introl eq_refl)) (or_introl eq_refl) eq_refl (or_introl eq_refl)
           "a" "b" []); discriminate.
Defined.

Lemma rename_across_mounts_keeps_an_existing_target_witness :
  Recording.renameTwoMounts 0 ("/" ++ "docs" ++ "/" ++ "a") ("/" ++ "pics" ++ "/" ++ "b") []
  = (Err (ErrMsg "target path exists"), ["Stat"; "Stat"]).
Proof.
  destruct (rename_across_mounts_keeps_an_existing_target Recording.Calls unit unit unit unit
              Recording.readNothing Recording.writeAll nat Recording.mountOps
              Recording.sameMount Recording.noOsDirFS (Recording.hostOp "os.Rename")
              Recording.twoMounts "docs" "pics" 1 2 twoMounts_plain
              (or_intror (or_introl eq_refl)) (or_introl eq_refl) eq_refl (or_introl eq_refl)
              "a" "b" 0 []) as [_ H]; [discriminate|discriminate|discriminate|].
  apply (H (Recording.rootInfo 1) (Recording.rootInfo 2) ["Stat"] ["Stat"; "Stat"]);
    reflexivity.
Defined.

Lemma insertSorted_perm (s : string) (l : list string) :
  Permutation (insertSorted s l) (s :: l).
Proof.
  induction l as [|x l IH]; [apply Permutation_refl|].
  cbn [insertSorted]. destruct (String.leb s x); [apply Permutation_refl|].
  eapply Permutation_trans; [apply perm_skip; exact IH|apply perm_swap].
Qed.

Lemma sortStrings_perm (l : list string) : Permutation (sortStrings l) l.
Proof.
  induction l as [|x l IH]; [apply Permutation_refl|].
  cbn [sortStrings fold_right]. eapply Permutation_trans; [apply insertSorted_perm|].
  apply perm_skip. exact IH.
Qed.

Local Abbreviation byteOrder := (fun a b : string => String.leb a b = true).

Lemma insertSorted_sorted (s : string) (l : list string) :
  Sorted byteOrder l -> Sorted byteOrder (insertSorted s l).
Proof.
  induction l as [|x l IH]; intros Hs; cbn [insertSorted].
  - repeat constructor.
  - destruct (String.leb s x) eqn:E.
    + constructor; [exact Hs|constructor; exact E].
    + inversion Hs as [|? ? Hs' Hhd]; subst.
      constructor; [apply IH; exact Hs'|].
      destruct l as [|y l]; cbn [insertSorted].
      * constructor. destruct (String.leb_total s x) as [H|H]; [congruence|exact H].
      * destruct (String.leb s y).
        -- constructor. destruct (String.leb_total s x) as [H|H]; [congruence|exact H].
        -- inversion Hhd; subst. constructor. assumption.
Qed.

Lemma sortStrings_sorted (l : list string) : Sorted byteOrder (sortStrings l).
Proof.
  induction l as [|x l IH]; [constructor|].
  cbn [sortStrings fold_right]. apply insertSorted_sorted. exact IH.
Qed.

Lemma lookupDir_In (Mount : Type) (dirs : list (string * Mount)) (name : string) (sfs : Mount) :
  NoDup (map fst dirs) -> In (name, sfs) dirs -> lookupDir dirs name = Some sfs.
Proof.
  induction dirs as [|[k s] dirs IH]; intros Hnd Hin; [contradiction|].
  cbn [map fst] in Hnd. inversion Hnd as [|? ? Hnotin Hnd']; subst.
  cbn [lookupDir]. destruct Hin as [Hin|Hin].
  - injection Hin as -> ->. rewrite String.eqb_refl. reflexivity.
  - destruct (String.eqb k name) eqn:E.
    + apply String.eqb_eq in E. subst k. exfalso. apply Hnotin.
      apply (in_map fst) in Hin. exact Hin.
    + apply IH; assumption.
Qed.

Section WholeRoot.

Variable W : Type.
Variables ReaderAt WriterAt FileAttrFlags FileStat : Type.
Variable Mount : Type.
Variable ops : Mount -> SimplifiedFS W ReaderAt WriterAt FileAttrFlags FileStat.
Variable c : CombinedFS Mount.
Variable statOf : string -> FileInfo.
Variable w : W.

Hypothesis distinct : NoDup (map fst (Dirs c)).
Hypothesis stable : forall (name : string) (sfs : Mount), In (name, sfs) (Dirs c) ->
  fsStat (ops sfs) "/" w = (Ok (statOf name), w).

Lemma rootLoop_all (topDirs : list string) (lenFs : nat) :
  (forall name : string, In name topDirs -> In name (map fst (Dirs c))) ->
  (len64 topDirs < 2 ^ 63)%Z ->
  List.length topDirs <= lenFs ->
  forall (count i : nat) (fs : list FileInfo),
    i + count = List.length topDirs ->
    rootLoop ops c count topDirs lenFs 0 (Z.of_nat i) fs w
    = (Ok (inl (fs ++ map (fun name => renamedFileInfo (statOf name) name)
                        (skipn i topDirs))), w).
Proof.
  intros Hnames Hfits Hbuf. unfold len64 in Hfits.
  induction count as [|count IH]; intros i fs Hi.
  - cbn [rootLoop]. rewrite skipn_all2 by lia. cbn [map]. rewrite app_nil_r. reflexivity.
  - destruct (Basics.nth_error_in_range topDirs i) as [name Hname]; [lia|].
    cbn [rootLoop]. unfold mbind at 1. unfold ret at 1.
    unfold add64. rewrite Basics.wrap64_small by lia. rewrite Z.add_0_l.
    unfold indexZ. destruct (Z.of_nat i <? 0)%Z eqn:E0; [lia|].
    rewrite Nat2Z.id, Hname.
    assert (Hin : In name (map fst (Dirs c))).
    { apply Hnames. eapply nth_error_In. exact Hname. }
    apply in_map_iff in Hin as [[n sfs] [Hn Hin]]. cbn [fst] in Hn. subst n.
    rewrite (lookupDir_In Mount (Dirs c) name sfs distinct Hin), (stable name sfs Hin).
    destruct (Z.of_nat i <? Z.of_nat lenFs)%Z eqn:E; [|lia].
    rewrite Basics.wrap64_small by lia.
    replace (Z.of_nat i + 1)%Z with (Z.of_nat (S i)) by lia.
    rewrite IH by lia.
    rewrite (Basics.skipn_nth_cons topDirs i name Hname). cbn [map].
    rewrite <- app_assoc. reflexivity.
Qed.

(** X11: the listing of the root.  [List("/")] calls no mount; its lister
    ranges over the names of the mounts, each once, in byte order.  When
    every mount gives the stat of its root and the buffer has room for all
    of them, the call at offset 0 delivers one entry per mount, the mount's
    stat under the mount's name, in that order, and reports EOF. *)
Theorem root_listing_is_sorted_and_complete (lenFs : nat) :
  List.length (Dirs c) <= lenFs ->
  (Z.of_nat lenFs < 2 ^ 63)%Z ->
  UnionMount.List ops c "/" w = (Ok (RootLister (topDirsOf c)), w)
  /\ Permutation (topDirsOf c) (map fst (Dirs c))
  /\ Sorted (fun a b : string => String.leb a b = true) (topDirsOf c)
  /\ UnionMount.listAt ops c (RootLister (topDirsOf c)) lenFs 0 w
     = (Ok (len64 (Dirs c),
            map (fun name => renamedFileInfo (statOf name) name) (topDirsOf c),
            Some EOF), w).
Proof.
  intros Hbuf Hfits.
  pose proof (sortStrings_perm (map fst (Dirs c))) as Hperm.
  assert (Hlen : List.length (topDirsOf c) = List.length (Dirs c)).
  { unfold topDirsOf. rewrite (Permutation_length Hperm). apply length_map. }
  split; [reflexivity|]. split; [exact Hperm|]. split; [apply sortStrings_sorted|].
  cbn [UnionMount.listAt]. unfold rootListAt, len64, sub64. rewrite Hlen.
  destruct (0 >=? Z.of_nat (List.length (Dirs c)))%Z eqn:E.
  - assert (H0 : List.length (Dirs c) = 0) by lia.
    destruct (topDirsOf c); [|rewrite H0 in Hlen; discriminate].
    rewrite H0. reflexivity.
  - rewrite !Z.sub_0_r, !Basics.wrap64_small by lia.
    assert (Hrem : min (Z.of_nat (List.length (Dirs c))) (Z.of_nat lenFs)
                   = Z.of_nat (List.length (Dirs c))).
    { unfold min.
      destruct (Z.of_nat (List.length (Dirs c)) <? Z.of_nat lenFs)%Z eqn:E2; lia. }
    rewrite Hrem, Nat2Z.id.
    pose proof (rootLoop_all (topDirsOf c) lenFs) as Hloop.
    specialize (Hloop (fun name Hin => Permutation_in name Hperm Hin)).
    unfold len64 in Hloop. rewrite Hlen in Hloop.
    specialize (Hloop ltac:(lia) Hbuf (List.length (Dirs c)) 0 [] eq_refl).
    change (Z.of_nat 0) with 0%Z in Hloop. cbn [skipn app] in Hloop.
    unfold mbind at 1. rewrite Hloop.
    unfold ret, add64. rewrite Basics.wrap64_small by lia.
    rewrite Z.add_0_l, Z.eqb_refl. reflexivity.
Qed.

End WholeRoot.

Lemma root_listing_is_sorted_and_complete_witness :
  UnionMount.listAt Memory.memFS Memory.docsAndPics
    (RootLister (topDirsOf Memory.docsAndPics)) 10 0 Memory.scenarioS4
  = (Ok (2%Z, [mkFileInfo "docs" 0 493 0 true; mkFileInfo "pics" 0 493 0 true], Some EOF),
     Memory.scenarioS4).
Proof.
  destruct (root_listing_is_sorted_and_complete Memory.World Memory.Handle Memory.Handle
              unit unit nat Memory.memFS Memory.docsAndPics
              (fun _ => Memory.infoOf "/" Memory.Directory) Memory.scenarioS4)
    with (lenFs := 10) as [_ [_ [_ H]]].
  - cbn. repeat constructor; cbn; intuition discriminate.
  - intros name sfs [H|[H|[]]]; injection H as <- <-; reflexivity.
  - cbn. lia.
  - lia.
  - exact H.
Defined.

End UnionResolveFacts.

(** ** The SFTP handlers *)

Module SftpAdapterFacts.
Import PathGuard SftpAdapter.

Lemma normalizePath_accepted (path p : string) :
  normalizePath path = Ok p -> accepted p = true.
Proof.
  unfold normalizePath, ToSlash, accepted.
  set (q := if String.eqb (Clean path) "" then "/" else Clean path).
  destruct (ContainsValidDir q) as [[|]| | |] eqn:E; cbn; intros H; try discriminate.
  injection H as <-. rewrite E. reflexivity.
Qed.

Lemma normalizePath_outcomes (path : string) :
  (exists p : string, normalizePath path = Ok p)
  \/ normalizePath path = Err (ErrMsg "wrong path").
Proof.
  unfold normalizePath, ToSlash.
  pose proof (PathGuardFacts.Clean_not_empty path) as Hc.
  destruct (String.eqb (Clean path) "") eqn:E.
  - left. eexists. vm_compute. reflexivity.
  - destruct (Clean path) as [|a q] eqn:Eq; [congruence|].
    destruct (PathGuardFacts.ContainsValidDirF_fuel (String a q)) as [b Hb]; [simpl; lia|].
    unfold ContainsValidDir. rewrite Hb; [|lia]. cbn [bind].
    destruct b; cbn; [left; eauto|right; reflexivity].
Qed.

Section Handlers.

Variable W : Type.
Variables ReaderAt WriterAt FileAttrFlags FileStat : Type.
Variable ConnectionInfo : Type.

Local Abbreviation Served := (Served W ConnectionInfo).
Local Abbreviation Request := (Request FileAttrFlags FileStat).
Local Abbreviation wrapper := (wrapper W ReaderAt WriterAt FileAttrFlags FileStat ConnectionInfo).

Variable w : wrapper.

Lemma handle_loggedOnce {A : Type} (normalization context : string)
    (run : string -> Request -> M Served A) (r : Request) (s : Served) :
  haveAccessLogger w = true ->
  (forall (path : string) (s0 : Served),
      accesses (snd (run path r s0)) = accesses s0
      /\ errors (snd (run path r s0)) = errors s0) ->
  loggedOnce w r s (handle w normalization context run r s).
Proof.
  intros Hlog Hrun status. unfold handle, try, mbind, ret, logAccess, logError, loggedPath.
  rewrite Hlog. cbn [negb].
  destruct (normalizePath (Filepath r)) as [path|e| |] eqn:En; cbn [fst snd];
    [| |cbn; discriminate|cbn; discriminate].
  - destruct (Hrun path s) as [Ha He].
    destruct (run path r s) as [[a|e| |] s'] eqn:Er; cbn [fst snd] in *;
      [| |cbn; discriminate|cbn; discriminate].
    + cbn. intros H. injection H as <-.
      split; [rewrite Ha; reflexivity|]. split; [intros _; exact He|discriminate].
    + destruct (isErrForbidden e) eqn:Ef.
      * destruct e; try discriminate. cbn. intros H. injection H as <-.
        split; [rewrite Ha; reflexivity|]. split; [intros _; exact He|discriminate].
      * destruct (haveLog w); destruct e; try discriminate; cbn; intros H;
          injection H as <-;
          (split; [rewrite Ha; reflexivity|]);
          (split; [intros C; exfalso; apply C; reflexivity|]);
          intros _;
          first [eexists; rewrite He; reflexivity
                |exists ""; rewrite app_nil_r; exact He].
  - assert (Hwrong : e = ErrMsg "wrong path").
    { destruct (normalizePath_outcomes (Filepath r)) as [[p Hp]|Hp];
        rewrite Hp in En; [discriminate|]. injection En as <-. reflexivity. }
    subst e. destruct (haveLog w); cbn; intros H; injection H as <-;
      (split; [reflexivity|]);
      (split; [intros C; exfalso; apply C; reflexivity|]);
      intros _;
      first [eexists; reflexivity|exists ""; rewrite app_nil_r; reflexivity].
Qed.

Lemma call_logs {A : Type} (m : M W A) (s : Served) :
  accesses (snd (call m s)) = accesses s /\ errors (snd (call m s)) = errors s.
Proof. unfold call. destruct (m (files s)) as [r f]. split; reflexivity. Qed.

Lemma filecmdCall_logs (path : string) (r : Request) (s : Served) :
  accesses (snd (filecmdCall w path r s)) = accesses s
  /\ errors (snd (filecmdCall w path r s)) = errors s.
Proof.
  unfold filecmdCall.
  repeat (match goal with |- context [if ?b then _ else _] => destruct b end);
    try apply call_logs; try (split; reflexivity);
    unfold mbind, ret; destruct (normalizePath (Target r)); try (split; reflexivity);
    apply call_logs.
Qed.

Lemma fileListCall_logs (path : string) (r : Request) (s : Served) :
  accesses (snd (fileListCall w path r s)) = accesses s
  /\ errors (snd (fileListCall w path r s)) = errors s.
Proof.
  unfold fileListCall.
  repeat (match goal with |- context [if ?b then _ else _] => destruct b end);
    try (split; reflexivity);
    unfold mbind, ret;
    match goal with |- context [call ?m s] =>
      destruct (call_logs m s) as [Ha He]; destruct (call m s) as [[a|e| |] s'] end;
    split; assumption.
Qed.

(** X12: with an access logger set, a request that does not end in a panic
    leaves exactly one entry in the access log, whichever handler serves
    it: the connection, the path [normalizePath] returns for the path of
    the request (the empty path when it refuses), the method, and the status
    [ok] for no error, [forbidden] for [ErrForbidden], [error] for every
    other error.  The logger of errors is called once for [error], when it is
    set, and not for [ok] and [forbidden]. *)
Theorem every_request_is_logged_once (r : Request) (s : Served) :
  haveAccessLogger w = true ->
  loggedOnce w r s (Filecmd w r s)
  /\ loggedOnce w r s (Fileread w r s)
  /\ loggedOnce w r s (Filewrite w r s)
  /\ loggedOnce w r s (Filelist w r s).
Proof.
  intros Hlog. unfold Filecmd, Fileread, Filewrite, Filelist.
  split; [|split; [|split]]; apply handle_loggedOnce; try exact Hlog; intros path s0.
  - apply filecmdCall_logs.
  - apply call_logs.
  - apply call_logs.
  - apply fileListCall_logs.
Qed.

Lemma handle_refuses {A : Type} (normalization context : string)
    (run : string -> Request -> M Served A) (r : Request) (s : Served) (e : error) :
  normalizePath (Filepath r) = Err e ->
  fst (handle w normalization context run r s) = Err e
  /\ files (snd (handle w normalization context run r s)) = files s.
Proof.
  intros H. unfold handle, try, mbind, ret, logAccess, logError. rewrite H.
  destruct (haveAccessLogger w), (haveLog w); split; reflexivity.
Qed.

(** X13: a request whose path [normalizePath] refuses is answered with the
    error [wrong path] by every handler and the filesystem is not called;
    the same holds for [Rename], [Link] and [Symlink] when the target is
    refused. *)
Theorem refused_paths_never_reach_the_filesystem (r : Request) (s : Served) :
  (normalizePath (Filepath r) = Err (ErrMsg "wrong path") ->
   (fst (Filecmd w r s) = Err (ErrMsg "wrong path") /\ files (snd (Filecmd w r s)) = files s)
   /\ (fst (Fileread w r s) = Err (ErrMsg "wrong path")
       /\ files (snd (Fileread w r s)) = files s)
   /\ (fst (Filewrite w r s) = Err (ErrMsg "wrong path")
       /\ files (snd (Filewrite w r s)) = files s)
   /\ (fst (Filelist w r s) = Err (ErrMsg "wrong path")
       /\ files (snd (Filelist w r s)) = files s))
  /\ (In (Method r) ["Rename"; "Link"; "Symlink"] ->
      normalizePath (Target r) = Err (ErrMsg "wrong path") ->
      fst (Filecmd w r s) = Err (ErrMsg "wrong path")
      /\ files (snd (Filecmd w r s)) = files s).
Proof.
  split.
  - intros H. unfold Filecmd, Fileread, Filewrite, Filelist.
    split; [|split; [|split]]; apply handle_refuses; exact H.
  - intros Hm Ht.
    destruct (normalizePath_outcomes (Filepath r)) as [[path Hp]|Hp];
      [|apply handle_refuses; exact Hp].
    assert (Hcall : filecmdCall w path r s = (Err (ErrMsg "wrong path"), s)).
    { unfold filecmdCall.
      destruct Hm as [<-|[<-|[<-|[]]]]; cbn [String.eqb Ascii.eqb Bool.eqb];
        unfold mbind, ret; rewrite Ht; reflexivity. }
    unfold Filecmd, handle, try, mbind, ret. rewrite Hp, Hcall.
    cbn [isErrForbidden]. unfold logAccess, logError.
    destruct (haveAccessLogger w), (haveLog w); split; reflexivity.
Qed.

Lemma on1_accepted {A : Type} (op : string -> M W A) (path : string) :
  accepted path = true -> on1 op path = op path.
Proof. intros H. unfold on1. rewrite H. reflexivity. Qed.

(** X14: every path a handler hands to the filesystem has passed
    [ContainsValidDir]: over a filesystem that panics on every other path,
    each handler does exactly what it does over the filesystem itself. *)
Theorem handlers_pass_only_accepted_paths (r : Request) (s : Served) :
  let fenced := mkWrapper (validOnly (fs w)) (haveAccessLogger w) (info w) (haveLog w) in
  Filecmd fenced r s = Filecmd w r s
  /\ Fileread fenced r s = Fileread w r s
  /\ Filewrite fenced r s = Filewrite w r s
  /\ Filelist fenced r s = Filelist w r s.
Proof.
  intros fenced.
  assert (Hhandle : forall (A : Type) (n c : string) (run run' : string -> Request -> M Served A),
             (forall (path : string) (s0 : Served),
                 accepted path = true -> run' path r s0 = run path r s0) ->
             handle fenced n c run' r s = handle w n c run r s).
  { intros A n c run run' Hrun. unfold handle, try, mbind, ret.
    destruct (normalizePath (Filepath r)) as [path|e| |] eqn:En; try reflexivity.
    rewrite (Hrun path s (normalizePath_accepted _ _ En)). reflexivity. }
  unfold Filecmd, Fileread, Filewrite, Filelist.
  split; [|split; [|split]]; apply Hhandle; intros path s0 Hp.
  - unfold filecmdCall. cbn [fs fenced validOnly fsSetStat fsRename fsRmdir fsRm fsMkdir
                              fsLink fsSymlink].
    rewrite !(on1_accepted _ path Hp).
    repeat (match goal with |- context [if ?b then _ else _] => destruct b end);
      try reflexivity;
      unfold mbind, ret;
      destruct (normalizePath (Target r)) as [target|e| |] eqn:Et; try reflexivity;
      unfold on2; rewrite Hp, (normalizePath_accepted _ _ Et); reflexivity.
  - cbn [fs fenced validOnly fsRead]. rewrite (on1_accepted _ path Hp). reflexivity.
  - cbn [fs fenced validOnly fsWrite]. rewrite (on1_accepted _ path Hp). reflexivity.
  - unfold fileListCall. cbn [fs fenced validOnly fsList fsLstat fsStat fsReadLink].
    rewrite !(on1_accepted _ path Hp). reflexivity.
Qed.

End Handlers.

(** Removing [/a/../b] is logged as a removal of [/b]; a path that is
    refused is logged as the empty path, with one line for the error. *)
Lemma every_request_is_logged_once_witness :
  accesses (snd (Filecmd (mkWrapper Recording.recordingFS true tt true)
                   (mkRequest "Remove" "/a/../b" "" tt tt) (mkServed [] [] [])))
  = [mkAccess tt "/b" "Remove" "ok"]
  /\ accesses (snd (Fileread (mkWrapper Recording.recordingFS true tt true)
                      (mkRequest "Get" "../x" "" tt tt) (mkServed [] [] [])))
     = [mkAccess tt "" "Get" "error"].
Proof.
  destruct (every_request_is_logged_once Recording.Calls unit unit unit unit unit
              (mkWrapper Recording.recordingFS true tt true)
              (mkRequest "Remove" "/a/../b" "" tt tt) (mkServed [] [] []) eq_refl)
    as [Hcmd _].
  destruct (every_request_is_logged_once Recording.Calls unit unit unit unit unit
              (mkWrapper Recording.recordingFS true tt true)
              (mkRequest "Get" "../x" "" tt tt) (mkServed [] [] []) eq_refl)
    as [_ [Hread _]].
  split.
  - exact (proj1 (Hcmd "ok" eq_refl)).
  - exact (proj1 (Hread "error" eq_refl)).
Defined.

Lemma refused_paths_never_reach_the_filesystem_witness :
  fst (Fileread (mkWrapper Recording.recordingFS true tt true)
         (mkRequest "Get" "../x" "" tt tt) (mkServed [] [] []))
  = Err (ErrMsg "wrong path")
  /\ files (snd (Fileread (mkWrapper Recording.recordingFS true tt true)
                   (mkRequest "Get" "../x" "" tt tt) (mkServed [] [] []))) = [].
Proof.
  apply (proj1 (refused_paths_never_reach_the_filesystem Recording.Calls unit unit unit unit
                  unit (mkWrapper Recording.recordingFS true tt true)
                  (mkRequest "Get" "../x" "" tt tt) (mkServed [] [] []))).
  reflexivity.
Defined.

End SftpAdapterFacts.

(** ** WebDAVAdapter: the methods of an open handle *)

Module WebDAVHandlesFacts.
Import DirMount WebDAVHandles.

Lemma sliceTo_all (lenLs : nat) (entries : list FileInfo) :
  List.length entries <= lenLs ->
  sliceTo lenLs entries (Z.of_nat (List.length entries)) = Ok (map Some entries).
Proof.
  intros H. unfold sliceTo.
  destruct (Z.of_nat (List.length entries) <? 0)%Z eqn:E1; [lia|].
  destruct (Z.of_nat lenLs <? Z.of_nat (List.length entries))%Z eqn:E2; [lia|].
  cbn [orb]. rewrite Nat2Z.id.
  rewrite <- (length_map Some entries) at 1.
  rewrite firstn_app, firstn_all, Nat.sub_diag. cbn [firstn]. rewrite app_nil_r. reflexivity.
Qed.

Lemma sliceTo_nil (lenLs : nat) : sliceTo lenLs [] 0 = Ok [].
Proof. apply (sliceTo_all lenLs []). cbn. lia. Qed.

Lemma readAll_dirLister (fileinfos : list FileInfo) :
  (len64 fileinfos < 2 ^ 63)%Z ->
  forall (fuel i : nat) (total : list (option FileInfo)),
    i <= List.length fileinfos ->
    List.length fileinfos - i < fuel ->
    readAll fuel (dirLister fileinfos) (Z.of_nat i) total
    = Ok (total ++ map Some (skipn i fileinfos), None).
Proof.
  intros Hfits. unfold len64 in Hfits.
  induction fuel as [|fuel IH]; intros i total Hi Hfuel; [lia|].
  cbn [readAll]. unfold dirLister at 1. unfold len64.
  destruct (Z.of_nat i >=? Z.of_nat (List.length fileinfos))%Z eqn:E1.
  - cbn [bind]. rewrite sliceTo_nil. cbn [bind].
    rewrite skipn_all2 by lia. reflexivity.
  - destruct (Z.of_nat i <? 0)%Z eqn:E2; [lia|].
    rewrite Nat2Z.id.
    set (copied := firstn 10 (skipn i fileinfos)).
    assert (Hlen : List.length copied = Nat.min 10 (List.length fileinfos - i)).
    { unfold copied. rewrite length_firstn, length_skipn. reflexivity. }
    destruct (List.length copied <? 10) eqn:E3.
    + cbn [bind]. rewrite sliceTo_all by lia. cbn [bind].
      unfold copied. rewrite firstn_all2 by (rewrite length_skipn; lia). reflexivity.
    + cbn [bind]. rewrite sliceTo_all by lia. cbn [bind].
      assert (H10 : List.length copied = 10) by lia.
      rewrite H10. unfold add64. rewrite Basics.wrap64_small by lia.
      replace (Z.of_nat i + Z.of_nat 10)%Z with (Z.of_nat (i + 10)) by lia.
      rewrite IH by lia. rewrite <- app_assoc, <- map_app. unfold copied.
      replace (skipn (i + 10) fileinfos) with (skipn 10 (skipn i fileinfos))
        by (rewrite skipn_skipn; f_equal; lia).
      rewrite firstn_skipn. reflexivity.
Qed.

Section Handles.

Variable W : Type.
Variables ReaderAt WriterAt FileAttrFlags FileStat : Type.
Variable fs : SimplifiedFS W ReaderAt WriterAt FileAttrFlags FileStat.

(** X15: [Readdir] over a directory whose lister is the one of a native
    directory.  [Readdir(0)] returns every entry, in order, and no error;
    [Readdir(count)] with [count > 0] returns the first [count] entries and
    [io.EOF] exactly when the directory holds fewer; a negative [count] is
    refused with [ErrInvalid] before the filesystem is asked. *)
Theorem Readdir_lists_the_directory
    (f : File) (w w' : W) (fileinfos : list FileInfo) (fuel : nat) :
  fsList fs (filename f) w = (Ok (dirLister fileinfos), w') ->
  (len64 fileinfos < 2 ^ 63)%Z ->
  (List.length fileinfos < fuel ->
   Readdir fs fuel 0 (f, w) = (Ok (map Some fileinfos, None), (f, w')))
  /\ (forall count : nat, 0 < count ->
      Readdir fs fuel (Z.of_nat count) (f, w)
      = (Ok (map Some (firstn count fileinfos),
             if List.length fileinfos <? count then Some EOF else None), (f, w')))
  /\ (forall count : Z, (count < 0)%Z ->
      Readdir fs fuel count (f, w) = (Ok ([], Some ErrInvalid), (f, w))).
Proof.
  intros HList Hfits. split; [|split].
  - intros Hfuel. unfold Readdir. cbn [Z.ltb Z.compare Z.eqb]. rewrite HList.
    pose proof (readAll_dirLister fileinfos Hfits fuel 0 [] ltac:(lia) ltac:(lia)) as H.
    change (Z.of_nat 0) with 0%Z in H. rewrite H. reflexivity.
  - intros count Hcount. unfold Readdir.
    destruct (Z.of_nat count <? 0)%Z eqn:E0; [lia|].
    rewrite HList. destruct (Z.of_nat count =? 0)%Z eqn:E1; [lia|].
    rewrite Nat2Z.id. f_equal.
    unfold dirLister, len64. unfold len64 in Hfits.
    destruct (0 >=? Z.of_nat (List.length fileinfos))%Z eqn:E2.
    + assert (Hnil : fileinfos = []) by (destruct fileinfos; [reflexivity|cbn in E2; lia]).
      subst fileinfos. cbn [bind]. rewrite sliceTo_nil.
      cbn [bind List.length map]. rewrite firstn_nil.
      destruct (0 <? count) eqn:E3; [reflexivity|lia].
    + cbn [Z.ltb Z.compare Z.to_nat skipn].
      assert (Hlen : List.length (firstn count fileinfos)
                     = Nat.min count (List.length fileinfos)) by apply length_firstn.
      destruct (List.length (firstn count fileinfos) <? count) eqn:E3;
        cbn [bind]; rewrite sliceTo_all by lia; cbn [bind];
        destruct (List.length fileinfos <? count) eqn:E4; try reflexivity; lia.
  - intros count Hcount. unfold Readdir.
    destruct (count <? 0)%Z eqn:E0; [reflexivity|lia].
Qed.

(** X16: [Seek] on a handle whose file has the size [Size st], between 0
    and the largest [int64].  A seek that returns no error has moved the
    handle to the position it returns, and that position lies in
    [0 <= pos < Size st]; a seek that returns an error returns [ErrInvalid]
    and leaves the position of the handle as it was.  From the start, the
    positions accepted are exactly those; [Seek(0, io.SeekEnd)] goes to
    [Size st - 1], the last byte; on an empty file every seek fails. *)
Theorem Seek_lands_inside_the_file
    (f : File) (w : W) (st : FileInfo) (s1 : File * W) (off whence : Z) :
  Stat fs (f, w) = (Ok st, s1) ->
  (0 <= Size st < 2 ^ 63)%Z ->
  (exists pos : Z,
      (fst (Seek fs off whence (f, w)) = Ok (pos, None)
       /\ (0 <= pos < Size st)%Z
       /\ offset (fst (snd (Seek fs off whence (f, w)))) = pos)
      \/ (fst (Seek fs off whence (f, w)) = Ok (pos, Some ErrInvalid)
          /\ offset (fst (snd (Seek fs off whence (f, w)))) = offset f))
  /\ (fst (Seek fs off SeekStart (f, w)) = Ok (off, None) <-> (0 <= off < Size st)%Z)
  /\ ((0 < Size st)%Z ->
      fst (Seek fs 0 SeekEnd (f, w)) = Ok ((Size st - 1)%Z, None))
  /\ (Size st = 0%Z ->
      exists pos : Z, fst (Seek fs off whence (f, w)) = Ok (pos, Some ErrInvalid)).
Proof.
  intros HStat Hsize.
  assert (Hoff : offset (fst s1) = offset f).
  { unfold Stat in HStat. destruct (stat f) as [st0|].
    - injection HStat as _ <-. reflexivity.
    - destruct (fsStat fs (filename f) w) as [[st0|e| |] w0]; try discriminate.
      injection HStat as _ <-. reflexivity. }
  destruct s1 as [f1 w1]. cbn [fst] in Hoff.
  assert (Hseek : forall o wh : Z,
             exists pos : Z,
               (fst (Seek fs o wh (f, w)) = Ok (pos, None)
                /\ (0 <= pos < Size st)%Z
                /\ offset (fst (snd (Seek fs o wh (f, w)))) = pos)
               \/ (fst (Seek fs o wh (f, w)) = Ok (pos, Some ErrInvalid)
                   /\ offset (fst (snd (Seek fs o wh (f, w)))) = offset f)).
  { intros o wh. unfold Seek. rewrite HStat.
    match goal with |- context [if (?a <? 0)%Z || _ then _ else _] => set (pos := a) end.
    exists pos.
    destruct (pos <? 0)%Z eqn:E1; [right; split; [reflexivity|exact Hoff]|].
    destruct (pos >=? Size st)%Z eqn:E2; [right; split; [reflexivity|exact Hoff]|].
    left. cbn [orb fst snd offset]. split; [reflexivity|]. split; [lia|reflexivity]. }
  split; [apply Hseek|]. split; [|split].
  - unfold Seek. rewrite HStat. cbn [Z.eqb SeekStart].
    destruct (off <? 0)%Z eqn:E1; cbn [orb fst].
    + split; [discriminate|lia].
    + destruct (off >=? Size st)%Z eqn:E2; cbn [fst].
      * split; [discriminate|lia].
      * split; [lia|reflexivity].
  - intros Hpos. unfold Seek. rewrite HStat.
    change (SeekEnd =? SeekStart)%Z with false. change (SeekEnd =? SeekCurrent)%Z with false.
    change (SeekEnd =? SeekEnd)%Z with true. cbv iota.
    unfold sub64. rewrite Z.sub_0_r, (Basics.wrap64_small (Size st - 1)) by lia.
    rewrite Basics.wrap64_small by lia.
    destruct (Size st - 1 <? 0)%Z eqn:E1; [lia|].
    destruct (Size st - 1 >=? Size st)%Z eqn:E2; [lia|]. reflexivity.
  - intros Hzero. destruct (Hseek off whence) as [pos [[_ [H _]]|[H _]]]; [lia|].
    exists pos. exact H.
Qed.

End Handles.

Lemma Readdir_lists_the_directory_witness :
  Readdir (Recording.recordingDir Recording.fiveEntries Recording.someInfo) 6 0
    (mkFile "/" 0 None, [])
  = (Ok (map Some Recording.fiveEntries, None), (mkFile "/" 0 None, ["List"])).
Proof.
  apply (Readdir_lists_the_directory Recording.Calls unit unit unit unit
           (Recording.recordingDir Recording.fiveEntries Recording.someInfo)
           (mkFile "/" 0 None) [] ["List"] Recording.fiveEntries 6).
  - reflexivity.
  - vm_compute. reflexivity.
  - cbn. lia.
Defined.

Lemma Seek_lands_inside_the_file_witness :
  fst (Seek (Memory.memFS 1) 0 SeekEnd (mkFile "/x.txt" 0 None, Memory.scenarioS4))
  = Ok (1023%Z, None).
Proof.
  destruct (Seek_lands_inside_the_file Memory.World Memory.Handle Memory.Handle unit unit
              (Memory.memFS 1) (mkFile "/x.txt" 0 None) Memory.scenarioS4
              (Memory.infoOf "/x.txt" (Memory.File Memory.kilobyte))
              (mkFile "/x.txt" 0
                 (Some (Memory.infoOf "/x.txt" (Memory.File Memory.kilobyte))),
               Memory.scenarioS4) 0 SeekEnd)
    as [_ [_ [H _]]].
  - reflexivity.
  - vm_compute. split; [discriminate|reflexivity].
  - apply H. vm_compute. reflexivity.
Defined.

End WebDAVHandlesFacts.

(** ** PermissionWrapper: what a filtered listing can show *)

Module HiddenFacts.
Import PermWrapper.

Section Filter.

Variable ShouldHide : string -> bool.
Variable path : string.
Variable iter : ListerAt.

Local Abbreviation shown :=
  (Forall (fun info : FileInfo => hides ShouldHide path info = false)).

Lemma keepLoop_shown (raw : list FileInfo) :
  forall (read i realOffset : Z) (ls : list FileInfo) (st : FilterState)
         (ls' : list FileInfo) (st' : FilterState),
    keepLoop ShouldHide path raw read i realOffset ls st = Some (ls', st') ->
    shown ls -> shown ls'.
Proof.
  induction raw as [|info raw IH]; intros read i realOffset ls st ls' st' H Hls.
  - cbn [keepLoop] in H. destruct (i <? read)%Z; [discriminate|].
    injection H as <- _. exact Hls.
  - cbn [keepLoop] in H. destruct (i <? read)%Z; [|injection H as <- _; exact Hls].
    destruct (hides ShouldHide path info) eqn:Eh; cbn [negb] in H.
    + apply (IH _ _ _ _ _ _ _ H Hls).
    + apply (IH _ _ _ _ _ _ _ H). apply Forall_app. split; [exact Hls|].
      constructor; [exact Eh|constructor].
Qed.

Lemma fillLoop_shown (fuel lenLs : nat) :
  forall (realOffset : Z) (st : FilterState) (n : Z) (entries : list FileInfo)
         (err : option error) (st' : FilterState),
    fillLoop ShouldHide path iter fuel lenLs realOffset st = (Ok (n, entries, err), st') ->
    shown entries /\ n = len64 entries.
Proof.
  induction fuel as [|fuel IH]; intros realOffset st n entries err st' H;
    [discriminate|].
  cbn [fillLoop] in H.
  destruct (iter lenLs realOffset) as [[[read raw] e]| | |]; try discriminate.
  assert (Hbody : forall eof : bool,
             match keepLoop ShouldHide path raw read 0 realOffset [] st with
             | None => (Panic, st)
             | Some (ls, st1) =>
                 if eof then (Ok (len64 ls, ls, Some EOF), st1)
                 else match ls with
                      | [] => fillLoop ShouldHide path iter fuel lenLs (add64 realOffset read) st1
                      | _ => (Ok (len64 ls, ls, None), st1)
                      end
             end = (Ok (n, entries, err), st') ->
             shown entries /\ n = len64 entries).
  { intros eof Hb.
    destruct (keepLoop ShouldHide path raw read 0 realOffset [] st) as [[ls st1]|] eqn:Ek;
      [|discriminate].
    pose proof (keepLoop_shown raw _ _ _ _ _ _ _ Ek (Forall_nil _)) as Hls.
    destruct eof.
    - injection Hb as <- <- _ _. split; [exact Hls|reflexivity].
    - destruct ls as [|x ls].
      + apply (IH _ _ _ _ _ _ Hb).
      + injection Hb as <- <- _ _. split; [exact Hls|reflexivity]. }
  destruct e as [e|]; [|apply (Hbody false H)].
  destruct e; try (injection H as <- <- _ _; split; [constructor|reflexivity]).
  apply (Hbody true H).
Qed.

Lemma skipLoop_returns (fuel : nat) :
  forall (offset i realOffset : Z) (st : FilterState) (n : Z) (entries : list FileInfo)
         (err : option error) (st' : FilterState),
    skipLoop ShouldHide path iter fuel offset i realOffset st
    = (Returned (Ok (n, entries, err)), st') ->
    entries = [] /\ n = 0%Z.
Proof.
  induction fuel as [|fuel IH]; intros offset i realOffset st n entries err st' H;
    [discriminate|].
  cbn [skipLoop] in H.
  destruct (i <? offset)%Z; [|discriminate].
  destruct ((i <? maxOffsetYet st)%Z && negb (contains (idxToHide st) realOffset));
    [apply (IH _ _ _ _ _ _ _ _ H)|].
  destruct (i >=? maxOffsetYet st)%Z; [|apply (IH _ _ _ _ _ _ _ _ H)].
  destruct (iter 1 realOffset) as [[[k tmp] e]| | |]; try discriminate.
  destruct e as [e|]; [injection H as <- <- _ _; split; reflexivity|].
  destruct (k =? 0)%Z; [injection H as <- <- _ _; split; reflexivity|].
  destruct tmp as [|tmp0 tmp]; [discriminate|].
  destruct (hides ShouldHide path tmp0); apply (IH _ _ _ _ _ _ _ _ H).
Qed.

(** X17: whatever the offset, the size of the buffer, the captured state
    and the inner lister, a call of the filtering lister that returns
    delivers no entry that [ShouldHide] matches under the listed path; the
    count it returns is the number of entries delivered, and the lister
    keeps filtering with the same expressions over the same inner lister. *)
Theorem filtered_listing_never_shows_a_hidden_entry
    (fuel lenLs : nat) (offset : Z) (st : FilterState)
    (n : Z) (entries : list FileInfo) (err : option error) (l' : PermLister) :
  listAt fuel (Filtering ShouldHide path iter st) lenLs offset
  = (Ok (n, entries, err), l') ->
  Forall (fun info => ShouldHide (PathGuard.Join path (Name info)) = false) entries
  /\ n = len64 entries
  /\ exists st' : FilterState, l' = Filtering ShouldHide path iter st'.
Proof.
  cbn [listAt]. unfold filteredListAt. intros H.
  destruct (skipLoop ShouldHide path iter fuel offset 0 0 st) as [[realOffset|r] st1] eqn:Es.
  - destruct (fillLoop ShouldHide path iter fuel lenLs realOffset st1) as [r st2] eqn:Ef.
    injection H as -> <-.
    destruct (fillLoop_shown _ _ _ _ _ _ _ _ Ef) as [Hs Hn].
    split; [exact Hs|]. split; [exact Hn|]. eauto.
  - injection H as -> <-.
    destruct (skipLoop_returns _ _ _ _ _ _ _ _ _ Es) as [-> ->].
    split; [constructor|]. split; [reflexivity|]. eauto.
Qed.

End Filter.

Lemma filtered_listing_never_shows_a_hidden_entry_witness :
  Forall (fun info => ShouldHide Recording.hidingWrapper (PathGuard.Join "/" (Name info)) = false)
    [Recording.file "b" 3; Recording.file "c" 5]
  /\ 2%Z = len64 [Recording.file "b" 3; Recording.file "c" 5]
  /\ exists st' : FilterState,
       Filtering (ShouldHide Recording.hidingWrapper) "/"
         (DirMount.dirLister Recording.fiveEntries) (mkFilterState [1%Z; 3%Z] 3)
       = Filtering (ShouldHide Recording.hidingWrapper) "/"
           (DirMount.dirLister Recording.fiveEntries) st'.
Proof.
  apply (filtered_listing_never_shows_a_hidden_entry
           (ShouldHide Recording.hidingWrapper) "/"
           (DirMount.dirLister Recording.fiveEntries) 10 10 1
           (mkFilterState [] 0) 2 [Recording.file "b" 3; Recording.file "c" 5] (Some EOF)).
  vm_compute. reflexivity.
Defined.

End HiddenFacts.

(** ** PathGuard: which paths are accepted *)

Module PathElementsFacts.
Import PathGuard PathElements.

Lemma get_app (pre s : string) (k : nat) :
  String.get (String.length pre + k) (pre ++ s) = String.get k s.
Proof. induction pre as [|a pre IH]; [reflexivity|]. simpl. exact IH. Qed.

Lemma index_app (pre s : string) (k : nat) :
  index (pre ++ s) (String.length pre + k) = index s k.
Proof. unfold index. rewrite get_app. reflexivity. Qed.

Lemma index_app0 (pre s : string) :
  index (pre ++ s) (String.length pre) = index s 0.
Proof. rewrite <- (Nat.add_0_r (String.length pre)) at 1. apply index_app. Qed.

Lemma app_assoc_string (a b c : string) : ((a ++ b) ++ c)%string = (a ++ b ++ c)%string.
Proof. induction a as [|x a IH]; [reflexivity|]. simpl. rewrite IH. reflexivity. Qed.

Lemma length_app_string (a b : string) :
  String.length (a ++ b) = String.length a + String.length b.
Proof. induction a as [|x a IH]; [reflexivity|]. simpl. rewrite IH. reflexivity. Qed.

Lemma uptoSlash_rest (s : string) :
  s = (uptoSlash s ++ match afterSeg s with Some r => r | None => "" end)%string.
Proof.
  induction s as [|c s IH]; [reflexivity|].
  cbn [uptoSlash afterSeg]. destruct (Ascii.eqb c slash); simpl; [reflexivity|].
  f_equal. exact IH.
Qed.

Lemma afterSeg_length (s r : string) :
  afterSeg s = Some r -> String.length r < String.length s.
Proof.
  revert r. induction s as [|c s IH]; intros r H; [discriminate|].
  cbn [afterSeg] in H. destruct (Ascii.eqb c slash).
  - injection H as <-. simpl. lia.
  - apply IH in H. simpl. lia.
Qed.

Lemma splitAcc_cons (s cur : string) :
  splitAcc cur s = (cur ++ firstSeg s)%string
                   :: match afterSeg s with Some r => split r | None => [] end.
Proof.
  revert cur. induction s as [|c s IH]; intros cur.
  - cbn [splitAcc firstSeg afterSeg]. rewrite UnionResolveFacts.app_empty. reflexivity.
  - cbn [splitAcc firstSeg afterSeg]. destruct (Ascii.eqb c slash).
    + rewrite UnionResolveFacts.app_empty. reflexivity.
    + rewrite IH, app_assoc_string. reflexivity.
Qed.

Lemma split_cons (s : string) :
  split s = firstSeg s :: match afterSeg s with Some r => split r | None => [] end.
Proof. unfold split at 1. rewrite splitAcc_cons. reflexivity. Qed.

Lemma split_not_nil (s : string) : split s <> [].
Proof. rewrite split_cons. discriminate. Qed.

Lemma dropLastEmpty_cons (e : string) (l : list string) :
  l <> [] -> dropLastEmpty (e :: l) = e :: dropLastEmpty l.
Proof.
  intros H. unfold dropLastEmpty. destruct l as [|x l]; [contradiction|].
  change (last (e :: x :: l) "") with (last (x :: l) "").
  destruct (String.eqb (last (x :: l) "") ""); reflexivity.
Qed.

Lemma dropLastEmpty_one (e : string) :
  e <> "" -> dropLastEmpty [e] = [e].
Proof.
  intros H. unfold dropLastEmpty. cbn [last].
  destruct (String.eqb e "") eqn:E; [apply String.eqb_eq in E; contradiction|reflexivity].
Qed.

(** The elements of what begins with [seg], when [seg] is not empty. *)
Lemma elements_first (s : string) :
  firstSeg s <> "" ->
  forallb plainElement (dropLastEmpty (split s))
  = plainElement (firstSeg s)
    && forallb plainElement
         (dropLastEmpty (split match afterSeg s with Some r => r | None => "" end)).
Proof.
  intros Hseg. rewrite split_cons.
  destruct (afterSeg s) as [r|].
  - rewrite dropLastEmpty_cons by apply split_not_nil. reflexivity.
  - rewrite dropLastEmpty_one by exact Hseg. cbn. reflexivity.
Qed.

Lemma elements_empty_first (s : string) :
  s <> "" -> firstSeg s = "" -> forallb plainElement (dropLastEmpty (split s)) = false.
Proof.
  intros Hs Hseg. rewrite split_cons, Hseg.
  destruct s as [|c s]; [contradiction|].
  cbn [firstSeg afterSeg] in *. destruct (Ascii.eqb c slash); [|discriminate].
  rewrite dropLastEmpty_cons by apply split_not_nil. reflexivity.
Qed.

Lemma fastForward_uptoSlash (s : string) :
  forall (fuel : nat) (pre : string),
    String.length s < fuel ->
    fastForward fuel (pre ++ s) (String.length (pre ++ s)) (String.length pre)
    = Ok (String.length (pre ++ uptoSlash s)).
Proof.
  induction s as [|c s IH]; intros fuel pre Hf.
  - destruct fuel as [|fuel]; [simpl in Hf; lia|]. cbn [fastForward uptoSlash].
    rewrite UnionResolveFacts.app_empty, Nat.ltb_irrefl. reflexivity.
  - destruct fuel as [|fuel]; [lia|]. cbn [fastForward].
    rewrite length_app_string. cbn [String.length].
    destruct (String.length pre <? String.length pre + S (String.length s)) eqn:E;
      [|apply Nat.ltb_ge in E; lia].
    rewrite index_app0. cbn [index String.get bind uptoSlash].
    destruct (Ascii.eqb c slash) eqn:Ec.
    + rewrite length_app_string. cbn [String.length]. reflexivity.
    + assert (Hsnoc : forall t : string,
                 ((pre ++ String c "") ++ t)%string = (pre ++ String c t)%string).
      { intros t. rewrite app_assoc_string. reflexivity. }
      rewrite <- (Hsnoc (uptoSlash s)), <- (Hsnoc s).
      replace (String.length pre + S (String.length s))
        with (String.length ((pre ++ String c "") ++ s))
        by (rewrite !length_app_string; cbn [String.length]; lia).
      replace (String.length pre + 1) with (String.length (pre ++ String c ""))
        by (rewrite length_app_string; reflexivity).
      apply IH. simpl in Hf. lia.
Qed.


Lemma plain_other (c : ascii) (t : string) :
  Ascii.eqb c dot = false -> plainElement (String c t) = true.
Proof.
  intros H. unfold plainElement. cbn [String.eqb]. unfold dot in H. rewrite H. reflexivity.
Qed.

(** One round of the outer loop, at the start of an element that does not
    begin with a slash: the three tests together say whether the element is
    [.] or [..]. *)
Lemma validFrom_round (fuel : nat) (pre : string) (c : ascii) (t : string) :
  Ascii.eqb c slash = false ->
  let path := (pre ++ String c t)%string in
  validFrom (S fuel) path (String.length path) (String.length pre)
  = if plainElement (firstSeg (String c t))
    then i' <- fastForward fuel path (String.length path) (String.length pre + 1) ;;
         validFrom fuel path (String.length path) i'
    else Ok false.
Proof.
  intros Ec path. cbn [validFrom]. unfold path at 1.
  rewrite length_app_string. cbn [String.length].
  set (i := String.length pre). set (n := i + S (String.length t)).
  destruct (i <? n) eqn:Ein; [|apply Nat.ltb_ge in Ein; lia].
  assert (H0 : index path i = Ok c) by (unfold path, i; rewrite index_app0; reflexivity).
  assert (Hn : String.length path = n).
  { unfold path, n, i. rewrite length_app_string. reflexivity. }
  rewrite Hn. fold path. rewrite H0. unfold and_then, or_else, is_byte. cbn [bind].
  rewrite Ec. cbn [bind firstSeg]. rewrite Ec.
  destruct (Ascii.eqb c dot) eqn:Ed; [|rewrite (plain_other c _ Ed); reflexivity].
  apply Ascii.eqb_eq in Ed. subst c.
  destruct t as [|d t].
  { replace (i + 1 =? n) with true by (symmetry; apply Nat.eqb_eq; unfold n; simpl; lia).
    reflexivity. }
  replace (i + 1 =? n) with false by (symmetry; apply Nat.eqb_neq; unfold n; simpl; lia).
  assert (H1 : index path (i + 1) = Ok d) by (unfold path, i; rewrite index_app; reflexivity).
  rewrite H1. cbn [bind firstSeg].
  destruct (Ascii.eqb d slash) eqn:Eds; [reflexivity|].
  destruct (Ascii.eqb d dot) eqn:Edd.
  - apply Ascii.eqb_eq in Edd. subst d.
    destruct t as [|e t].
    { replace (i + 2 =? n) with true by (symmetry; apply Nat.eqb_eq; unfold n; simpl; lia).
      reflexivity. }
    replace (i + 2 =? n) with false by (symmetry; apply Nat.eqb_neq; unfold n; simpl; lia).
    assert (H2 : index path (i + 2) = Ok e)
      by (unfold path, i; rewrite index_app; reflexivity).
    rewrite H2. cbn [bind firstSeg].
    destruct (Ascii.eqb e slash) eqn:Ees; [reflexivity|].
    reflexivity.
  - replace (plainElement (String dot (String d (firstSeg t)))) with true; [reflexivity|].
    unfold plainElement, dot. cbn [String.eqb Ascii.eqb Bool.eqb andb orb].
    unfold dot in Edd. rewrite Edd. reflexivity.
Qed.

Lemma validFrom_elements :
  forall (fuel : nat) (pre s : string),
    String.length s < fuel ->
    0 < String.length pre \/ firstSeg s <> "" \/ s = "" ->
    validFrom fuel (pre ++ s) (String.length (pre ++ s)) (String.length pre)
    = Ok (forallb plainElement (dropLastEmpty (split s))).
Proof.
  induction fuel as [|fuel IH]; intros pre s Hf Hstart; [lia|].
  destruct s as [|c t].
  - cbn [validFrom]. rewrite UnionResolveFacts.app_empty, Nat.ltb_irrefl. reflexivity.
  - destruct (Ascii.eqb c slash) eqn:Ec.
    + assert (Hpre : 0 < String.length pre).
      { destruct Hstart as [H|[H|H]]; [exact H| |discriminate].
        cbn [firstSeg] in H. rewrite Ec in H. contradiction. }
      rewrite elements_empty_first; [|discriminate|cbn [firstSeg]; rewrite Ec; reflexivity].
      cbn [validFrom]. rewrite length_app_string. cbn [String.length].
      destruct (String.length pre <? String.length pre + S (String.length t)) eqn:Ein;
        [|apply Nat.ltb_ge in Ein; lia].
      rewrite index_app0. unfold and_then, is_byte. cbn [index String.get bind].
      rewrite Ec. destruct (0 <? String.length pre) eqn:E0; [reflexivity|].
      apply Nat.ltb_ge in E0. lia.
    + rewrite (validFrom_round fuel pre c t Ec).
      rewrite elements_first by (cbn [firstSeg]; rewrite Ec; discriminate).
      destruct (plainElement (firstSeg (String c t))); [|reflexivity].
      cbn [andb afterSeg]. rewrite Ec.
      assert (Hsnoc : forall u : string,
                 ((pre ++ String c "") ++ u)%string = (pre ++ String c u)%string).
      { intros u. rewrite app_assoc_string. reflexivity. }
      rewrite <- (Hsnoc t).
      replace (String.length pre + 1) with (String.length (pre ++ String c ""))
        by (rewrite length_app_string; reflexivity).
      simpl in Hf.
      rewrite fastForward_uptoSlash by lia. cbn [bind].
      set (rest := match afterSeg t with Some r => r | None => "" end).
      assert (Ht : t = (uptoSlash t ++ rest)%string) by apply uptoSlash_rest.
      rewrite Ht at 1 2. rewrite <- app_assoc_string.
      apply IH.
      * unfold rest. destruct (afterSeg t) as [r|] eqn:Ea.
        -- apply afterSeg_length in Ea. lia.
        -- simpl. lia.
      * left. rewrite !length_app_string. cbn [String.length]. lia.
Qed.

Lemma ContainsValidDir_elements (path : string) :
  path <> "" ->
  ContainsValidDir path = Ok (forallb plainElement (elements path)).
Proof.
  intros Hne. destruct path as [|c q]; [contradiction|].
  unfold ContainsValidDir, ContainsValidDirF, elements, unroot.
  cbn [index String.get bind].
  destruct (Ascii.eqb c slash) eqn:Ec.
  - apply Ascii.eqb_eq in Ec. subst c.
    apply (validFrom_elements _ (String slash "") q).
    + simpl. lia.
    + left. simpl. lia.
  - apply (validFrom_elements _ "" (String c q)).
    + simpl. lia.
    + right. left. cbn [firstSeg]. rewrite Ec. discriminate.
Qed.

(** X18: [ContainsValidDir] returns for every path but the empty one, and
    it accepts exactly the paths whose elements are plain: between the
    slashes, a leading slash and one trailing slash set aside, stands no
    empty element, no [.] and no [..]. *)
Theorem ContainsValidDir_accepts_plain_elements (path : string) :
  path <> "" ->
  ContainsValidDir path = Ok (forallb plainElement (elements path)).
Proof. apply ContainsValidDir_elements. Qed.

Lemma ContainsValidDir_accepts_plain_elements_witness :
  ContainsValidDir "/a/../b" = Ok (forallb plainElement (elements "/a/../b")).
Proof. apply ContainsValidDir_accepts_plain_elements. discriminate. Defined.


Lemma In_dropLastEmpty (e : string) (l : list string) :
  In e l -> e <> "" -> In e (dropLastEmpty l).
Proof.
  intros Hin Hne. unfold dropLastEmpty.
  destruct (String.eqb (last l "") "") eqn:E; [|exact Hin].
  apply String.eqb_eq in E.
  destruct l as [|x l]; [contradiction|].
  rewrite (app_removelast_last "" (l := x :: l)) in Hin by discriminate.
  apply in_app_or in Hin as [Hin|[Hin|[]]]; [exact Hin|].
  rewrite E in Hin. symmetry in Hin. contradiction.
Qed.

Lemma In_split_unroot (e : string) (q : string) :
  In e (split q) -> e <> "" -> In e (split (unroot q)).
Proof.
  intros Hin Hne. destruct q as [|c q]; [exact Hin|].
  unfold unroot. destruct (Ascii.eqb c slash) eqn:Ec; [|exact Hin].
  rewrite split_cons in Hin. cbn [firstSeg afterSeg] in Hin. rewrite Ec in Hin.
  destruct Hin as [Hin|Hin]; [symmetry in Hin; contradiction|exact Hin].
Qed.

(** X19: a path [normalizePath] returns is not empty and has plain elements
    only; in particular none of the strings between its slashes is [..] or
    [.]. *)
Theorem normalizePath_returns_plain_elements (path q : string) :
  normalizePath path = Ok q ->
  q <> ""
  /\ forallb plainElement (elements q) = true
  /\ ~ In ".." (split q)
  /\ ~ In "." (split q).
Proof.
  unfold normalizePath, ToSlash.
  set (p := if String.eqb (Clean path) "" then "/" else Clean path).
  assert (Hp : p <> "").
  { unfold p. destruct (String.eqb (Clean path) "") eqn:E; [discriminate|].
    apply String.eqb_neq. exact E. }
  rewrite (ContainsValidDir_elements p Hp). cbn [bind].
  destruct (forallb plainElement (elements p)) eqn:Ev; cbn [negb]; [|discriminate].
  intros H. injection H as <-.
  split; [exact Hp|]. split; [exact Ev|].
  rewrite forallb_forall in Ev.
  split; intros Hin.
  - assert (H : plainElement ".." = true); [|discriminate H].
    apply Ev. unfold elements. apply In_dropLastEmpty; [|discriminate].
    apply In_split_unroot; [exact Hin|discriminate].
  - assert (H : plainElement "." = true); [|discriminate H].
    apply Ev. unfold elements. apply In_dropLastEmpty; [|discriminate].
    apply In_split_unroot; [exact Hin|discriminate].
Qed.

Lemma normalizePath_returns_plain_elements_witness :
  "/b" <> ""
  /\ forallb plainElement (elements "/b") = true
  /\ ~ In ".." (split "/b")
  /\ ~ In "." (split "/b").
Proof.
  apply (normalizePath_returns_plain_elements "/a/../b" "/b"). reflexivity.
Defined.

End PathElementsFacts.

(** ** Server: which keys are accepted *)

Module ServerKeysFacts.
Import Server ServerKeys.

Section Keys.

Variable PublicKey : Type.
Variable ParseAuthorizedKey : string -> res PublicKey.
Variable KeysEqual : PublicKey -> PublicKey -> bool.

Local Abbreviation parseKeys := (parseKeys ParseAuthorizedKey).
Local Abbreviation keysPerUserOf := (keysPerUserOf ParseAuthorizedKey).

Lemma parseKeys_In (keyStrings : list string) (keys : list PublicKey) :
  parseKeys keyStrings = Ok keys ->
  forall publicKey : PublicKey,
    In publicKey keys <->
    exists keyString : string,
      In keyString keyStrings /\ ParseAuthorizedKey keyString = Ok publicKey.
Proof.
  revert keys. induction keyStrings as [|k rest IH]; intros keys H publicKey.
  - injection H as <-. split; [contradiction|]. intros [x [[] _]].
  - cbn [ServerKeys.parseKeys] in H.
    apply Basics.bind_Ok in H as [allowed [Hk H]].
    apply Basics.bind_Ok in H as [keys' [Hrest H]]. injection H as <-.
    specialize (IH keys' Hrest publicKey). split.
    + intros [<-|Hin].
      * exists k. split; [left; reflexivity|exact Hk].
      * apply IH in Hin as [x [Hx Hp]]. exists x. split; [right; exact Hx|exact Hp].
    + intros [x [[<-|Hx] Hp]].
      * left. rewrite Hk in Hp. injection Hp as ->. reflexivity.
      * right. apply IH. eauto.
Qed.

Lemma keysPerUserOf_lookup (users : list (string * UserEntry))
    (keysPerUser : list (string * list PublicKey)) (username : string) :
  keysPerUserOf users = Ok keysPerUser ->
  match lookup users username with
  | Some entry =>
      exists keys : list PublicKey,
        lookup keysPerUser username = Some keys
        /\ parseKeys (AuthorizedKeys entry) = Ok keys
  | None => lookup keysPerUser username = None
  end.
Proof.
  revert keysPerUser. induction users as [|[u entry] rest IH]; intros keysPerUser H.
  - injection H as <-. reflexivity.
  - cbn [ServerKeys.keysPerUserOf] in H.
    apply Basics.bind_Ok in H as [keys [Hk H]].
    apply Basics.bind_Ok in H as [m [Hrest H]]. injection H as <-.
    cbn [lookup]. destruct (String.eqb u username).
    + exists keys. split; [reflexivity|exact Hk].
    + apply IH. exact Hrest.
Qed.

Lemma parseKeys_total (keyStrings : list string) :
  (forall keyString : string, In keyString keyStrings ->
     exists publicKey : PublicKey, ParseAuthorizedKey keyString = Ok publicKey) ->
  exists keys : list PublicKey, parseKeys keyStrings = Ok keys.
Proof.
  induction keyStrings as [|k rest IH]; intros H; [eexists; reflexivity|].
  destruct (H k (or_introl eq_refl)) as [pk Hpk].
  destruct IH as [keys Hkeys]; [intros x Hx; apply H; right; exact Hx|].
  exists (pk :: keys). cbn [ServerKeys.parseKeys]. rewrite Hpk. cbn [bind].
  rewrite Hkeys. reflexivity.
Qed.

Lemma parseKeys_parsed (keyStrings : list string) (keys : list PublicKey) :
  parseKeys keyStrings = Ok keys ->
  forall keyString : string, In keyString keyStrings ->
    exists publicKey : PublicKey, ParseAuthorizedKey keyString = Ok publicKey.
Proof.
  revert keys. induction keyStrings as [|k rest IH]; intros keys H x Hx; [contradiction|].
  cbn [ServerKeys.parseKeys] in H.
  apply Basics.bind_Ok in H as [allowed [Hk H]].
  apply Basics.bind_Ok in H as [keys' [Hrest _]].
  destruct Hx as [<-|Hx]; [eauto|]. apply (IH keys' Hrest x Hx).
Qed.

(** X20: the validation function [buildKeyValidationFunc] returns accepts
    a key for a user exactly when the user has an entry in the
    configuration and the key equals, by [KeysEqual], the parsed form of one
    of the authorized keys of that entry.  The function is built exactly
    when every authorized key of every user parses. *)
Theorem key_is_accepted_only_for_its_user (c : ConfigSftp) :
  (forall validate : string -> PublicKey -> bool,
      buildKeyValidationFunc ParseAuthorizedKey KeysEqual c = Ok validate ->
      forall (username : string) (key : PublicKey),
        validate username key = true <->
        exists (entry : UserEntry) (keyString : string) (publicKey : PublicKey),
          lookup (Users c) username = Some entry
          /\ In keyString (AuthorizedKeys entry)
          /\ ParseAuthorizedKey keyString = Ok publicKey
          /\ KeysEqual publicKey key = true)
  /\ ((exists validate : string -> PublicKey -> bool,
          buildKeyValidationFunc ParseAuthorizedKey KeysEqual c = Ok validate) <->
      (forall (username : string) (entry : UserEntry) (keyString : string),
          In (username, entry) (Users c) -> In keyString (AuthorizedKeys entry) ->
          exists publicKey : PublicKey, ParseAuthorizedKey keyString = Ok publicKey)).
Proof.
  split.
  - intros validate H username key. unfold buildKeyValidationFunc in H.
    apply Basics.bind_Ok in H as [keysPerUser [Hm H]]. injection H as <-.
    pose proof (keysPerUserOf_lookup (Users c) keysPerUser username Hm) as Hl.
    unfold validation.
    destruct (lookup (Users c) username) as [entry|] eqn:Eu.
    + destruct Hl as [keys [Hl Hp]]. rewrite Hl. rewrite existsb_exists. split.
      * intros [publicKey [Hin Heq]].
        apply (parseKeys_In _ _ Hp) in Hin as [keyString [Hks Hparse]].
        exists entry, keyString, publicKey. auto.
      * intros [entry' [keyString [publicKey [He [Hks [Hparse Heq]]]]]].
        injection He as <-. exists publicKey. split; [|exact Heq].
        apply (parseKeys_In _ _ Hp). eauto.
    + rewrite Hl. split; [discriminate|].
      intros [entry' [_ [_ [He _]]]]. discriminate.
  - unfold buildKeyValidationFunc. split.
    + intros [validate H]. apply Basics.bind_Ok in H as [keysPerUser [Hm _]].
      revert keysPerUser Hm. induction (Users c) as [|[u e] rest IH];
        intros keysPerUser Hm username entry keyString Hin Hks; [contradiction|].
      cbn [ServerKeys.keysPerUserOf] in Hm.
      apply Basics.bind_Ok in Hm as [keys [Hk Hm]].
      apply Basics.bind_Ok in Hm as [m [Hrest _]].
      destruct Hin as [Hin|Hin].
      * injection Hin as -> ->. apply (parseKeys_parsed _ _ Hk _ Hks).
      * apply (IH m Hrest username entry keyString Hin Hks).
    + intros Hall.
      assert (Hm : exists keysPerUser, keysPerUserOf (Users c) = Ok keysPerUser).
      { induction (Users c) as [|[u e] rest IH]; [eexists; reflexivity|].
        destruct (parseKeys_total (AuthorizedKeys e)) as [keys Hk].
        { intros x Hx. apply (Hall u e x); [left; reflexivity|exact Hx]. }
        destruct IH as [m Hm].
        { intros username entry x Hin Hx. apply (Hall username entry x); [right|]; assumption. }
        exists ((u, keys) :: m). cbn [ServerKeys.keysPerUserOf]. rewrite Hk. cbn [bind].
        rewrite Hm. reflexivity. }
      destruct Hm as [keysPerUser Hm]. rewrite Hm. cbn [bind]. eauto.
Qed.

End Keys.

Lemma key_is_accepted_only_for_its_user_witness :
  validation String.eqb [("u", ["k1"; "k2"])] "u" "k2" = true <->
  exists (entry : UserEntry) (keyString : string) (publicKey : string),
    lookup [("u", mkUserEntry ["k1"; "k2"] [] [] [] [] false)] "u" = Some entry
    /\ In keyString (AuthorizedKeys entry)
    /\ (fun s : string => if String.eqb s "" then Err ErrInvalid else Ok s) keyString
       = Ok publicKey
    /\ String.eqb publicKey "k2" = true.
Proof.
  apply (proj1 (key_is_accepted_only_for_its_user string
                  (fun s : string => if String.eqb s "" then Err ErrInvalid else Ok s)
                  String.eqb
                  (mkConfigSftp [("u", mkUserEntry ["k1"; "k2"] [] [] [] [] false)] 80))
               (validation String.eqb [("u", ["k1"; "k2"])])).
  reflexivity.
Defined.

End ServerKeysFacts.

(** ** Port forwarding over SSH *)

Module PortForwardFacts.
Import PortForward.

Section Handler.

Variable W : Type.
Variable env : Channel W.
Variable callback : option (string -> string -> Z -> bool).
Variable ctxUser : string.
Variable s : SSHConnectionHandler.

Local Abbreviation ok := (mayReceive env callback ctxUser s).
Local Abbreviation fenced := (onlyTo env ok).

(** The handler of a state has the slices of [s] and, at every pointer, the
    user [s] has there. *)
Local Abbreviation sameUsers st :=
  (forall q : nat, user (heap (fst st) q) = user (heap s q)).

Lemma run_fenced {A : Type} (m : M W A) (st : State W) :
  fst (snd (run m st)) = fst st.
Proof. unfold run. destruct (m (snd st)) as [r w']. reflexivity. Qed.

Lemma haveNewChannel_fenced (listener : nat) (st : State W) :
  ok listener = true ->
  haveNewChannel fenced listener st = haveNewChannel env listener st.
Proof. intros H. unfold haveNewChannel. cbn [send onlyTo]. rewrite H. reflexivity. Qed.

Lemma haveNewChannel_users (listener : nat) (st : State W) :
  sameUsers st -> sameUsers (snd (haveNewChannel env listener st)).
Proof.
  intros H q. unfold haveNewChannel.
  destruct (send env listener (snd st)) as [r w']. cbn [fst snd heap].
  destruct (q =? listener) eqn:E; [|apply H].
  apply Nat.eqb_eq in E. subst q. cbn [user]. apply H.
Qed.

Lemma offer_fenced (d : localForwardChannelData) :
  Unmarshal env = inl d ->
  (exists allow : string -> string -> Z -> bool,
      callback = Some allow /\ allow ctxUser (DestAddr d) (DestPort d) = true) ->
  String.eqb (DestAddr d) "localhost" || String.eqb (DestAddr d) "127.0.0.1" = true ->
  forall (ls : list nat) (firstListener : option nat) (st : State W),
    (forall p : nat, In p ls -> In p (listenersOf s (DestPort d))) ->
    sameUsers st ->
    (forall f : nat, firstListener = Some f -> ok f = true) ->
    offer fenced ctxUser d ls firstListener st = offer env ctxUser d ls firstListener st
    /\ forall (r : option nat + unit) (st' : State W),
         offer env ctxUser d ls firstListener st = (Ok r, st') ->
         sameUsers st'
         /\ forall f : nat, r = inl (Some f) -> ok f = true.
Proof.
  intros Hd [allow [Hcb Hallow]] Haddr.
  assert (Hok : forall (p : nat) (st : State W),
             In p (listenersOf s (DestPort d)) -> sameUsers st ->
             String.eqb (user (heap (fst st) p)) ctxUser
             || String.eqb (user (heap (fst st) p)) "" = true ->
             ok p = true).
  { intros p st Hin Hu Hm. unfold mayReceive. rewrite Hd, Hcb, Hallow, Haddr.
    cbn [andb]. rewrite <- (Hu p), Hm, andb_true_r.
    apply existsb_exists. exists p. split; [exact Hin|apply Nat.eqb_refl]. }
  induction ls as [|p rest IH]; intros firstListener st Hsub Hu Hfirst.
  - split; [reflexivity|]. cbn [offer]. unfold ret. intros r st' H.
    injection H as <- <-. split; [exact Hu|].
    intros f Hf. injection Hf as Hf. apply Hfirst. exact Hf.
  - cbn [offer].
    destruct (String.eqb (user (heap (fst st) p)) ctxUser
              || String.eqb (user (heap (fst st) p)) "") eqn:Em.
    + assert (Hp : ok p = true) by (apply (Hok p st); [apply Hsub; left; reflexivity|exact Hu|exact Em]).
      assert (Hfirst' : forall f : nat,
                 match firstListener with Some _ => firstListener | None => Some p end = Some f ->
                 ok f = true).
      { intros f Hf. destruct firstListener as [g|].
        - apply Hfirst. exact Hf.
        - injection Hf as <-. exact Hp. }
      assert (Hrest : forall q : nat, In q rest -> In q (listenersOf s (DestPort d)))
        by (intros q Hq; apply Hsub; right; exact Hq).
      destruct (isPending (heap (fst st) p)).
      * unfold mbind. rewrite (haveNewChannel_fenced p st Hp).
        pose proof (haveNewChannel_users p st Hu) as Hu1.
        destruct (haveNewChannel env p st) as [[e|e| |] st1]; cbn [snd] in Hu1;
          try (split; [reflexivity|discriminate]).
        destruct e as [text|].
        -- cbn [logErr onlyTo].
           pose proof (run_fenced (logErr env "SSHConnectionHandler" text) st1) as Hr.
           destruct (run (logErr env "SSHConnectionHandler" text) st1) as [[u|e| |] st2];
             cbn [snd] in Hr; try (split; [reflexivity|discriminate]).
           apply IH; [exact Hrest| |exact Hfirst'].
           intros q. rewrite Hr. apply Hu1.
        -- cbn [logInfo showData onlyTo].
           pose proof (run_fenced (logInfo env "SSHConnectionHandler"
                                     ("forwarded " ++ showData env d)) st1) as Hr.
           destruct (run (logInfo env "SSHConnectionHandler"
                            ("forwarded " ++ showData env d)) st1) as [[u|e| |] st2];
             cbn [snd] in Hr; try (split; [reflexivity|discriminate]).
           split; [reflexivity|]. unfold ret. intros r st' H. injection H as <- <-.
           split; [intros q; rewrite Hr; apply Hu1|discriminate].
      * apply IH; [exact Hrest|exact Hu|exact Hfirst'].
    + apply IH; [intros q Hq; apply Hsub; right; exact Hq|exact Hu|exact Hfirst].
Qed.

(** X21: a forward request is handed only to listeners that may receive
    it: the callback of the server allows the forward, the destination is
    [localhost] or [127.0.0.1], and the listener stands in the slice of the
    destination port for the user of the request or for every user.  With a
    [send] that panics on every other listener, [HandleTCPIP] does what it
    does with the [send] it was given. *)
Theorem requests_reach_only_their_listeners (w : W) :
  HandleTCPIP fenced callback ctxUser (s, w) = HandleTCPIP env callback ctxUser (s, w).
Proof.
  unfold HandleTCPIP. cbn [Unmarshal onlyTo].
  destruct (Unmarshal env) as [d|text] eqn:Hd; [|reflexivity].
  destruct callback as [allow|] eqn:Hcb; [|reflexivity].
  destruct (allow ctxUser (DestAddr d) (DestPort d)) eqn:Hallow; [|reflexivity].
  cbn [negb].
  destruct (String.eqb (DestAddr d) "localhost" || String.eqb (DestAddr d) "127.0.0.1")
    eqn:Haddr.
  2:{ apply orb_false_iff in Haddr as [-> ->]. reflexivity. }
  replace (negb (String.eqb (DestAddr d) "localhost")
           && negb (String.eqb (DestAddr d) "127.0.0.1")) with false
    by (rewrite <- negb_orb, Haddr; reflexivity).
  cbn [fst]. destruct (listenersOf s (DestPort d)) as [|p ls] eqn:Hls; [reflexivity|].
  destruct (offer_fenced d Hd (ex_intro _ allow (conj Hcb Hallow)) Haddr
              (p :: ls) None (s, w)) as [Heq Hpost].
  - rewrite Hls. intros q Hq. exact Hq.
  - intros q. reflexivity.
  - discriminate.
  - rewrite Hcb in Heq, Hpost. unfold mbind. rewrite Heq.
    destruct (offer env ctxUser d (p :: ls) None (s, w)) as [[r|e| |] st1] eqn:Ho;
      try reflexivity.
    destruct (Hpost r st1 eq_refl) as [_ Hf].
    destruct r as [[f|]|u]; try reflexivity.
    pose proof (haveNewChannel_fenced f st1) as Hh. rewrite Hcb in Hh.
    rewrite Hh by (apply Hf; reflexivity). reflexivity.
Qed.

End Handler.

Lemma without_fresh (p : nat) (ls : list nat) :
  ~ In p ls -> without p (ls ++ [p]) = ls.
Proof.
  induction ls as [|x ls IH]; intros H.
  - cbn. rewrite Nat.eqb_refl. reflexivity.
  - cbn [app without]. destruct (x =? p) eqn:E.
    + apply Nat.eqb_eq in E. subst x. exfalso. apply H. left. reflexivity.
    + f_equal. apply IH. intros Hin. apply H. right. exact Hin.
Qed.

(** X22: [CreateListener] appends a new listener to the slice of its port
    and leaves the other slices alone; removing that listener again (what
    its [Close] does) restores every slice, and from then on the listener may
    receive no request, whatever the channel, the callback and the user. *)
Theorem closing_a_new_listener_restores_the_slices
    (s : SSHConnectionHandler) (port0 : Z) (user0 : string) :
  allocated s ->
  let listener := fst (CreateListener s port0 user0) in
  let s1 := snd (CreateListener s port0 user0) in
  listenersOf s1 port0 = listenersOf s port0 ++ [listener]
  /\ (forall key : Z, key <> port0 -> listenersOf s1 key = listenersOf s key)
  /\ heap s1 listener = mkListener user0 port0 true
  /\ allocated s1
  /\ (forall key : Z, listenersOf (removeListener s1 listener) key = listenersOf s key)
  /\ (forall (W : Type) (env : Channel W) (callback : option (string -> string -> Z -> bool))
             (ctxUser : string),
        mayReceive env callback ctxUser (removeListener s1 listener) listener = false).
Proof.
  intros Halloc listener s1.
  assert (Hl : listener = next s).
  { unfold listener, CreateListener. destruct (listeners s port0); reflexivity. }
  assert (Hs1 : s1 = setSlice (mkHandler (listeners s)
                                 (fun p => if p =? next s then mkListener user0 port0 true
                                           else heap s p) (S (next s)))
                       port0 (listenersOf s port0 ++ [next s])).
  { unfold s1, CreateListener, listenersOf. destruct (listeners s port0); reflexivity. }
  assert (Hfresh : ~ In (next s) (listenersOf s port0)).
  { intros Hin. apply Halloc in Hin. lia. }
  assert (H1 : listenersOf s1 port0 = listenersOf s port0 ++ [listener]).
  { rewrite Hs1, Hl. unfold listenersOf at 1, setSlice. cbn [listeners].
    rewrite Z.eqb_refl. reflexivity. }
  assert (H2 : forall key : Z, key <> port0 -> listenersOf s1 key = listenersOf s key).
  { intros key Hkey. rewrite Hs1. unfold listenersOf, setSlice. cbn [listeners].
    destruct (key =? port0)%Z eqn:E; [apply Z.eqb_eq in E; contradiction|reflexivity]. }
  assert (H3 : heap s1 listener = mkListener user0 port0 true).
  { rewrite Hs1, Hl. unfold setSlice. cbn [heap]. rewrite Nat.eqb_refl. reflexivity. }
  assert (H5 : forall key : Z, listenersOf (removeListener s1 listener) key = listenersOf s key).
  { intros key. unfold removeListener. rewrite H3. cbn [port].
    assert (Hsome : listeners s1 port0 = Some (listenersOf s port0 ++ [listener])).
    { rewrite Hs1, Hl. unfold setSlice. cbn [listeners]. rewrite Z.eqb_refl. reflexivity. }
    rewrite Hsome.
    replace (existsb (fun connectionListener => connectionListener =? listener)
               (listenersOf s port0 ++ [listener])) with true.
    2:{ symmetry. apply existsb_exists. exists listener.
        split; [apply in_or_app; right; left; reflexivity|apply Nat.eqb_refl]. }
    rewrite Hl, without_fresh by exact Hfresh.
    unfold listenersOf at 1, setSlice. cbn [listeners].
    destruct (key =? port0)%Z eqn:E.
    - apply Z.eqb_eq in E. subst key. reflexivity.
    - apply Z.eqb_neq in E. rewrite <- (H2 key E). reflexivity. }
  split; [exact H1|]. split; [exact H2|]. split; [exact H3|]. split; [|split; [exact H5|]].
  - intros key p Hin.
    assert (Hnext : next s1 = S (next s)) by (rewrite Hs1; reflexivity).
    rewrite Hnext. destruct (Z.eq_dec key port0) as [->|Hkey].
    + rewrite H1 in Hin. apply in_app_or in Hin as [Hin|[<-|[]]].
      * apply Halloc in Hin. lia.
      * lia.
    + rewrite (H2 key Hkey) in Hin. apply Halloc in Hin. lia.
  - intros W env callback ctxUser. unfold mayReceive.
    destruct (Unmarshal env) as [d|text]; [|reflexivity].
    rewrite H5.
    replace (existsb (fun p => p =? listener) (listenersOf s (DestPort d))) with false.
    + rewrite andb_false_r. reflexivity.
    + symmetry. apply not_true_is_false. intros Hex.
      apply existsb_exists in Hex as [p [Hin Hp]]. apply Nat.eqb_eq in Hp. subst p.
      apply Halloc in Hin. lia.
Qed.

Lemma closing_a_new_listener_restores_the_slices_witness :
  listenersOf (snd (CreateListener (mkHandler (fun _ => None)
                                      (fun _ => mkListener "" 0 true) 0) 80 "peter")) 80
  = [] ++ [fst (CreateListener (mkHandler (fun _ => None)
                                  (fun _ => mkListener "" 0 true) 0) 80 "peter")].
Proof.
  apply (closing_a_new_listener_restores_the_slices
           (mkHandler (fun _ => None) (fun _ => mkListener "" 0 true) 0) 80 "peter").
  intros key p Hin. contradiction.
Defined.

End PortForwardFacts.

(** ** The access logger *)

Module AccessLogFacts.
Import AccessLog.

Local Open Scope string_scope.

Lemma app_snoc (a : string) (c : ascii) (b : string) :
  (a ++ String c "") ++ b = a ++ String c b.
Proof. induction a as [|x a IH]; [reflexivity|]. simpl. rewrite IH. reflexivity. Qed.

Lemma app_nil (a : string) : a ++ "" = a.
Proof. induction a as [|x a IH]; [reflexivity|]. simpl. rewrite IH. reflexivity. Qed.

Lemma app_assoc' (a b c : string) : (a ++ b) ++ c = a ++ b ++ c.
Proof. induction a as [|x a IH]; [reflexivity|]. simpl. rewrite IH. reflexivity. Qed.

(** Reading an escaped field up to the double quote that closes it. *)
Lemma inField_field (f : string) :
  forall (cur : string) (done : list string) (tail : string),
    inField (escape f ++ String quote tail) cur done
    = match tail with
      | EmptyString => Some (done ++ [(cur ++ f)%string])%list
      | String d tail' =>
          if Ascii.eqb d quote then inField tail' ((cur ++ f) ++ String quote "") done
          else if Ascii.eqb d ","%char then
            match tail' with
            | EmptyString => None
            | String q text3 =>
                if Ascii.eqb q quote then inField text3 "" (done ++ [(cur ++ f)%string])%list
                else None
            end
          else None
      end.
Proof.
  induction f as [|c f IH]; intros cur done tail.
  - cbn [escape append inField]. rewrite Ascii.eqb_refl, app_nil. reflexivity.
  - cbn [escape]. destruct (Ascii.eqb c quote) eqn:Ec.
    + apply Ascii.eqb_eq in Ec. subst c.
      cbn [append inField]. rewrite Ascii.eqb_refl. rewrite IH.
      rewrite app_snoc. reflexivity.
    + cbn [append inField]. rewrite Ec. rewrite IH. rewrite app_snoc. reflexivity.
Qed.

Lemma concat_quoted (x : string) (rest : list string) :
  String.concat "," (quoted x :: rest)
  = String quote (x ++ String quote
                    match rest with
                    | [] => ""
                    | _ => String ","%char (String.concat "," rest)
                    end).
Proof.
  unfold quoted. destruct rest as [|y rest].
  - reflexivity.
  - cbn [String.concat append]. rewrite app_assoc'. reflexivity.
Qed.

Lemma inField_fields (fields : list string) :
  forall (f : string) (done : list string),
    inField (escape f ++ String quote
               match map (fun e => quoted (escape e)) fields with
               | [] => ""
               | _ => String ","%char
                        (String.concat "," (map (fun e => quoted (escape e)) fields))
               end) "" done
    = Some (done ++ f :: fields)%list.
Proof.
  induction fields as [|g fields IH]; intros f done.
  - cbn [map]. rewrite inField_field. reflexivity.
  - cbn [map]. rewrite inField_field.
    replace (Ascii.eqb ","%char quote) with false by reflexivity.
    rewrite Ascii.eqb_refl. rewrite concat_quoted. rewrite Ascii.eqb_refl.
    cbn [append]. rewrite IH. rewrite <- app_assoc. reflexivity.
Qed.

Lemma escape_noQuote (text : string) : noQuote text = true -> escape text = text.
Proof.
  induction text as [|c text IH]; intros H; [reflexivity|].
  cbn [noQuote] in H. apply andb_prop in H as [Hc H]. apply negb_true_iff in Hc.
  cbn [escape]. rewrite Hc, (IH H). reflexivity.
Qed.

Lemma readRecord_printStrings (now : string) (entries : list string) :
  noQuote now = true ->
  readRecord (printStrings now entries) = Some (now :: entries).
Proof.
  intros Hnow. unfold printStrings. rewrite concat_quoted.
  cbn [readRecord]. rewrite Ascii.eqb_refl.
  rewrite <- (escape_noQuote now Hnow) at 1.
  apply (inField_fields entries now []).
Qed.

(** X23: the text the access logger sends for a call determines the call.
    A reader that takes fields between double quotes, separated by commas,
    with a doubled double quote for one inside a field, gets back the time
    and the entries; so two calls of [printStrings] send the same text only
    for the same time and the same entries, and two calls of [NewAccess] only
    for the same connection, path, kind and status, however the path is
    written. *)
Theorem access_record_determines_its_entries
    (now1 now2 : string) (entries1 entries2 : list string) :
  noQuote now1 = true -> noQuote now2 = true ->
  readRecord (printStrings now1 entries1) = Some (now1 :: entries1)
  /\ (printStrings now1 entries1 = printStrings now2 entries2 ->
      now1 = now2 /\ entries1 = entries2)
  /\ (forall (c1 c2 : ConnectionInfo) (path1 kind1 status1 path2 kind2 status2 : string),
        NewAccess now1 c1 path1 kind1 status1 = NewAccess now2 c2 path2 kind2 status2 ->
        now1 = now2 /\ c1 = c2 /\ path1 = path2 /\ kind1 = kind2 /\ status1 = status2).
Proof.
  intros H1 H2.
  assert (Hinj : forall es1 es2 : list string,
             printStrings now1 es1 = printStrings now2 es2 -> now1 = now2 /\ es1 = es2).
  { intros es1 es2 E.
    pose proof (readRecord_printStrings now1 es1 H1) as R1.
    pose proof (readRecord_printStrings now2 es2 H2) as R2.
    rewrite E, R2 in R1. injection R1 as -> ->. split; reflexivity. }
  split; [apply readRecord_printStrings; exact H1|]. split; [apply Hinj|].
  intros c1 c2 path1 kind1 status1 path2 kind2 status2 E.
  unfold NewAccess, printEntry in E. cbn [logType connectionInfo path kind status] in E.
  apply Hinj in E as [-> E]. injection E as Hip Hu -> -> ->.
  destruct c1, c2. cbn [IP Username] in Hip, Hu. subst.
  repeat split; reflexivity.
Qed.

Lemma access_record_determines_its_entries_witness :
  readRecord (printStrings "2022-03-20 00:00:00 +0000 UTC"
                ["access"; "10.0.0.1:22"; "u"; String quote ",x"; "Get"; "ok"])
  = Some ["2022-03-20 00:00:00 +0000 UTC";
          "access"; "10.0.0.1:22"; "u"; String quote ",x"; "Get"; "ok"].
Proof.
  apply (access_record_determines_its_entries
           "2022-03-20 00:00:00 +0000 UTC" "2022-03-20 00:00:00 +0000 UTC"
           ["access"; "10.0.0.1:22"; "u"; String quote ",x"; "Get"; "ok"] []);
    reflexivity.
Defined.

End AccessLogFacts.

(** ** UnionMount: the rename fallback for a directory *)

Module RenameDirectoryFacts.
Import UnionMount Memory RenameFacts.

(** X24: a rename between two different mounts in memory, not both native
    directories, of a directory without entries to a path that does not
    exist.  With fuel for two rounds the call returns no error; it has
    created the directory at the destination, removed the one at the source
    and changed nothing else. *)
Theorem cross_mount_rename_moves_an_empty_directory
    (asOsDirFS : nat -> option OsDirFS)
    (c : CombinedFS nat) (src dst subSrc subDst : string) (ms md : nat)
    (w : World) (fuel : nat) :
  Extract c src = Ok (subSrc, ms) ->
  Extract c dst = Ok (subDst, md) ->
  (ms =? md) = false ->
  asOsDirFS ms = None \/ asOsDirFS md = None ->
  find (w ms) subSrc = Some Directory ->
  children (w ms) subSrc = [] ->
  find (w md) subDst = None ->
  isRoot src || isRoot dst || isRoot subSrc || isRoot subDst = false ->
  2 <= fuel ->
  exists w' : World,
    Memory.Rename asOsDirFS c fuel src dst w = (Ok tt, w')
    /\ w' md = store (w md) subDst Directory
    /\ w' ms = remove (w ms) subSrc
    /\ (forall m : nat, m <> ms -> m <> md -> w' m = w m)
    /\ find (w' md) subDst = Some Directory
    /\ find (w' ms) subSrc = None.
Proof.
  intros Hs Hd Hdiff Hnative Hsrc Hempty Hdst Hroots Hfuel.
  apply orb_false_iff in Hroots as [Hroots E4].
  apply orb_false_iff in Hroots as [Hroots E3].
  assert (Hne : String.eqb src dst = false).
  { destruct (String.eqb src dst) eqn:E; [|reflexivity].
    apply String.eqb_eq in E. subst dst. rewrite Hs in Hd.
    injection Hd as _ E. subst md. rewrite Nat.eqb_refl in Hdiff. discriminate. }
  assert (Hdiff' : (md =? ms) = false) by (rewrite Nat.eqb_sym; exact Hdiff).
  set (w1 := setMount w md (store (w md) subDst Directory)).
  set (w2 := setMount w1 ms (remove (w ms) subSrc)).
  assert (Hw1s : w1 ms = w ms) by (apply setMount_other; exact Hdiff).
  exists w2.
  destruct fuel as [|[|fuel]]; [lia|lia|].
  split.
  - unfold Memory.Rename, UnionMount.Rename.
    rewrite Hroots, Hne, Hs, Hd. unfold mbind at 1. unfold ret at 1.
    unfold mbind at 1. unfold ret at 1. rewrite E3, E4. cbn [orb].
    unfold sameMount. rewrite Hdiff. unfold mbind at 1. unfold ret at 1.
    assert (Hfall :
      (srcStat <~ fsStat (memFS ms) subSrc ;;
       fun w0 =>
         match fsStat (memFS md) subDst w0 with
         | (Ok _, w') => (Err (ErrMsg "target path exists"), w')
         | (Err ErrNotExist, w') =>
             (if IsDir srcStat
              then renameDirectoryFallback memReadAt memWriteAt memFS (S (S fuel)) ms md
                     subSrc subDst
              else renameFileFallback memReadAt memWriteAt memFS (S (S fuel)) ms md
                     subSrc subDst) w'
         | (Err e, w') => (Err e, w')
         | (Panic, w') => (Panic, w')
         | (Diverge, w') => (Diverge, w')
         end) w = (Ok tt, w2)).
    { cbn [memFS fsStat]. unfold mbind at 1. unfold memStat at 1. rewrite Hsrc.
      unfold memStat at 1. rewrite Hdst. cbn [infoOf IsDir].
      cbn [renameDirectoryFallback]. 
      cbn [memFS fsMkdir fsList fsRmdir].
      unfold mbind at 1. unfold memMkdir at 1. rewrite Hdst. fold w1.
      unfold mbind at 1. unfold memList at 1. rewrite Hw1s, Hsrc, Hempty.
      unfold mbind at 1. unfold mbind at 1. unfold ret at 1.
      change (DirMount.dirLister [] 5 0%Z) with (Ok (0%Z, @nil FileInfo, Some EOF)).
      cbn [Z.eqb]. unfold ret at 1.
      unfold memRmdir. rewrite Hw1s, Hsrc, Hempty. reflexivity. }
    destruct (asOsDirFS ms) as [srcDirFs|] eqn:Ems;
      [destruct (asOsDirFS md) as [dstDirFs|] eqn:Emd;
       [destruct Hnative; discriminate|]|]; exact Hfall.
  - assert (Hmd : w2 md = store (w md) subDst Directory).
    { unfold w2. rewrite setMount_other by exact Hdiff'. unfold w1. apply setMount_same. }
    assert (Hms : w2 ms = remove (w ms) subSrc).
    { unfold w2. rewrite setMount_same. reflexivity. }
    split; [exact Hmd|]. split; [exact Hms|]. split; [|split].
    + intros m Hm1 Hm2. unfold w2, w1.
      rewrite !setMount_other by (apply Nat.eqb_neq; assumption). reflexivity.
    + rewrite Hmd. apply find_store_same.
    + rewrite Hms. apply find_remove_same.
Qed.

Lemma cross_mount_rename_moves_an_empty_directory_witness :
  exists w' : World,
    Memory.Rename notNative docsAndPics 2 "/docs/old" "/pics/new"
      (setMount scenarioS4 1 (store (scenarioS4 1) "/old" Directory)) = (Ok tt, w')
    /\ find (w' 2) "/new" = Some Directory
    /\ find (w' 1) "/old" = None.
Proof.
  destruct (cross_mount_rename_moves_an_empty_directory notNative docsAndPics
              "/docs/old" "/pics/new" "/old" "/new" 1 2
              (setMount scenarioS4 1 (store (scenarioS4 1) "/old" Directory)) 2)
    as [w' [H [_ [_ [_ [H1 H2]]]]]];
    [reflexivity|reflexivity|reflexivity|left; reflexivity|reflexivity|reflexivity
    |reflexivity|reflexivity|lia|].
  exists w'. split; [exact H|]. split; assumption.
Defined.

End RenameDirectoryFacts.

(** ** PathGuard: rooted paths *)

Module RootedPathFacts.
Import PathGuard PathElements UnionMountOps PathElementsFacts.

Local Abbreviation tidy := (fun e : string => plainElement e && noSlash e).

Lemma noSlash_snoc (cur : string) (c : ascii) :
  noSlash cur = true -> Ascii.eqb c slash = false ->
  noSlash (cur ++ String c "") = true.
Proof.
  intros Hcur Hc. induction cur as [|x cur IH]; cbn [append noSlash].
  - rewrite Hc. reflexivity.
  - cbn [noSlash] in Hcur. apply andb_prop in Hcur as [Hx Hcur].
    rewrite Hx, (IH Hcur). reflexivity.
Qed.

Lemma splitAcc_slash_free (s : string) :
  forall cur : string, noSlash cur = true ->
    Forall (fun e => noSlash e = true) (splitAcc cur s).
Proof.
  induction s as [|c s IH]; intros cur Hcur; cbn [splitAcc].
  - constructor; [exact Hcur|constructor].
  - destruct (Ascii.eqb c slash) eqn:Ec.
    + constructor; [exact Hcur|]. apply IH. reflexivity.
    + apply IH. apply noSlash_snoc; assumption.
Qed.

Lemma cleanStep_tidy (kept : list string) (elem : string) :
  Forall (fun e => tidy e = true) kept -> noSlash elem = true ->
  Forall (fun e => tidy e = true) (cleanStep true kept elem).
Proof.
  intros Hkept Helem. unfold cleanStep.
  destruct (String.eqb elem "" || String.eqb elem ".") eqn:E1; [exact Hkept|].
  destruct (String.eqb elem "..") eqn:E2.
  - destruct kept as [|top rest]; [constructor|].
    inversion Hkept as [|? ? Htop Hrest]; subst.
    destruct (String.eqb top "..") eqn:E3; [|exact Hrest].
    apply String.eqb_eq in E3. subst top. discriminate Htop.
  - constructor; [|exact Hkept].
    apply orb_false_iff in E1 as [Ea Eb].
    unfold plainElement. rewrite Ea, Eb, E2, Helem. reflexivity.
Qed.

Lemma fold_cleanStep_tidy (elems kept : list string) :
  Forall (fun e => noSlash e = true) elems ->
  Forall (fun e => tidy e = true) kept ->
  Forall (fun e => tidy e = true) (fold_left (cleanStep true) elems kept).
Proof.
  revert kept. induction elems as [|e elems IH]; intros kept He Hk; [exact Hk|].
  inversion He; subst. cbn [fold_left]. apply IH; [assumption|].
  apply cleanStep_tidy; assumption.
Qed.

Lemma firstSeg_app (k rest : string) :
  noSlash k = true -> firstSeg (k ++ String slash rest) = k.
Proof.
  induction k as [|c k IH]; intros H; cbn [append firstSeg].
  - unfold slash. rewrite Ascii.eqb_refl. reflexivity.
  - cbn [noSlash] in H. apply andb_prop in H as [Hc H]. apply negb_true_iff in Hc.
    rewrite Hc, (IH H). reflexivity.
Qed.

Lemma afterSeg_app (k rest : string) :
  noSlash k = true -> afterSeg (k ++ String slash rest) = Some rest.
Proof.
  induction k as [|c k IH]; intros H; cbn [append afterSeg].
  - unfold slash. rewrite Ascii.eqb_refl. reflexivity.
  - cbn [noSlash] in H. apply andb_prop in H as [Hc H]. apply negb_true_iff in Hc.
    rewrite Hc. apply IH. exact H.
Qed.

Lemma split_concat (kept : list string) :
  kept <> [] ->
  Forall (fun e => noSlash e = true) kept ->
  split (String.concat "/" kept) = kept.
Proof.
  induction kept as [|k kept IH]; intros Hne H; [contradiction|].
  inversion H as [|? ? Hk Hrest]; subst.
  destruct kept as [|k2 kept].
  - cbn [String.concat]. unfold split.
    rewrite (UnionResolveFacts.splitAcc_noSlash "" k Hk). reflexivity.
  - assert (Hc : String.concat "/" (k :: k2 :: kept)
                 = (k ++ String slash (String.concat "/" (k2 :: kept)))%string)
      by reflexivity.
    rewrite Hc, split_cons, firstSeg_app, afterSeg_app by exact Hk.
    rewrite IH; [reflexivity|discriminate|exact Hrest].
Qed.

Lemma dropLastEmpty_tidy (kept : list string) :
  Forall (fun e => tidy e = true) kept -> kept <> [] -> dropLastEmpty kept = kept.
Proof.
  intros H Hne. unfold dropLastEmpty.
  destruct (String.eqb (last kept "") "") eqn:E; [|reflexivity].
  apply String.eqb_eq in E.
  assert (Hin : In (last kept "") kept).
  { clear - Hne. induction kept as [|x kept IH]; [contradiction|].
    destruct kept as [|y kept]; [left; reflexivity|].
    right. apply IH. discriminate. }
  rewrite Forall_forall in H. apply H in Hin. rewrite E in Hin. discriminate.
Qed.

(** X25: [normalizePath] refuses no path that begins with a slash: it
    returns the cleaned path, whose elements are plain.  Every [..] of a
    rooted path is resolved by [filepath.Clean] before [ContainsValidDir]
    looks at it, so only paths that do not begin with a slash can be
    refused. *)
Theorem normalizePath_accepts_every_rooted_path (path : string) :
  String.prefix "/" path = true ->
  normalizePath path = Ok (Clean path)
  /\ String.prefix "/" (Clean path) = true
  /\ forallb plainElement (elements (Clean path)) = true.
Proof.
  intros Hroot. destruct path as [|c q]; [discriminate|].
  cbn [String.prefix] in Hroot.
  destruct (ascii_dec "/"%char c) as [Hc|Hc]; [|discriminate].
  change "/"%char with slash in Hc. subst c.
  set (kept := rev (fold_left (cleanStep true) (split (String slash q)) [])).
  assert (Hclean : Clean (String slash q) = ("/" ++ String.concat "/" kept)%string).
  { unfold Clean. unfold slash at 1. cbn [Ascii.eqb Bool.eqb]. reflexivity. }
  assert (Htidy : Forall (fun e => tidy e = true) kept).
  { unfold kept. apply Forall_rev. apply fold_cleanStep_tidy; [|constructor].
    apply splitAcc_slash_free. reflexivity. }
  assert (Hslash : Forall (fun e => noSlash e = true) kept).
  { eapply Forall_impl; [|exact Htidy]. intros e He. apply andb_prop in He as [_ He].
    exact He. }
  assert (Hplain : forallb plainElement kept = true).
  { apply forallb_forall. rewrite Forall_forall in Htidy. intros e He.
    apply Htidy in He. apply andb_prop in He as [He _]. exact He. }
  assert (Hel : forallb plainElement (elements (Clean (String slash q))) = true).
  { rewrite Hclean. unfold elements. cbn [append unroot]. unfold slash.
    cbn [Ascii.eqb Bool.eqb].
    destruct kept as [|k kept'] eqn:Ek; [reflexivity|].
    rewrite split_concat by (try discriminate; exact Hslash).
    rewrite dropLastEmpty_tidy by (try discriminate; exact Htidy). exact Hplain. }
  split; [|split; [|exact Hel]].
  2:{ rewrite Hclean. cbn [append String.prefix].
      destruct (ascii_dec "/"%char "/"%char) as [_|C]; [|contradiction].
      destruct (String.concat "/" kept); reflexivity. }
  unfold normalizePath, ToSlash.
  assert (Hne : String.eqb (Clean (String slash q)) "" = false) by (rewrite Hclean; reflexivity).
  rewrite Hne.
  rewrite ContainsValidDir_elements by (rewrite Hclean; discriminate).
  rewrite Hel. reflexivity.
Qed.

Lemma normalizePath_accepts_every_rooted_path_witness :
  normalizePath "/../../etc/./passwd" = Ok (Clean "/../../etc/./passwd")
  /\ String.prefix "/" (Clean "/../../etc/./passwd") = true
  /\ forallb plainElement (elements (Clean "/../../etc/./passwd")) = true.
Proof.
  apply (normalizePath_accepts_every_rooted_path "/../../etc/./passwd"). reflexivity.
Defined.

End RootedPathFacts.

(** ** EmptyFS behind the SFTP handlers *)

Module EmptyMountFacts.
Import PathGuard EmptyMount SftpAdapter.

Section Empty.

Variable W : Type.
Variables ReaderAt WriterAt FileAttrFlags FileStat : Type.
Variable ConnectionInfo : Type.

Local Abbreviation Served := (Served W ConnectionInfo).
Local Abbreviation Request := (Request FileAttrFlags FileStat).

Variables (haveAccessLogger0 haveLog0 : bool) (info0 : ConnectionInfo).

Local Abbreviation served :=
  (mkWrapper (EmptyFS W ReaderAt WriterAt FileAttrFlags FileStat)
     haveAccessLogger0 info0 haveLog0).

(** A handler whose call of the filesystem leaves the files alone and gives
    one of the outcomes [good] leaves the files alone and gives an error
    or one of these outcomes. *)
Lemma handle_empty {A : Type} (normalization context : string)
    (run : string -> Request -> M Served A) (good : A -> Prop) (r : Request) (s : Served) :
  (forall (path : string) (s0 : Served),
      files (snd (run path r s0)) = files s0
      /\ ((exists e : error, fst (run path r s0) = Err e)
          \/ exists a : A, fst (run path r s0) = Ok a /\ good a)) ->
  files (snd (handle served normalization context run r s)) = files s
  /\ ((exists e : error, fst (handle served normalization context run r s) = Err e)
      \/ exists a : A, fst (handle served normalization context run r s) = Ok a /\ good a).
Proof.
  intros Hrun. unfold handle, try, mbind, ret, logAccess, logError.
  cbn [haveAccessLogger haveLog SftpAdapter.info].
  destruct (SftpAdapterFacts.normalizePath_outcomes (Filepath r)) as [[path Hp]|Hp];
    rewrite Hp.
  - destruct (Hrun path s) as [Hfiles Hout].
    destruct (run path r s) as [[a|e| |] s1]; cbn [fst snd] in *.
    + destruct Hout as [[e He]|[a' [Ha Hgood]]]; [discriminate|]. injection Ha as <-.
      destruct haveAccessLogger0; cbn [negb fst snd files];
        (split; [exact Hfiles|right; exists a; split; [reflexivity|exact Hgood]]).
    + destruct (isErrForbidden e), haveAccessLogger0, haveLog0; cbn [negb fst snd files];
        (split; [exact Hfiles|left; eauto]).
    + destruct Hout as [[e He]|[a' [Ha _]]]; discriminate.
    + destruct Hout as [[e He]|[a' [Ha _]]]; discriminate.
  - destruct haveAccessLogger0, haveLog0; cbn [negb fst snd files];
      (split; [reflexivity|left; eauto]).
Qed.

Lemma call_ret {A : Type} (r : res A) (s : Served) :
  call (ret r) s = (r, s).
Proof. unfold call, ret. destruct s. reflexivity. Qed.

(** X26: over [EmptyFS], the filesystem a connection is given when none
    can be built for its user, no request changes the files; every
    [Filecmd], [Fileread] and [Filewrite] ends in an error, and a [Filelist]
    that does not gives the lister that lists nothing or the single entry of
    the root. *)
Theorem nothing_is_served_from_EmptyFS (r : Request) (s : Served) :
  (files (snd (Filecmd served r s)) = files s
   /\ exists e : error, fst (Filecmd served r s) = Err e)
  /\ (files (snd (Fileread served r s)) = files s
      /\ exists e : error, fst (Fileread served r s) = Err e)
  /\ (files (snd (Filewrite served r s)) = files s
      /\ exists e : error, fst (Filewrite served r s) = Err e)
  /\ (files (snd (Filelist served r s)) = files s
      /\ ((exists e : error, fst (Filelist served r s) = Err e)
          \/ fst (Filelist served r s) = Ok (listenerF emptyLister)
          \/ fst (Filelist served r s) = Ok (singleFileInfo rootFileInfo))).
Proof.
  assert (Hnone : forall (A : Type) (n c : string) (run : string -> Request -> M Served A),
             (forall (path : string) (s0 : Served),
                 files (snd (run path r s0)) = files s0
                 /\ exists e : error, fst (run path r s0) = Err e) ->
             files (snd (handle served n c run r s)) = files s
             /\ exists e : error, fst (handle served n c run r s) = Err e).
  { intros A n c run Hrun.
    destruct (handle_empty n c run (fun _ => False) r s) as [Hf [He|[a [_ []]]]].
    - intros path s0. destruct (Hrun path s0) as [H1 H2]. split; [exact H1|left; exact H2].
    - split; assumption. }
  split; [|split; [|split]].
  - apply Hnone. intros path s0.
    assert (Hone : files (snd (call (@ret W unit (Err ErrPermission)) s0)) = files s0
                   /\ exists e : error,
                        fst (call (@ret W unit (Err ErrPermission)) s0) = Err e).
    { rewrite call_ret. split; [reflexivity|eexists; reflexivity]. }
    assert (Htwo : files (snd ((target <~ ret (normalizePath (Target r)) ;;
                                call (@ret W unit (Err ErrPermission))) s0)) = files s0
                   /\ exists e : error,
                        fst ((target <~ ret (normalizePath (Target r)) ;;
                              call (@ret W unit (Err ErrPermission))) s0) = Err e).
    { unfold mbind, ret at 1.
      destruct (SftpAdapterFacts.normalizePath_outcomes (Target r)) as [[t Ht]|Ht];
        rewrite Ht; [exact Hone|split; [reflexivity|eexists; reflexivity]]. }
    unfold filecmdCall. cbn [fs EmptyFS fsSetStat fsRename fsRmdir fsRm fsMkdir fsLink
                              fsSymlink].
    destruct (String.eqb (Method r) "Setstat"); [exact Hone|].
    destruct (String.eqb (Method r) "Rename"); [exact Htwo|].
    destruct (String.eqb (Method r) "Rmdir"); [exact Hone|].
    destruct (String.eqb (Method r) "Remove"); [exact Hone|].
    destruct (String.eqb (Method r) "Mkdir"); [exact Hone|].
    destruct (String.eqb (Method r) "Link"); [exact Htwo|].
    destruct (String.eqb (Method r) "Symlink"); [exact Htwo|].
    unfold ret. split; [reflexivity|eexists; reflexivity].
  - apply Hnone. intros path s0. cbn [fs EmptyFS fsRead]. rewrite call_ret.
    split; [reflexivity|eexists; reflexivity].
  - apply Hnone. intros path s0. cbn [fs EmptyFS fsWrite]. rewrite call_ret.
    split; [reflexivity|eexists; reflexivity].
  - destruct (handle_empty "Error during path normalization in Filelist"
                "Error during Filelist call"
                (fileListCall served)
                (fun l => l = listenerF emptyLister \/ l = singleFileInfo rootFileInfo) r s)
      as [Hf Hout].
    + intros path s0. unfold fileListCall. cbn [fs EmptyFS fsList fsLstat fsStat fsReadLink].
      unfold statLike.
      repeat (match goal with |- context [if ?b then _ else _] => destruct b end);
        unfold mbind; rewrite ?call_ret; unfold ret; cbn [fst snd];
        (split; [reflexivity|]); eauto 6.
    + split; [exact Hf|]. destruct Hout as [He|[l [Hl [->| ->]]]]; auto.
Qed.

End Empty.

End EmptyMountFacts.

(** ** The wrapper over the root of a union *)

Module WrappedUnionFacts.
Import PathGuard PermWrapper Caller Memory WrappedUnion.

(** The mounts in memory answer [Stat] without changing the world, so the
    loop of the root closure leaves the world as it is. *)
Lemma rootLoop_keeps_world (c : UnionMount.CombinedFS nat) (topDirs : list string)
    (lenFs : nat) (offset : Z) (count : nat) :
  forall (i : Z) (fs : list FileInfo) (w : World),
    snd (UnionMount.rootLoop memFS c count topDirs lenFs offset i fs w) = w.
Proof.
  induction count as [|count IH]; intros i fs w; [reflexivity|].
  cbn [UnionMount.rootLoop]. unfold mbind, ret.
  destruct (UnionMount.indexZ topDirs (add64 offset i)) as [dirname|e| |]; try reflexivity.
  destruct (UnionMount.lookupDir (UnionMount.Dirs c) dirname) as [sfs|]; [|reflexivity].
  cbn [memFS fsStat]. unfold memStat.
  destruct (find (w sfs) "/") as [node|].
  - destruct (i <? Z.of_nat lenFs)%Z; [apply IH|reflexivity].
  - destruct (UnionMount.logging c); reflexivity.
Qed.

Lemma listAt_keeps_world (c : UnionMount.CombinedFS nat) (l : UnionMount.UnionLister)
    (lenFs : nat) (offset : Z) (w : World) :
  UnionMount.listAt memFS c l lenFs offset w = (listerIn c w l lenFs offset, w).
Proof.
  unfold listerIn.
  assert (H : snd (UnionMount.listAt memFS c l lenFs offset w) = w).
  { destruct l as [topDirs|iter]; [|reflexivity].
    cbn [UnionMount.listAt]. unfold UnionMount.rootListAt.
    destruct (offset >=? len64 topDirs)%Z; [reflexivity|].
    unfold mbind.
    match goal with
    | |- context [UnionMount.rootLoop ?a ?b ?n ?t ?l ?o ?i ?f ?w] =>
        pose proof (rootLoop_keeps_world b t l o n i f w) as Hw;
        destruct (UnionMount.rootLoop a b n t l o i f w) as [r w']
    end.
    cbn [snd] in Hw. subst w'.
    destruct r as [[fs|e]|e| |]; try reflexivity.
    match goal with |- context [if ?b then _ else _] => destruct b end; reflexivity. }
  rewrite <- H at 3. apply surjective_pairing.
Qed.

(** The root closure of [docs] and [pics] in the world of scenario S4. *)
Local Abbreviation root :=
  (listerIn docsAndPics scenarioS4 (UnionMount.RootLister (UnionMount.topDirsOf docsAndPics))).

Local Abbreviation hide := (fun path : string => anyMatch [Recording.matchSecret] path).

Lemma root_at_0 : root 1 0%Z = Ok (1%Z, [mountEntry "docs"], None).
Proof. vm_compute. reflexivity. Qed.

Lemma root_at_1 : root 1 1%Z = Ok (0%Z, [], None).
Proof. vm_compute. reflexivity. Qed.

Lemma docs_shown : hides hide "/" (mountEntry "docs") = false.
Proof. vm_compute. reflexivity. Qed.

(** The fill loop at inner offset 1 with a buffer of one entry: the root
    closure returns no entry and no EOF, and the loop goes round again. *)
Lemma fillLoop_stalls (fuel : nat) (st : FilterState) :
  fst (fillLoop hide "/" root fuel 1 1 st) = Diverge.
Proof.
  induction fuel as [|fuel IH]; [reflexivity|].
  cbn [fillLoop]. rewrite root_at_1. cbn [keepLoop].
  change (0 <? 0)%Z with false. cbv iota.
  change (add64 1 0) with 1%Z. exact IH.
Qed.

Lemma first_call (fuel : nat) (st : FilterState) :
  filteredListAt hide "/" root (S fuel) 1 0 st
  = (Ok (1%Z, [mountEntry "docs"], None), st).
Proof.
  unfold filteredListAt. cbn [skipLoop]. change (0 <? 0)%Z with false. cbv iota.
  cbn [fillLoop]. rewrite root_at_0. cbn [keepLoop].
  change (0 <? 1)%Z with true. cbv iota. rewrite docs_shown. cbn [negb].
  change (add64 0 1) with 1%Z. change (1 <? 1)%Z with false. cbv iota.
  cbn [app]. reflexivity.
Qed.

Lemma second_call (fuel : nat) :
  fst (filteredListAt hide "/" root fuel 1 1 (mkFilterState [] 0)) = Diverge.
Proof.
  unfold filteredListAt.
  destruct fuel as [|[|fuel]]; [reflexivity|reflexivity|].
  assert (Hskip : skipLoop hide "/" root (S (S fuel)) 1 0 0 (mkFilterState [] 0)
                  = (Positioned 1, mkFilterState [] 1)).
  { cbn [skipLoop maxOffsetYet idxToHide].
    change (0 <? 1)%Z with true. change (0 <? 0)%Z with false.
    change (0 >=? 0)%Z with true. cbn [andb]. cbv iota.
    rewrite root_at_0. change (1 =? 0)%Z with false. cbv iota.
    rewrite docs_shown. change (add64 0 1) with 1%Z.
    change (1 <? 1)%Z with false. cbv iota. reflexivity. }
  rewrite Hskip. apply fillLoop_stalls.
Qed.

(** C3: the wrapper around a union, listed at the root with buffers of one
    entry.  [List("/")] of the wrapper around the union of [docs] and
    [pics] returns the filtering closure over the root closure of the
    union.  The inner listing is [docs], [pics]; no hide expression matches
    [/docs] or [/pics], so both are visible.  The call at offset 0 delivers
    [docs] without EOF.  The call at offset 1 does not return: after the
    one-entry probe has placed the inner offset at 1, the root closure
    returns no entry and no EOF there, and the loop that fills the buffer
    asks again without end.  So the caller that passes the number of
    entries received so far never receives [pics]. *)
Theorem filtered_root_listing_never_ends (copyFuel : nat) :
  let p := wrapped copyFuel in
  let lister := Filtering (ShouldHide p) "/" root (mkFilterState [] 0) in
  PermWrapper.List p "/" scenarioS4 = (Ok lister, scenarioS4)
  /\ (forall (lenFs : nat) (offset : Z),
        UnionMount.listAt memFS docsAndPics
          (UnionMount.RootLister (UnionMount.topDirsOf docsAndPics)) lenFs offset scenarioS4
        = (root lenFs offset, scenarioS4))
  /\ root 2 0%Z = Ok (2%Z, [mountEntry "docs"; mountEntry "pics"], Some EOF)
  /\ ShouldHide p (Join "/" (Name (mountEntry "docs"))) = false
  /\ ShouldHide p (Join "/" (Name (mountEntry "pics"))) = false
  /\ visible (ShouldHide p) "/" [mountEntry "docs"; mountEntry "pics"]
     = [mountEntry "docs"; mountEntry "pics"]
  /\ (forall fuel : nat,
        listAt (S fuel) lister 1 0 = (Ok (1%Z, [mountEntry "docs"], None), lister))
  /\ (forall fuel : nat, fst (listAt fuel lister 1 1) = Diverge)
  /\ (forall (fuel : nat) (sizes : list nat),
        drain fuel lister (1 :: 1 :: sizes) 0 = Diverge).
Proof.
  intros p lister.
  assert (Hfirst : forall fuel : nat,
            listAt (S fuel) lister 1 0 = (Ok (1%Z, [mountEntry "docs"], None), lister)).
  { intros fuel. unfold lister. cbn [listAt].
    change (ShouldHide p) with hide. rewrite first_call. reflexivity. }
  assert (Hsecond : forall fuel : nat, fst (listAt fuel lister 1 1) = Diverge).
  { intros fuel. unfold lister. cbn [listAt]. change (ShouldHide p) with hide.
    pose proof (second_call fuel) as H.
    destruct (filteredListAt hide "/" root fuel 1 1 (mkFilterState [] 0)) as [r st].
    exact H. }
  split; [reflexivity|]. split; [intros lenFs offset; apply listAt_keeps_world|].
  split; [vm_compute; reflexivity|]. split; [vm_compute; reflexivity|].
  split; [vm_compute; reflexivity|]. split; [vm_compute; reflexivity|].
  split; [exact Hfirst|]. split; [exact Hsecond|].
  intros fuel sizes. destruct fuel as [|fuel]; [reflexivity|].
  cbn [drain]. rewrite Hfirst. change (add64 0 1) with 1%Z.
  cbn [drain]. specialize (Hsecond (S fuel)).
  destruct (listAt (S fuel) lister 1 1) as [r l']. cbn [fst] in Hsecond.
  subst r. reflexivity.
Qed.

End WrappedUnionFacts.
